(** * The CSLC Cal/Val validation-table notebook

    A shallow embedding of
    [validation_data/CSLC_Create_Validation_Table_with_az_fm_rate.ipynb]:
    the paginated S3 key generator [get_matching_s3_keys], the loop that
    builds up [validation_bursts_df] one listed key at a time, and the
    final [drop_duplicates] / [sort_values] pass before the table is saved.

    Conventions of the model.
    - A data frame is the list of its rows, in index order.  Every frame the
      loop sees has the index [0 .. n-1] ([read_csv] and
      [concat(ignore_index=True)] both produce it), so an index label is a
      position in the list.
    - The columns [burst_id] and [cslc_url] hold strings and
      [cslc_static_url] may be absent.  A [date] is a string when the loop
      writes it and an integer when [read_csv] found nothing but integer
      literals in the column of the file, and the two are never equal.
    - A table file is its header and the cell texts of its rows.  Burst
      identifiers and URLs are names that [read_csv] leaves as they are; a
      geometry cell stands for the geometry its text denotes.  The model of
      [read_csv] is meant for date cells that are strings of decimal digits
      (at most eighteen, so that they fit [int64]) or else plain text; cells
      that pandas takes for floats, booleans or missing values are outside
      it.
    - The S3 service is a function from a request to its response (an
      unchanged remote store), and so is the remote HDF5 read, which can
      fail.  Calls to both are logged so that statements can count them.
    - The generator's [while True] loop is bounded by a page budget; running
      out of it is the outcome [Timeout], never a result. *)

From Stdlib Require Import String Ascii List ZArith Bool Arith Lia.
From Stdlib Require Import DecimalString.
From Stdlib Require Import Permutation Sorted.
From Stdlib Require OrdersEx.
Import ListNotations.

Local Open Scope string_scope.
Local Open Scope list_scope.

(** ** The Python string operations the notebook uses *)

Module Py.

(** [s.endswith(suffix)] *)
Definition endswith (s suffix : string) : bool :=
  (String.length suffix <=? String.length s)%nat &&
  String.eqb
    (substring (String.length s - String.length suffix)
               (String.length suffix) s)
    suffix.

(** [s.split(sep)] for a one-character separator: never empty. *)
Fixpoint split (sep : ascii) (s : string) : list string :=
  match s with
  | EmptyString => [EmptyString]
  | String c s' =>
      if Ascii.eqb c sep then EmptyString :: split sep s'
      else match split sep s' with
           | h :: t => String c h :: t
           | [] => [String c EmptyString]
           end
  end.

(** [l[-n]] for [n >= 1]; [None] stands for [IndexError]. *)
Definition neg_index {A : Type} (l : list A) (n : nat) : option A :=
  nth_error (rev l) (n - 1).

(** What [next(iter(index[mask]), False)] evaluates to: an index label or
    the default [False]. *)
Inductive label_or_False : Type :=
| Label (i : nat)
| PyFalse.

(** [v != False].  Python compares the integer [0] equal to [False]. *)
Definition ne_False (v : label_or_False) : bool :=
  match v with
  | Label 0 => false
  | Label (S _) => true
  | PyFalse => false
  end.

(** Position of the first [true] of a boolean mask. *)
Fixpoint first_true (mask : list bool) : option nat :=
  match mask with
  | [] => None
  | true :: _ => Some 0
  | false :: rest => option_map S (first_true rest)
  end.

(** [next(iter(mask.index[mask]), False)] *)
Definition next_iter_or_False (mask : list bool) : label_or_False :=
  match first_true mask with
  | Some i => Label i
  | None => PyFalse
  end.

(** [sorted(l, key=key)] with an integer key: stable, ascending. *)
Section Sorted.
Context {A : Type} (key : A -> Z).

Fixpoint insert_by (x : A) (l : list A) : list A :=
  match l with
  | [] => [x]
  | y :: l' =>
      if (key x <=? key y)%Z then x :: y :: l' else y :: insert_by x l'
  end.

Fixpoint sorted (l : list A) : list A :=
  match l with
  | [] => []
  | x :: l' => insert_by x (sorted l')
  end.
End Sorted.

(** [c in s] for a character [c]. *)
Fixpoint contains (c : ascii) (s : string) : bool :=
  match s with
  | EmptyString => false
  | String c' s' => Ascii.eqb c' c || contains c s'
  end.

(** A value of the [date] column: an integer where [read_csv] inferred
    [int64], a string where the loop wrote [key.split('/')[-2]]. *)
Inductive value : Type :=
| Int (n : Z)
| Str (s : string).

(** [a == b], which is also how [drop_duplicates] tells values apart: an
    integer never equals a string. *)
Definition value_eqb (a b : value) : bool :=
  match a, b with
  | Int m, Int n => Z.eqb m n
  | Str s, Str t => String.eqb s t
  | _, _ => false
  end.

(** The order [sort_values] puts a column of integers and strings in:
    the integers first, ascending, then the strings, by code point. *)
Definition value_compare (a b : value) : comparison :=
  match a, b with
  | Int m, Int n => Z.compare m n
  | Int _, Str _ => Lt
  | Str _, Int _ => Gt
  | Str s, Str t => String.compare s t
  end.

Definition value_leb (a b : value) : bool :=
  match value_compare a b with
  | Gt => false
  | _ => true
  end.

(** [str(v)], which is what [to_csv] writes in the cell. *)
Definition str (v : value) : string :=
  match v with
  | Int n => NilZero.string_of_int (Z.to_int n)
  | Str s => s
  end.

Definition is_digit (c : ascii) : bool :=
  let n := nat_of_ascii c in ((48 <=? n) && (n <=? 57))%nat.

Fixpoint all_digits (s : string) : bool :=
  match s with
  | EmptyString => true
  | String c s' => is_digit c && all_digits s'
  end.

(** A cell that the CSV parser reads as an integer: decimal digits, at
    least one. *)
Definition is_integer_literal (s : string) : bool :=
  match s with
  | EmptyString => false
  | _ => all_digits s
  end.

(** The integer such a cell denotes. *)
Fixpoint digits_value (acc : Z) (s : string) : Z :=
  match s with
  | EmptyString => acc
  | String c s' => digits_value (10 * acc + Z.of_nat (nat_of_ascii c - 48)) s'
  end.

Definition int (s : string) : Z := digits_value 0 s.

End Py.

(** ** Static variables of the notebook *)

Definition bucket : string := "opera-provisional-products".
Definition with_or_withoutfmrate : string := "no_az_fm_rate".
Definition prefix : string :=
  ("CSLC/pst_adt_common/az_fm_rate" ++ "/" ++ with_or_withoutfmrate)%string.
Definition s3_path : string := ("s3://" ++ bucket)%string.
Definition version_num : string := "1.0".
Definition suffix : string := ".h5".

(** ** The S3 listing interface ([list_objects_v2]) *)

Record S3Object : Type := {
  Key : string;
  LastModified : Z          (* [int(obj['LastModified'].strftime('%s'))] *)
}.

(** The keyword arguments of one call.  [prefix] is a string in every call
    the notebook makes, so ['Prefix'] is always set. *)
Record ListRequest : Type := {
  Bucket : string;
  Prefix : string;
  ContinuationToken : option string
}.

(** The two response fields the generator reads; either may be missing. *)
Record ListResponse : Type := {
  Contents : option (list S3Object);
  NextContinuationToken : option string
}.

Definition with_token (kwargs : ListRequest) (tok : string) : ListRequest :=
  {| Bucket := Bucket kwargs;
     Prefix := Prefix kwargs;
     ContinuationToken := Some tok |}.

(** The keys one page contributes: objects sorted by last-modified time,
    mapped to their key, filtered by suffix. *)
Definition page_keys (suffix : string) (valid_results : list S3Object)
  : list string :=
  filter (fun i => Py.endswith i suffix)
         (map Key (Py.sorted LastModified valid_results)).

(** ** Outcomes of notebook code *)

Inductive FetchError : Type :=
| IOFailure          (* [fsspec.open] / [h5py.File] failed *)
| DecodeFailure.     (* missing dataset, or [wkt.loads] rejected the text *)

Inductive PyException : Type :=
| BurstRecordNotFound   (* [raise Exception('Expected burst record ...')] *)
| IndexError            (* [key.split('/')[-2]] on a key without '/' *)
| KeyError              (* a label or a column that is not there *)
| FetchFailed (e : FetchError).  (* whatever the remote read raised *)

Inductive Result (A : Type) : Type :=
| Returned (a : A)
| Raised (e : PyException)
| Timeout.

Arguments Returned {A} a.
Arguments Raised {A} e.
Arguments Timeout {A}.

(** ** The notebook, over a fixed remote store *)

Section Notebook.

(** What [wkt.loads] returns and the [geometry] column holds. *)
Variable Geometry : Type.

(** [s3.list_objects_v2] on the public bucket, applied to its keyword
    arguments. *)
Variable list_objects_v2 : ListRequest -> ListResponse.

(** The remote read of one granule: [fsspec.open(cslc_url)], then
    [h5['identification/bounding_polygon']], then [wkt.loads]. *)
Variable read_bounding_polygon : string -> FetchError + Geometry.

(** *** [get_matching_s3_keys] *)

(** The body of the generator's [while True] loop, as the sequence of keys
    it yields from the current [kwargs] on.  [fuel] bounds the number of
    requests; [None] means the bound was hit. *)
Fixpoint get_matching_s3_keys_from (fuel : nat) (kwargs : ListRequest)
         (suffix : string) : option (list string) :=
  match fuel with
  | O => None
  | S fuel' =>
      let resp := list_objects_v2 kwargs in
      match Contents resp with
      | None => Some []                                   (* KeyError: break *)
      | Some valid_results =>
          let valid_results := page_keys suffix valid_results in
          match NextContinuationToken resp with
          | None => Some valid_results                    (* KeyError: break *)
          | Some tok =>
              option_map (app valid_results)
                (get_matching_s3_keys_from fuel' (with_token kwargs tok) suffix)
          end
      end
  end.

(** The first request of a call. *)
Definition first_request (bucket prefix burst_id : string) : ListRequest :=
  {| Bucket := bucket;
     Prefix := (prefix ++ "/" ++ burst_id ++ "/20")%string;
     ContinuationToken := None |}.

Definition get_matching_s3_keys (fuel : nat)
           (bucket prefix suffix burst_id version_num : string)
  : option (list string) :=
  get_matching_s3_keys_from fuel (first_request bucket prefix burst_id) suffix.

(** The same loop, as the list of requests it sends. *)
Fixpoint requests_from (fuel : nat) (kwargs : ListRequest)
  : list ListRequest :=
  match fuel with
  | O => []
  | S fuel' =>
      let resp := list_objects_v2 kwargs in
      kwargs ::
      match Contents resp, NextContinuationToken resp with
      | Some _, Some tok => requests_from fuel' (with_token kwargs tok)
      | _, _ => []
      end
  end.

(** *** The validation table *)

Record CatalogRecord : Type := {
  burst_id : string;
  date : Py.value;
  cslc_url : string;
  cslc_static_url : option string;
  geometry : Geometry
}.

Definition DataFrame : Type := list CatalogRecord.

(** The mutable state of the session: the working table, and the URLs
    opened remotely so far, oldest first. *)
Record Kernel : Type := {
  validation_bursts_df : DataFrame;
  opened : list string
}.

Definition M (A : Type) : Type := Kernel -> Kernel * Result A.

Definition ret {A : Type} (a : A) : M A := fun k => (k, Returned a).

Definition raise {A : Type} (e : PyException) : M A :=
  fun k => (k, Raised e).

Definition bind {A B : Type} (m : M A) (f : A -> M B) : M B :=
  fun k =>
    match m k with
    | (k', Returned a) => f a k'
    | (k', Raised e) => (k', Raised e)
    | (k', Timeout) => (k', Timeout)
    end.

Notation "x <- m ;; f" := (bind m (fun x => f))
  (at level 61, m at next level, right associativity).

(** [for x in l: body(x)] over a list already in memory. *)
Fixpoint for_each {X : Type} (l : list X) (body : X -> M unit) : M unit :=
  match l with
  | [] => ret tt
  | x :: l' => _ <- body x ;; for_each l' body
  end.

(** Opening a granule and decoding its bounding polygon. *)
Definition fetch_geometry (url : string) : M Geometry :=
  fun k =>
    let k' := {| validation_bursts_df := validation_bursts_df k;
                 opened := opened k ++ [url] |} in
    match read_bounding_polygon url with
    | inl e => (k', Raised (FetchFailed e))
    | inr g => (k', Returned g)
    end.

(** [pd.concat([validation_bursts_df, GeoDataFrame([file_dict])],
    ignore_index=True)] *)
Definition append_record (file_dict : CatalogRecord) : M unit :=
  fun k =>
    ({| validation_bursts_df := validation_bursts_df k ++ [file_dict];
        opened := opened k |}, Returned tt).

(** [validation_bursts_df['burst_id'] == burst_id] *)
Definition geom_check (df : DataFrame) (b : string) : list bool :=
  map (fun r => String.eqb (burst_id r) b) df.

(** [next(iter(geom_check.index[geom_check]), False)] *)
Definition idx_geo (df : DataFrame) (b : string) : Py.label_or_False :=
  Py.next_iter_or_False (geom_check df b).

(** [validation_bursts_df.loc[idx_geo]['geometry']] *)
Definition loc_geometry (df : DataFrame) (idx : Py.label_or_False)
  : M Geometry :=
  match idx with
  | Py.Label i =>
      match nth_error df i with
      | Some r => ret (geometry r)
      | None => raise KeyError
      end
  | Py.PyFalse => raise KeyError
  end.

(** [cslc_url not in validation_bursts_df['cslc_url'].values.astype(str)] *)
Definition url_not_in (url : string) (df : DataFrame) : bool :=
  negb (existsb (String.eqb url) (map cslc_url df)).

(** [key.split('/')[-2]] *)
Definition date_of_key (key : string) : option string :=
  Py.neg_index (Py.split "/" key) 2.

(** The dictionary for one file; no static layer is expected, so
    [cslc_static_url] is [None].  The date is the string cut out of the
    key. *)
Definition file_dict (b d url : string) (g : Geometry) : CatalogRecord :=
  {| burst_id := b;
     date := Py.Str d;
     cslc_url := url;
     cslc_static_url := None;
     geometry := g |}.

(** The [if idx_geo != False: ... else: ...] block that binds [geometry]:
    take it over from the row labelled [idx_geo], or read the granule. *)
Definition geometry_for (df : DataFrame) (b url : string) : M Geometry :=
  if Py.ne_False (idx_geo df b)
  then loc_geometry df (idx_geo df b)
  else fetch_geometry url.

(** The body of the inner [for key in get_matching_s3_keys(...)] loop. *)
Definition process_key (b key : string) : M unit :=
  fun k =>
    let df := validation_bursts_df k in
    let url := (s3_path ++ "/" ++ key)%string in
    if url_not_in url df then
      match date_of_key key with
      | None => raise IndexError k
      | Some d =>
          (g <- geometry_for df b url ;;
           append_record (file_dict b d url g)) k
      end
    else ret tt k.

(** [for key in get_matching_s3_keys(...): body(key)].  The generator is
    lazy: the body runs on the keys of a page before the next page is
    requested.  [calls] logs the requests sent, oldest first. *)
Fixpoint for_key_in_get_matching_s3_keys (fuel : nat) (kwargs : ListRequest)
         (suffix : string) (body : string -> M unit)
         (k : Kernel) (calls : list ListRequest)
  : Kernel * list ListRequest * Result unit :=
  match fuel with
  | O => (k, calls, Timeout)
  | S fuel' =>
      let resp := list_objects_v2 kwargs in
      let calls := calls ++ [kwargs] in
      match Contents resp with
      | None => (k, calls, Returned tt)
      | Some valid_results =>
          match for_each (page_keys suffix valid_results) body k with
          | (k', Returned _) =>
              match NextContinuationToken resp with
              | None => (k', calls, Returned tt)
              | Some tok =>
                  for_key_in_get_matching_s3_keys fuel'
                    (with_token kwargs tok) suffix body k' calls
              end
          | (k', Raised e) => (k', calls, Raised e)
          | (k', Timeout) => (k', calls, Timeout)
          end
      end
  end.

(** The cell "Query server and build up validation table": one pass over
    the rows [(burst_id, cr_network)] of the burst file [df_val].  The call
    of the generator also passes [version_num], which it never reads. *)
Fixpoint query_and_build (fuel : nat) (df_val : list (string * string))
         (k : Kernel) (calls : list ListRequest)
  : Kernel * list ListRequest * Result unit :=
  match df_val with
  | [] => (k, calls, Returned tt)
  | (b, cr_network) :: rest =>
      let iter_prefix := (prefix ++ "/" ++ cr_network)%string in
      match for_key_in_get_matching_s3_keys fuel
              (first_request bucket iter_prefix b) suffix
              (process_key b) k calls with
      | (k', calls', Returned _) => query_and_build fuel rest k' calls'
      | other => other
      end
  end.

(** *** Saving: [drop_duplicates] and [sort_values] *)

Definition row_key (r : CatalogRecord) : string * Py.value :=
  (burst_id r, date r).

Definition key_eqb (a b : string * Py.value) : bool :=
  String.eqb (fst a) (fst b) && Py.value_eqb (snd a) (snd b).

(** Ascending order on [(burst_id, date)]: first column, then second.
    Python orders strings by code point, which on the byte strings of the
    model is the order of [String.compare]. *)
Definition key_leb (a b : string * Py.value) : bool :=
  String.ltb (fst a) (fst b) ||
  (String.eqb (fst a) (fst b) && Py.value_leb (snd a) (snd b)).

(** The three-way comparison behind [key_leb]. *)
Definition key_compare (a b : string * Py.value) : comparison :=
  match String.compare (fst a) (fst b) with
  | Eq => Py.value_compare (snd a) (snd b)
  | c => c
  end.

(** [df.drop_duplicates(['burst_id', 'date'])]: of the rows that agree on
    both columns, the first is kept.  [seen] holds the pairs met so far. *)
Fixpoint drop_duplicates_from (seen : list (string * Py.value))
         (df : DataFrame) : DataFrame :=
  match df with
  | [] => []
  | r :: rest =>
      if existsb (key_eqb (row_key r)) seen
      then drop_duplicates_from seen rest
      else r :: drop_duplicates_from (row_key r :: seen) rest
  end.

Definition drop_duplicates (df : DataFrame) : DataFrame :=
  drop_duplicates_from [] df.

Fixpoint insert_row (r : CatalogRecord) (df : DataFrame) : DataFrame :=
  match df with
  | [] => [r]
  | r' :: rest =>
      if key_leb (row_key r) (row_key r') then r :: r' :: rest
      else r' :: insert_row r rest
  end.

(** [df.sort_values(by=['burst_id', 'date'], ascending=[True, True])
      .reset_index(drop=True)]: a stable sort. *)
Fixpoint sort_values (df : DataFrame) : DataFrame :=
  match df with
  | [] => []
  | r :: rest => insert_row r (sort_values rest)
  end.

(** Ascending order of two rows on [(burst_id, date)]. *)
Definition row_le (r r' : CatalogRecord) : Prop :=
  key_leb (row_key r) (row_key r') = true.

(** The table the cell "Save validation table" writes. *)
Definition save_validation_table (df : DataFrame) : DataFrame :=
  sort_values (drop_duplicates df).

(** *** The builder: query, then save *)

Definition start (existing : DataFrame) : Kernel :=
  {| validation_bursts_df := existing; opened := [] |}.

(** From a loaded table and the rows of the burst file to the frame that
    the save cell leaves and [to_csv] then writes, with the session state
    and the listing requests sent.  A run that raises or times out writes
    nothing. *)
Definition buildCatalog (fuel : nat) (existing : DataFrame)
           (df_val : list (string * string))
  : Kernel * list ListRequest * Result DataFrame :=
  match query_and_build fuel df_val (start existing) [] with
  | (k, calls, Returned _) =>
      let table := save_validation_table (validation_bursts_df k) in
      ({| validation_bursts_df := table; opened := opened k |},
       calls, Returned table)
  | (k, calls, Raised e) => (k, calls, Raised e)
  | (k, calls, Timeout) => (k, calls, Timeout)
  end.

(** *** The table file *)

(** The cells of one row of the file. *)
Record TableRow : Type := {
  burst_id_cell : string;
  date_cell : string;
  cslc_url_cell : string;
  cslc_static_url_cell : option string;      (* [None]: an empty cell *)
  geometry_cell : Geometry
}.

(** What [to_csv] leaves on disk: the header of the four placeholder
    columns alone, when the frame never got a [geometry] column, or a
    header of all five columns and the rows. *)
Inductive TableFile : Type :=
| PlaceholderColumns
| Table (rows : list TableRow).

(** [pd.read_csv(validation_csv)] and the [GeoDataFrame] built from it.
    The [date] column comes back as integers when every cell of it is an
    integer literal, and as the cell texts otherwise. *)
Definition read_csv (rows : list TableRow) : DataFrame :=
  let int64 :=
    forallb (fun row => Py.is_integer_literal (date_cell row)) rows in
  map (fun row =>
         {| burst_id := burst_id_cell row;
            date := if int64 then Py.Int (Py.int (date_cell row))
                    else Py.Str (date_cell row);
            cslc_url := cslc_url_cell row;
            cslc_static_url := cslc_static_url_cell row;
            geometry := geometry_cell row |})
      rows.

(** A file whose dates are strings of one to eighteen decimal digits, as
    the date folders of the bucket are. *)
Definition digit_dates (rows : list TableRow) : Prop :=
  Forall (fun row =>
            Py.is_integer_literal (date_cell row) = true /\
            String.length (date_cell row) <= 18)
         rows.

(** The row [to_csv] writes for a record. *)
Definition to_csv_row (r : CatalogRecord) : TableRow :=
  {| burst_id_cell := burst_id r;
     date_cell := Py.str (date r);
     cslc_url_cell := cslc_url r;
     cslc_static_url_cell := cslc_static_url r;
     geometry_cell := geometry r |}.

(** [validation_bursts_df.to_csv(validation_csv, index=False)].  The frame
    has a [geometry] column once it was loaded from a file or got a row;
    the frame of placeholder columns has none. *)
Definition to_csv (geometry_column : bool) (df : DataFrame) : TableFile :=
  match df with
  | [] => if geometry_column then Table [] else PlaceholderColumns
  | _ => Table (map to_csv_row df)
  end.

(** *** The whole notebook, over the two files it reads *)

Record Disk : Type := {
  validation_csv : option TableFile;                 (* the table, if saved *)
  validation_bursts : option (list (string * string)) (* the burst file *)
}.

Record Run : Type := {
  kernel : Kernel;
  listed : list ListRequest;
  disk : Disk;
  outcome : Result unit
}.

(** The cell "Access or initiate validation table".  On a file without
    the [geometry] column, [df["geometry"]] raises. *)
Definition access_or_initiate (d : Disk) : PyException + DataFrame :=
  match validation_csv d with
  | Some (Table rows) => inr (read_csv rows)
  | Some PlaceholderColumns => inl KeyError
  | None => inr []
  end.

(** The cells in their order; a cell that raises ends the run, and the
    files are only written by the last cell. *)
Definition notebook (fuel : nat) (d : Disk) : Run :=
  (* access dataframe from file, if it exists; otherwise initialise it *)
  match access_or_initiate d with
  | inl e =>
      {| kernel := start []; listed := []; disk := d; outcome := Raised e |}
  | inr existing =>
      (* check existence of burst file *)
      match validation_bursts d with
      | None =>
          {| kernel := start existing; listed := []; disk := d;
             outcome := Raised BurstRecordNotFound |}
      | Some df_val =>
          match buildCatalog fuel existing df_val with
          | (k, calls, Returned table) =>
              let geometry_column :=
                match validation_csv d with
                | Some _ => true
                | None => false
                end in
              {| kernel := k; listed := calls;
                 disk := {| validation_csv :=
                              Some (to_csv geometry_column table);
                            validation_bursts := validation_bursts d |};
                 outcome := Returned tt |}
          | (k, calls, Raised e) =>
              {| kernel := k; listed := calls; disk := d;
                 outcome := Raised e |}
          | (k, calls, Timeout) =>
              {| kernel := k; listed := calls; disk := d;
                 outcome := Timeout |}
          end
      end
  end.

(** *** Vocabulary of the statements *)

(** The keys the response to one request contributes. *)
Definition response_keys (suffix : string) (kwargs : ListRequest)
  : list string :=
  match Contents (list_objects_v2 kwargs) with
  | Some valid_results => page_keys suffix valid_results
  | None => []
  end.

(** A finite listing: [kwargs :: rest] is a sequence of requests in which
    each one carries the continuation token of the response before it, and
    the response to the last one lacks its contents or its token. *)
Fixpoint listing_chain (kwargs : ListRequest) (rest : list ListRequest)
  : Prop :=
  match rest with
  | [] =>
      Contents (list_objects_v2 kwargs) = None \/
      NextContinuationToken (list_objects_v2 kwargs) = None
  | next :: rest' =>
      Contents (list_objects_v2 kwargs) <> None /\
      (exists tok,
          NextContinuationToken (list_objects_v2 kwargs) = Some tok /\
          next = with_token kwargs tok) /\
      listing_chain next rest'
  end.

(** The [(burst_id, key)] pairs the outer and inner loops visit, in order,
    when every listing ends within [fuel] requests. *)
Fixpoint listed_keys (fuel : nat) (df_val : list (string * string))
  : option (list (string * string)) :=
  match df_val with
  | [] => Some []
  | (b, cr_network) :: rest =>
      match get_matching_s3_keys fuel bucket
              (prefix ++ "/" ++ cr_network)%string suffix b version_num,
            listed_keys fuel rest with
      | Some keys, Some more => Some (map (pair b) keys ++ more)
      | _, _ => None
      end
  end.

(** The loop body on a [(burst_id, key)] pair. *)
Definition process_listed (job : string * string) : M unit :=
  process_key (fst job) (snd job).

(** Every one of these remote reads decoded a polygon. *)
Definition reads_succeeded (urls : list string) : Prop :=
  forall url, In url urls ->
    exists g, read_bounding_polygon url = inr g.

(** Where the geometry of each row of the working table comes from: the row
    was loaded, or it repeats the geometry of a loaded row of its burst, or
    its geometry was decoded by a remote read of this session. *)
Definition geometry_sourced (existing : DataFrame) (k : Kernel) : Prop :=
  forall r, In r (validation_bursts_df k) ->
    In r existing \/
    (exists r0, In r0 existing /\ burst_id r0 = burst_id r /\
                geometry r0 = geometry r) \/
    (exists url, In url (opened k) /\
                 read_bounding_polygon url = inr (geometry r)).

(** A property of the session after a piece of notebook code: [F e] if it
    raised [e], and [I] otherwise. *)
Definition carried (I : Kernel -> Prop) (F : PyException -> Kernel -> Prop)
           (k : Kernel) (res : Result unit) : Prop :=
  match res with
  | Raised e => F e k
  | _ => I k
  end.

(** What a finished run leaves behind for the next one.  [pairs] are the
    [(burst_id, date)] pairs of its working table and [urls] the URLs known
    when the remaining [jobs] are visited: each job either has its URL among
    them (or among those of the jobs before it), or would write a row on one
    of the pairs. *)
Fixpoint covered (pairs : list (string * Py.value)) (urls : list string)
         (jobs : list (string * string)) : Prop :=
  match jobs with
  | [] => True
  | (b, key) :: rest =>
      let url := (s3_path ++ "/" ++ key)%string in
      (In url urls \/
       exists d, date_of_key key = Some d /\ In (b, Py.Str d) pairs) /\
      covered pairs (url :: urls) rest
  end.

(** The keys listed for one row of the burst file. *)
Definition listing_of (fuel : nat) (p : string * string)
  : option (list string) :=
  get_matching_s3_keys fuel bucket
    (prefix ++ "/" ++ snd p)%string suffix (fst p) version_num.

(** Rows written for other bursts: none is of burst [b], none is on the URL
    of one of [keys]. *)
Definition foreign_rows (b : string) (keys : list string) (X : DataFrame)
  : Prop :=
  forall r, In r X ->
    burst_id r <> b /\
    forall key, In key keys -> cslc_url r <> (s3_path ++ "/" ++ key)%string.

(** Rows written for burst [b] from its listing [keys]; when the loaded
    table is empty, each carries the geometry that every granule of the
    listing decodes to. *)
Definition own_rows (existing : DataFrame) (b : string) (keys : list string)
           (R : DataFrame) : Prop :=
  forall r, In r R ->
    burst_id r = b /\
    (exists key, In key keys /\ cslc_url r = (s3_path ++ "/" ++ key)%string) /\
    (existing = [] ->
     forall key, In key keys ->
       read_bounding_polygon (s3_path ++ "/" ++ key)%string
       = inr (geometry r)).

(** The rows a burst adds when it alone is processed on the loaded table. *)
Definition contribution (fuel : nat) (existing : DataFrame)
           (p : string * string) : option DataFrame :=
  match listing_of fuel p with
  | None => None
  | Some keys =>
      match for_each keys (process_key (fst p)) (start existing) with
      | (k, Returned _) =>
          Some (skipn (List.length existing) (validation_bursts_df k))
      | _ => None
      end
  end.

(** All of the options, if none is missing. *)
Fixpoint all_some {A : Type} (l : list (option A)) : option (list A) :=
  match l with
  | [] => Some []
  | None :: _ => None
  | Some a :: l' => option_map (cons a) (all_some l')
  end.

(** The table a run returned, if it returned one. *)
Definition table_of (r : Kernel * list ListRequest * Result DataFrame)
  : option DataFrame :=
  match r with
  | (_, _, Returned table) => Some table
  | _ => None
  end.

End Notebook.


Arguments burst_id {Geometry} c.
Arguments date {Geometry} c.
Arguments cslc_url {Geometry} c.
Arguments cslc_static_url {Geometry} c.
Arguments geometry {Geometry} c.
Arguments validation_bursts_df {Geometry} k.
Arguments opened {Geometry} k.
Arguments ret {Geometry A} a k.
Arguments raise {Geometry A} e k.
Arguments bind {Geometry A B} m f k.
Arguments for_each {Geometry X} l body.
Arguments fetch_geometry {Geometry} read_bounding_polygon url k.
Arguments append_record {Geometry} file_dict k.
Arguments geom_check {Geometry} df b.
Arguments idx_geo {Geometry} df b.
Arguments loc_geometry {Geometry} df idx.
Arguments url_not_in {Geometry} url df.
Arguments file_dict {Geometry} b d url g.
Arguments reads_succeeded {Geometry} read_bounding_polygon urls.
Arguments geometry_sourced {Geometry} read_bounding_polygon existing k.
Arguments carried {Geometry} I F k res.
Arguments geometry_for {Geometry} read_bounding_polygon df b url k.
Arguments foreign_rows {Geometry} b keys X.
Arguments own_rows {Geometry} read_bounding_polygon existing b keys R.
Arguments contribution {Geometry} list_objects_v2 read_bounding_polygon
  fuel existing p.
Arguments process_key {Geometry} read_bounding_polygon b key k.
Arguments process_listed {Geometry} read_bounding_polygon job.
Arguments for_key_in_get_matching_s3_keys {Geometry} list_objects_v2
  fuel kwargs suffix body k calls.
Arguments query_and_build {Geometry} list_objects_v2 read_bounding_polygon
  fuel df_val k calls.
Arguments row_key {Geometry} r.
Arguments row_le {Geometry} r r'.
Arguments drop_duplicates_from {Geometry} seen df.
Arguments drop_duplicates {Geometry} df.
Arguments insert_row {Geometry} r df.
Arguments sort_values {Geometry} df.
Arguments save_validation_table {Geometry} df.
Arguments start {Geometry} existing.
Arguments buildCatalog {Geometry} list_objects_v2 read_bounding_polygon
  fuel existing df_val.
Arguments table_of {Geometry} r.
Arguments burst_id_cell {Geometry} t.
Arguments date_cell {Geometry} t.
Arguments cslc_url_cell {Geometry} t.
Arguments cslc_static_url_cell {Geometry} t.
Arguments geometry_cell {Geometry} t.
Arguments PlaceholderColumns {Geometry}.
Arguments Table {Geometry} rows.
Arguments read_csv {Geometry} rows.
Arguments digit_dates {Geometry} rows.
Arguments to_csv_row {Geometry} r.
Arguments to_csv {Geometry} geometry_column df.
Arguments access_or_initiate {Geometry} d.
Arguments validation_csv {Geometry} d.
Arguments validation_bursts {Geometry} d.
Arguments kernel {Geometry} r.
Arguments listed {Geometry} r.
Arguments disk {Geometry} r.
Arguments outcome {Geometry} r.
Arguments notebook {Geometry} list_objects_v2 read_bounding_polygon fuel d.

(** ** Small remote stores to run the notebook on *)

Module Fixture.

(** The continuation token that asks for page [n]. *)
Fixpoint token (n : nat) : string :=
  match n with
  | O => EmptyString
  | S n' => String "+" (token n')
  end.

Definition page_number (tok : option string) : nat :=
  match tok with
  | None => 0
  | Some t => String.length t
  end.

(** A store given as a table from request prefix to its pages.  A prefix
    without an entry gets a response without contents. *)
Definition paged_store (tbl : list (string * list (list S3Object)))
           (kwargs : ListRequest) : ListResponse :=
  match find (fun e => String.eqb (fst e) (Prefix kwargs)) tbl with
  | None => {| Contents := None; NextContinuationToken := None |}
  | Some (_, pages) =>
      let n := page_number (ContinuationToken kwargs) in
      match nth_error pages n with
      | None => {| Contents := None; NextContinuationToken := None |}
      | Some objs =>
          {| Contents := Some objs;
             NextContinuationToken :=
               if (S n <? List.length pages)%nat then Some (token (S n))
               else None |}
      end
  end.

(** The key of a granule and the prefix its burst is listed under. *)
Definition granule (cr_network b d file : string) : string :=
  (prefix ++ "/" ++ cr_network ++ "/" ++ b ++ "/" ++ d ++ "/" ++ file)%string.

Definition listing_prefix (cr_network b : string) : string :=
  (prefix ++ "/" ++ cr_network ++ "/" ++ b ++ "/20")%string.

Definition url_of (key : string) : string := (s3_path ++ "/" ++ key)%string.

(** A reader that decodes a polygon naming the object it came from, and one
    that fails on the listed URLs. *)
Definition read_ok (url : string) : FetchError + string :=
  inr ("POLYGON of " ++ url)%string.

Definition read_failing (bad : list string) (url : string)
  : FetchError + string :=
  if existsb (String.eqb url) bad then inl IOFailure else read_ok url.

Definition read_const (wkt : string) (url : string) : FetchError + string :=
  inr wkt.

(** Scenario A: one burst of network Ecuador with two acquisitions, the
    later one modified first. *)
Definition b31 : string := "t142_303931_iw3".
Definition b32 : string := "t142_303932_iw3".

Definition key_31_1015 : string :=
  granule "Ecuador" b31 "20141015" "t142_303931_iw3_20141015.h5".
Definition key_31_1108 : string :=
  granule "Ecuador" b31 "20141108" "t142_303931_iw3_20141108.h5".
Definition key_32_1015 : string :=
  granule "Ecuador" b32 "20141015" "t142_303932_iw3_20141015.h5".

Definition store_A : ListRequest -> ListResponse :=
  paged_store
    [ (listing_prefix "Ecuador" b31,
       [ [ {| Key := key_31_1108; LastModified := 1700000200 |};
           {| Key := key_31_1015; LastModified := 1700000100 |} ] ]) ].

(** Scenario D: two bursts, one acquisition each, on the same date. *)
Definition store_D : ListRequest -> ListResponse :=
  paged_store
    [ (listing_prefix "Ecuador" b31,
       [ [ {| Key := key_31_1015; LastModified := 1700000100 |} ] ]);
      (listing_prefix "Ecuador" b32,
       [ [ {| Key := key_32_1015; LastModified := 1700000100 |} ] ]) ].

(** One burst listed under two networks, with an acquisition of the same
    date under each. *)
Definition key_31_1015_ok : string :=
  granule "Oklahoma" b31 "20141015" "t142_303931_iw3_20141015.h5".

Definition store_two_networks : ListRequest -> ListResponse :=
  paged_store
    [ (listing_prefix "Ecuador" b31,
       [ [ {| Key := key_31_1015; LastModified := 1700000100 |} ] ]);
      (listing_prefix "Oklahoma" b31,
       [ [ {| Key := key_31_1015_ok; LastModified := 1700000100 |} ] ]) ].

(** A listing of three pages; the second holds a key with another suffix,
    the third is empty. *)
Definition key_31_xml : string :=
  granule "Ecuador" b31 "20141108" "t142_303931_iw3_20141108.iso.xml".

Definition store_paged : ListRequest -> ListResponse :=
  paged_store
    [ (listing_prefix "Ecuador" b31,
       [ [ {| Key := key_31_1015; LastModified := 1700000100 |} ];
         [ {| Key := key_31_xml; LastModified := 1700000150 |};
           {| Key := key_31_1108; LastModified := 1700000200 |} ];
         [] ]) ].

(** A second product in the folder of an acquisition already recorded. *)
Definition key_31_1015_v2 : string :=
  granule "Ecuador" b31 "20141015" "t142_303931_iw3_20141015_v2.h5".

Definition store_reprocessed : ListRequest -> ListResponse :=
  paged_store
    [ (listing_prefix "Ecuador" b31,
       [ [ {| Key := key_31_1015; LastModified := 1700000100 |};
           {| Key := key_31_1015_v2; LastModified := 1700000900 |} ] ]);
      (listing_prefix "Ecuador" b32,
       [ [ {| Key := key_32_1015; LastModified := 1700000100 |} ] ]) ].

(** A row as the loop writes it, one as it is loaded from a file whose
    dates are all digits, and the row of the file. *)
Definition row (b d key wkt : string) : CatalogRecord string :=
  {| burst_id := b; date := Py.Str d; cslc_url := url_of key;
     cslc_static_url := None; geometry := wkt |}.

Definition loaded_row (b : string) (d : Z) (key wkt : string)
  : CatalogRecord string :=
  {| burst_id := b; date := Py.Int d; cslc_url := url_of key;
     cslc_static_url := None; geometry := wkt |}.

Definition file_row (b d key wkt : string) : TableRow string :=
  {| burst_id_cell := b; date_cell := d; cslc_url_cell := url_of key;
     cslc_static_url_cell := None; geometry_cell := wkt |}.

(** The first three cells of the rows of the table file. *)
Definition saved_rows (d : Disk string) : list (string * string * string) :=
  match validation_csv d with
  | Some (Table rows) =>
      map (fun row => (burst_id_cell row, date_cell row, cslc_url_cell row))
          rows
  | _ => []
  end.

End Fixture.

(** ** Vocabulary of the further statements *)

Section Sessions.

Variable Geometry : Type.

(** A row as the loop writes it for one of [bursts]: no static layer, and
    URL and date both derived from one key that ends with the suffix. *)
Definition written_row (bursts : list string) (r : CatalogRecord Geometry)
  : Prop :=
  In (burst_id r) bursts /\
  cslc_static_url r = None /\
  exists key,
    Py.endswith key suffix = true /\
    cslc_url r = (s3_path ++ "/" ++ key)%string /\
    option_map Py.Str (date_of_key key) = Some (date r).

(** A session that has so far gone well on the loaded table [existing]:
    the working table is the loaded one followed by written rows, on URLs
    that are new and pairwise different, and every granule opened was
    opened once and has its row. *)
Definition well_extended (existing : DataFrame Geometry)
           (bursts : list string) (k : Kernel Geometry) : Prop :=
  exists extra,
    validation_bursts_df k = existing ++ extra /\
    (forall r, In r extra -> written_row bursts r) /\
    NoDup (map cslc_url extra) /\
    (forall u, In u (map cslc_url extra) ->
               ~ In u (map cslc_url existing)) /\
    NoDup (opened k) /\
    (forall u, In u (opened k) -> In u (map cslc_url extra)).

(** The same, after a remote read that failed: the read is the last one
    logged, on a URL that has no row. *)
Definition well_extended_but_last (existing : DataFrame Geometry)
           (bursts : list string) (k : Kernel Geometry) : Prop :=
  exists o u,
    opened k = o ++ [u] /\
    ~ In u (map cslc_url (validation_bursts_df k)) /\
    well_extended existing bursts
      {| validation_bursts_df := validation_bursts_df k; opened := o |}.

(** A session that reused loaded geometries only: nothing was opened, and
    every row after the loaded ones carries the geometry of the first loaded
    row of its burst. *)
Definition reused_only (existing : DataFrame Geometry)
           (k : Kernel Geometry) : Prop :=
  opened k = [] /\
  exists extra,
    validation_bursts_df k = existing ++ extra /\
    forall r, In r extra ->
      exists r1,
        find (fun x => String.eqb (burst_id x) (burst_id r)) existing
        = Some r1 /\
        geometry r = geometry r1.

End Sessions.

Arguments written_row {Geometry} bursts r.
Arguments well_extended {Geometry} existing bursts k.
Arguments well_extended_but_last {Geometry} existing bursts k.
Arguments reused_only {Geometry} existing k.

(** ** The notebook [util_notebooks/get_granule_ids.ipynb]

    The cells that derive the search parameters from the name of the output
    file, collect the scene names of the search results and write them out.
    The search itself ([asf.geo_search]) and the login are outside the
    model: the results are a list of products.  The cells run top to
    bottom.  File and site names are taken to consist of characters below
    code point 256, one [ascii] each, so that indexing and slicing count
    characters as Python does. *)

Module GranuleIds.

(** List of CalVal sites *)
Definition ROSAMOND : string :=
  "POLYGON((-118.1033 34.8002,-118.0692 34.8002,-118.0692 34.8208,-118.1033 34.8208,-118.1033 34.8002))".
Definition SAF : string := "POINT(-120.879 36.14)".
Definition CENTRALVALLEY : string :=
  "POLYGON((-119.4272 36.1677,-119.2288 36.1677,-119.2288 36.2348,-119.4272 36.2348,-119.4272 36.1677))".
Definition LA : string :=
  "POLYGON((-118.3423 33.5592,-117.778 33.5592,-117.778 33.8802,-118.3423 33.8802,-118.3423 33.5592))".
Definition RIDGECREST : string :=
  "POLYGON((-117.6858 35.6012,-117.2061 35.6012,-117.2061 35.7909,-117.6858 35.7909,-117.6858 35.6012))".
Definition BIGISLAND : string :=
  "POLYGON((-155.6635 19.3756,-155.4825 19.3756,-155.4825 19.5104,-155.6635 19.5104,-155.6635 19.3756))".

(** What a global name is bound to: a string, or anything else (a module,
    a function, a list, ...). *)
Inductive PyObject : Type :=
| PyStr (s : string)
| PyOther.

(** [asf.ASCENDING] and [asf.DESCENDING] *)
Inductive Direction : Type :=
| ASCENDING
| DESCENDING.

Inductive Exception : Type :=
| IndexError     (* a subscript out of range *)
| KeyError       (* a name that [vars()] does not bind *)
| ValueError.    (* [int] on text that is not an integer literal *)

(** The values bound by the cell "Enter search and output parameters". *)
Record SearchParameters : Type := {
  aoi : PyObject;
  startDate : string;
  endDate : string;
  relativeOrbit : Z;
  flightDirection : Direction
}.

(** One search result; [sceneName] is [f.properties['sceneName']]. *)
Record Product : Type := {
  sceneName : string
}.

Section Cells.

(** The global names bound when the cell runs, other than those the
    notebook itself has bound by then (IPython's own, and whatever earlier
    sessions of the kernel left). *)
Variable kernel_globals : string -> option PyObject.

(** Python's [int] on a string; [None] stands for [ValueError]. *)
Variable int : string -> option Z.

(** [vars()] where [aoi] is looked up: the imports, the six sites, and the
    two names the cell has assigned so far shadow the kernel's. *)
Definition vars (save_dir save_fn name : string) : option PyObject :=
  if String.eqb name "save_fn" then Some (PyStr save_fn)
  else if String.eqb name "save_dir" then Some (PyStr save_dir)
  else if String.eqb name "BIGISLAND" then Some (PyStr BIGISLAND)
  else if String.eqb name "RIDGECREST" then Some (PyStr RIDGECREST)
  else if String.eqb name "LA" then Some (PyStr LA)
  else if String.eqb name "CENTRALVALLEY" then Some (PyStr CENTRALVALLEY)
  else if String.eqb name "SAF" then Some (PyStr SAF)
  else if String.eqb name "ROSAMOND" then Some (PyStr ROSAMOND)
  else if String.eqb name "getpass" then Some PyOther
  else if String.eqb name "date" then Some PyOther
  else if String.eqb name "asf" then Some PyOther
  else kernel_globals name.

(** [save_fn.split('.')[0].split('_')[1]] *)
Definition site_name (save_fn : string) : option string :=
  match Py.split "." save_fn with
  | stem :: _ => nth_error (Py.split "_" stem) 1
  | [] => None
  end.

(** The cell "Enter search and output parameters", statement by
    statement. *)
Definition enter_parameters (save_dir save_fn startDate endDate : string)
  : Exception + SearchParameters :=
  (* aoi = vars()[save_fn.split('.')[0].split('_')[1]] *)
  match site_name save_fn with
  | None => inl IndexError
  | Some name =>
      match vars save_dir save_fn name with
      | None => inl KeyError
      | Some aoi =>
          (* relativeOrbit = int(save_fn[1:4]) *)
          match int (substring 1 3 save_fn) with
          | None => inl ValueError
          | Some relativeOrbit =>
              (* flightDirection = ... if save_fn[0] == 'A' else ... *)
              match String.get 0 save_fn with
              | None => inl IndexError
              | Some c =>
                  inr {| aoi := aoi;
                         startDate := startDate;
                         endDate := endDate;
                         relativeOrbit := relativeOrbit;
                         flightDirection :=
                           if Ascii.eqb c "A" then ASCENDING
                           else DESCENDING |}
              end
          end
      end
  end.

End Cells.

(** The cell "Print results": [granule_ids] after the loop. *)
Definition granule_ids (results : list Product) : list string :=
  map (fun f => (sceneName f ++ String "010" EmptyString)%string) results.

(** What [f.writelines(granule_ids)] puts in the file. *)
Definition written (granule_ids : list string) : string :=
  String.concat EmptyString granule_ids.

(** The path the list is saved to. *)
Definition save_path (save_dir save_fn : string) : string :=
  (save_dir ++ "/" ++ save_fn)%string.

End GranuleIds.

(** ** More stores and readers to run the notebooks on *)

Module Fixture2.

(** A store that always has one more page. *)
Definition store_endless (kwargs : ListRequest) : ListResponse :=
  {| Contents := Some [ {| Key := Fixture.key_31_1015;
                           LastModified := 1700000100 |} ];
     NextContinuationToken := Some "again" |}.

(** Decimal digits only. *)
Fixpoint digits_value (acc : Z) (s : string) : option Z :=
  match s with
  | EmptyString => Some acc
  | String c s' =>
      let n := nat_of_ascii c in
      if ((48 <=? n) && (n <=? 57))%nat
      then digits_value (10 * acc + Z.of_nat (n - 48)) s'
      else None
  end.

Definition int_of_digits (s : string) : option Z :=
  match s with
  | EmptyString => None
  | _ => digits_value 0 s
  end.

Definition no_globals (name : string) : option GranuleIds.PyObject := None.

End Fixture2.

(** * Properties *)

Opaque s3_path.

(** ** The order on strings and on [(burst_id, date)] pairs *)

Lemma string_compare_as_OT (a b : string) :
  String.compare a b = OrdersEx.String_as_OT.compare a b.
Proof.
  revert b; induction a as [|c a IH]; intros [|c' b]; simpl; auto.
Qed.

Lemma string_compare_refl (a : string) : String.compare a a = Eq.
Proof.
  pose proof (String.compare_antisym a a) as H.
  destruct (String.compare a a); simpl in H; congruence.
Qed.

Lemma string_compare_lt_trans (a b c : string) :
  String.compare a b = Lt -> String.compare b c = Lt ->
  String.compare a c = Lt.
Proof.
  rewrite !string_compare_as_OT.
  apply (@RelationClasses.StrictOrder_Transitive _ _
           OrdersEx.String_as_OT.lt_strorder).
Qed.

Lemma string_compare_gt_lt (a b : string) :
  String.compare a b = Gt <-> String.compare b a = Lt.
Proof.
  rewrite (String.compare_antisym a b).
  destruct (String.compare b a); simpl; split; congruence.
Qed.

Lemma string_eqb_compare (a b : string) :
  String.eqb a b = match String.compare a b with Eq => true | _ => false end.
Proof.
  destruct (String.eqb_spec a b) as [->|Hne].
  - now rewrite string_compare_refl.
  - destruct (String.compare a b) eqn:E; auto.
    apply String.compare_eq_iff in E. contradiction.
Qed.

(** Integers and strings in one column: one order, in which an integer
    and a string are never equal. *)
Lemma value_compare_antisym (a b : Py.value) :
  Py.value_compare a b = CompOpp (Py.value_compare b a).
Proof.
  destruct a as [m|s], b as [n|t]; simpl; auto.
  - apply Z.compare_antisym.
  - apply String.compare_antisym.
Qed.

Lemma value_compare_eq (a b : Py.value) :
  Py.value_compare a b = Eq -> a = b.
Proof.
  destruct a as [m|s], b as [n|t]; simpl; try discriminate; intros E.
  - apply Z.compare_eq in E. congruence.
  - apply String.compare_eq_iff in E. congruence.
Qed.

Lemma value_compare_refl (a : Py.value) : Py.value_compare a a = Eq.
Proof.
  destruct a as [m|s]; simpl.
  - apply Z.compare_refl.
  - apply string_compare_refl.
Qed.

Lemma value_compare_lt_trans (a b c : Py.value) :
  Py.value_compare a b = Lt -> Py.value_compare b c = Lt ->
  Py.value_compare a c = Lt.
Proof.
  destruct a as [m|s], b as [n|t], c as [o|u]; simpl;
    try discriminate; auto.
  - rewrite !Z.compare_lt_iff. lia.
  - apply string_compare_lt_trans.
Qed.

Lemma value_eqb_eq (a b : Py.value) : Py.value_eqb a b = true <-> a = b.
Proof.
  destruct a as [m|s], b as [n|t]; simpl.
  - rewrite Z.eqb_eq. split; congruence.
  - split; discriminate.
  - split; discriminate.
  - rewrite String.eqb_eq. split; congruence.
Qed.

Lemma key_leb_compare (a b : string * Py.value) :
  key_leb a b = match key_compare a b with Gt => false | _ => true end.
Proof.
  unfold key_leb, key_compare, String.ltb, Py.value_leb.
  rewrite string_eqb_compare.
  destruct (String.compare (fst a) (fst b)); simpl; auto.
Qed.

Lemma key_compare_antisym (a b : string * Py.value) :
  key_compare a b = CompOpp (key_compare b a).
Proof.
  unfold key_compare.
  rewrite (String.compare_antisym (fst a) (fst b)).
  destruct (String.compare (fst b) (fst a)); simpl; auto.
  apply value_compare_antisym.
Qed.

Lemma key_compare_eq (a b : string * Py.value) :
  key_compare a b = Eq -> a = b.
Proof.
  unfold key_compare. destruct a as [a1 a2], b as [b1 b2]; simpl.
  destruct (String.compare a1 b1) eqn:E1; try discriminate.
  intros E2. apply String.compare_eq_iff in E1.
  apply value_compare_eq in E2. congruence.
Qed.

Lemma key_compare_refl (a : string * Py.value) : key_compare a a = Eq.
Proof.
  unfold key_compare. now rewrite string_compare_refl, value_compare_refl.
Qed.

Lemma key_compare_lt_trans (a b c : string * Py.value) :
  key_compare a b = Lt -> key_compare b c = Lt -> key_compare a c = Lt.
Proof.
  unfold key_compare. destruct a as [a1 a2], b as [b1 b2], c as [c1 c2]; simpl.
  destruct (String.compare a1 b1) eqn:E1; try discriminate;
    destruct (String.compare b1 c1) eqn:E2; try discriminate; intros H1 H2.
  - apply String.compare_eq_iff in E1, E2. subst.
    rewrite string_compare_refl. eauto using value_compare_lt_trans.
  - apply String.compare_eq_iff in E1. subst. now rewrite E2.
  - apply String.compare_eq_iff in E2. subst. now rewrite E1.
  - now rewrite (string_compare_lt_trans _ _ _ E1 E2).
Qed.

Lemma key_leb_refl (a : string * Py.value) : key_leb a a = true.
Proof. now rewrite key_leb_compare, key_compare_refl. Qed.

Lemma key_leb_total (a b : string * Py.value) :
  key_leb a b = false -> key_leb b a = true.
Proof.
  rewrite !key_leb_compare, (key_compare_antisym b a).
  destruct (key_compare a b); simpl; congruence.
Qed.

Lemma key_leb_antisym (a b : string * Py.value) :
  key_leb a b = true -> key_leb b a = true -> a = b.
Proof.
  rewrite !key_leb_compare, (key_compare_antisym b a).
  destruct (key_compare a b) eqn:E; simpl; try congruence.
  intros _ _. now apply key_compare_eq.
Qed.

Lemma key_leb_trans (a b c : string * Py.value) :
  key_leb a b = true -> key_leb b c = true -> key_leb a c = true.
Proof.
  rewrite !key_leb_compare.
  destruct (key_compare a b) eqn:E1; try discriminate;
    destruct (key_compare b c) eqn:E2; try discriminate; intros _ _.
  - apply key_compare_eq in E1, E2. subst. now rewrite key_compare_refl.
  - apply key_compare_eq in E1. subst. now rewrite E2.
  - apply key_compare_eq in E2. subst. now rewrite E1.
  - now rewrite (key_compare_lt_trans _ _ _ E1 E2).
Qed.

Lemma key_eqb_eq (a b : string * Py.value) : key_eqb a b = true <-> a = b.
Proof.
  unfold key_eqb. destruct a, b; simpl.
  rewrite andb_true_iff, String.eqb_eq, value_eqb_eq. split.
  - intros [-> ->]; reflexivity.
  - intros H; inversion H; auto.
Qed.

Lemma seen_In (a : string * Py.value) (seen : list (string * Py.value)) :
  existsb (key_eqb a) seen = true <-> In a seen.
Proof.
  rewrite existsb_exists. split.
  - intros [x [Hin Heq]]. apply key_eqb_eq in Heq. now subst.
  - intros Hin. exists a. split; auto. now apply key_eqb_eq.
Qed.

Lemma seen_not_In (a : string * Py.value) (seen : list (string * Py.value)) :
  existsb (key_eqb a) seen = false <-> ~ In a seen.
Proof.
  rewrite <- seen_In. destruct (existsb (key_eqb a) seen); split; congruence.
Qed.

(** ** [drop_duplicates] and [sort_values] *)

Section TableFacts.

Variable Geometry : Type.

Local Abbreviation Row := (CatalogRecord Geometry).
Local Abbreviation Frame := (DataFrame Geometry).

Implicit Types (df : Frame) (r : Row) (seen : list (string * Py.value)).

Lemma same_key_same_row df r r' :
  NoDup (map row_key df) -> In r df -> In r' df ->
  row_key r = row_key r' -> r = r'.
Proof.
  induction df as [|x df IH]; simpl; [tauto|].
  intros Hnd Hr Hr' Hk. inversion Hnd as [|? ? Hx Hnd']; subst.
  destruct Hr as [->|Hr], Hr' as [->|Hr']; auto.
  - exfalso. apply Hx. rewrite Hk. now apply in_map.
  - exfalso. apply Hx. rewrite <- Hk. now apply in_map.
Qed.

(** *** Sorting *)

Lemma insert_row_perm r df : Permutation (insert_row r df) (r :: df).
Proof.
  induction df as [|x df IH]; simpl; auto.
  destruct (key_leb (row_key r) (row_key x)); auto.
  rewrite IH. apply perm_swap.
Qed.

Lemma sort_values_perm df : Permutation (sort_values df) df.
Proof.
  induction df as [|x df IH]; simpl; auto.
  rewrite insert_row_perm. now constructor.
Qed.

Lemma sort_values_In r df : In r (sort_values df) <-> In r df.
Proof.
  split; apply Permutation_in;
    [ apply sort_values_perm | symmetry; apply sort_values_perm ].
Qed.

Lemma insert_row_sorted r df :
  Sorted row_le df -> Sorted row_le (insert_row r df).
Proof.
  induction df as [|x df IH]; simpl; intros Hs.
  - repeat constructor.
  - destruct (key_leb (row_key r) (row_key x)) eqn:E.
    + constructor; auto.
    + inversion Hs as [|? ? Hs' Hhd]; subst.
      constructor; auto.
      apply key_leb_total in E.
      destruct df as [|y df]; simpl.
      * constructor; exact E.
      * destruct (key_leb (row_key r) (row_key y)); constructor; auto.
        now inversion Hhd.
Qed.

Lemma sort_values_sorted df : Sorted row_le (sort_values df).
Proof.
  induction df as [|x df IH]; simpl.
  - constructor.
  - now apply insert_row_sorted.
Qed.

Lemma sort_values_fixed df : Sorted row_le df -> sort_values df = df.
Proof.
  induction df as [|x df IH]; simpl; auto.
  intros Hs. inversion Hs as [|? ? Hs' Hhd]; subst.
  rewrite (IH Hs'). destruct Hhd as [|y df' Hxy]; simpl; auto.
  unfold row_le in Hxy. now rewrite Hxy.
Qed.

Lemma row_le_trans : RelationClasses.Transitive (@row_le Geometry).
Proof. intros a b c. unfold row_le. apply key_leb_trans. Qed.

Lemma sorted_perm_unique df df' :
  Sorted row_le df -> Sorted row_le df' -> Permutation df df' ->
  NoDup (map row_key df) -> df = df'.
Proof.
  intros Hs Hs'.
  apply (Sorted_StronglySorted row_le_trans) in Hs.
  apply (Sorted_StronglySorted row_le_trans) in Hs'.
  revert df' Hs'. induction Hs as [|x l Hsl IH Hx]; intros df' Hs' Hp Hnd.
  - apply Permutation_nil in Hp. now subst.
  - destruct Hs' as [|y l' Hsl' Hy].
    + symmetry in Hp. now apply Permutation_nil in Hp.
    + assert (x = y) as ->.
      { assert (In x (y :: l')) as Hin
            by (eapply Permutation_in; [exact Hp | now left]).
        assert (In y (x :: l)) as Hin'
            by (eapply Permutation_in; [symmetry; exact Hp | now left]).
        destruct Hin as [->|Hin]; auto.
        destruct Hin' as [->|Hin']; auto.
        rewrite Forall_forall in Hx, Hy.
        apply (same_key_same_row (x :: l)); simpl; auto.
        apply key_leb_antisym; [apply (Hx _ Hin') | apply (Hy _ Hin)]. }
      f_equal. apply IH; auto.
      * now apply Permutation_cons_inv in Hp.
      * simpl in Hnd. now inversion Hnd.
Qed.

Lemma sort_values_of_perm df df' :
  Permutation df df' -> NoDup (map row_key df) ->
  sort_values df = sort_values df'.
Proof.
  intros Hp Hnd. apply sorted_perm_unique; try apply sort_values_sorted.
  - rewrite !sort_values_perm. exact Hp.
  - eapply Permutation_NoDup; [|exact Hnd].
    apply Permutation_map. symmetry. apply sort_values_perm.
Qed.

(** *** Removing duplicates *)

Lemma drop_duplicates_from_In seen df r :
  In r (drop_duplicates_from seen df) -> In r df /\ ~ In (row_key r) seen.
Proof.
  revert seen. induction df as [|x df IH]; simpl; intros seen; [tauto|].
  destruct (existsb (key_eqb (row_key x)) seen) eqn:E.
  - intros H. apply IH in H. tauto.
  - intros [->|H].
    + split; auto. now apply seen_not_In.
    + apply IH in H. simpl in H. tauto.
Qed.

Lemma drop_duplicates_from_keys seen df key :
  In key (map row_key df) -> ~ In key seen ->
  In key (map row_key (drop_duplicates_from seen df)).
Proof.
  revert seen. induction df as [|x df IH]; simpl; intros seen; [tauto|].
  intros Hin Hns.
  destruct (existsb (key_eqb (row_key x)) seen) eqn:E.
  - apply IH; auto. destruct Hin as [<-|Hin]; auto.
    apply seen_In in E. contradiction.
  - simpl. destruct (key_eqb (row_key x) key) eqn:Ek.
    + apply key_eqb_eq in Ek. now left.
    + right. destruct Hin as [Heq|Hin].
      * rewrite Heq, (proj2 (key_eqb_eq key key) eq_refl) in Ek. discriminate.
      * apply IH; auto. simpl. intros [Heq|Hs]; auto.
        rewrite Heq, (proj2 (key_eqb_eq key key) eq_refl) in Ek. discriminate.
Qed.

Lemma drop_duplicates_from_NoDup seen df :
  NoDup (map row_key (drop_duplicates_from seen df)).
Proof.
  revert seen. induction df as [|x df IH]; simpl; intros seen.
  - constructor.
  - destruct (existsb (key_eqb (row_key x)) seen); auto.
    simpl. constructor; auto.
    rewrite in_map_iff. intros [r [Hk Hin]].
    apply drop_duplicates_from_In in Hin. simpl in Hin.
    destruct Hin as [_ Hin]. apply Hin. now left.
Qed.

Lemma drop_duplicates_from_ext_on seen seen' df :
  (forall key, In key (map row_key df) -> (In key seen <-> In key seen')) ->
  drop_duplicates_from seen df = drop_duplicates_from seen' df.
Proof.
  revert seen seen'.
  induction df as [|x df IH]; simpl; intros seen seen' H; auto.
  assert (existsb (key_eqb (row_key x)) seen
          = existsb (key_eqb (row_key x)) seen') as ->.
  { destruct (existsb (key_eqb (row_key x)) seen') eqn:E.
    - apply seen_In. apply H; auto. now apply seen_In.
    - apply seen_not_In. rewrite H by auto. now apply seen_not_In. }
  destruct (existsb (key_eqb (row_key x)) seen'); auto.
  f_equal. apply IH. intros key Hkey. simpl. now rewrite H by auto.
Qed.

Lemma drop_duplicates_from_ext seen seen' df :
  (forall key, In key seen <-> In key seen') ->
  drop_duplicates_from seen df = drop_duplicates_from seen' df.
Proof. intros H. apply drop_duplicates_from_ext_on. auto. Qed.

Lemma drop_duplicates_from_app seen df df' :
  drop_duplicates_from seen (df ++ df')
  = drop_duplicates_from seen df
    ++ drop_duplicates_from (map row_key df ++ seen) df'.
Proof.
  revert seen. induction df as [|x df IH]; simpl; intros seen; auto.
  destruct (existsb (key_eqb (row_key x)) seen) eqn:E.
  - rewrite IH. f_equal. apply drop_duplicates_from_ext.
    intros key. simpl. rewrite !in_app_iff. apply seen_In in E.
    split; [tauto|]. intros [<-|H]; [now right | exact H].
  - simpl. f_equal. rewrite IH. f_equal. apply drop_duplicates_from_ext.
    intros key. simpl. rewrite !in_app_iff. simpl. tauto.
Qed.

Lemma drop_duplicates_from_fixed seen df :
  NoDup (map row_key df) ->
  (forall key, In key (map row_key df) -> ~ In key seen) ->
  drop_duplicates_from seen df = df.
Proof.
  revert seen. induction df as [|x df IH]; simpl; intros seen Hnd Hs; auto.
  inversion Hnd as [|? ? Hx Hnd']; subst.
  rewrite (proj2 (seen_not_In _ _) (Hs _ (or_introl eq_refl))).
  f_equal. apply IH; auto.
  intros key Hin [<-|H]; auto. apply (Hs key); auto.
Qed.

Lemma drop_duplicates_from_seen seen df :
  (forall key, In key (map row_key df) -> In key seen) ->
  drop_duplicates_from seen df = [].
Proof.
  induction df as [|x df IH]; simpl; intros Hs; auto.
  rewrite (proj2 (seen_In _ _) (Hs _ (or_introl eq_refl))). auto.
Qed.

Lemma drop_duplicates_fixed df :
  NoDup (map row_key df) -> drop_duplicates df = df.
Proof.
  intros Hnd. apply drop_duplicates_from_fixed; auto.
Qed.

(** Rows appended to a table without duplicates, all on pairs the table
    already has, are all dropped again. *)
Lemma drop_duplicates_absorbs df extra :
  NoDup (map row_key df) ->
  (forall key, In key (map row_key extra) -> In key (map row_key df)) ->
  drop_duplicates (df ++ extra) = df.
Proof.
  intros Hnd Hsub. unfold drop_duplicates.
  rewrite drop_duplicates_from_app, drop_duplicates_from_fixed by auto.
  rewrite drop_duplicates_from_seen; [apply app_nil_r|].
  intros key Hin. rewrite in_app_iff. left. auto.
Qed.

(** The first row on a pair is the one that is kept. *)
Lemma drop_duplicates_from_first seen df key r0 :
  find (fun r => key_eqb (row_key r) key) df = Some r0 ->
  ~ In key seen ->
  In r0 (drop_duplicates_from seen df) /\
  forall r, In r (drop_duplicates_from seen df) -> row_key r = key -> r = r0.
Proof.
  revert seen. induction df as [|x df IH]; simpl; intros seen; [discriminate|].
  destruct (key_eqb (row_key x) key) eqn:Ek.
  - intros Heq Hns. inversion Heq; subst x. apply key_eqb_eq in Ek.
    rewrite Ek, (proj2 (seen_not_In _ _) Hns). split; [now left|].
    intros r [->|Hin] Hk; auto.
    apply drop_duplicates_from_In in Hin. simpl in Hin.
    exfalso. apply (proj2 Hin). now left.
  - intros Hf Hns.
    assert (row_key x <> key) as Hne
        by (intros Heq; apply key_eqb_eq in Heq; congruence).
    destruct (existsb (key_eqb (row_key x)) seen).
    + now apply IH.
    + destruct (IH (row_key x :: seen) Hf) as [Hin Huniq].
      { simpl. intros [Heq|Hs]; auto. }
      split; [now right|].
      intros r [->|Hr] Hk; [contradiction|auto].
Qed.

Lemma save_validation_table_NoDup df :
  NoDup (map row_key (save_validation_table df)).
Proof.
  unfold save_validation_table.
  eapply Permutation_NoDup;
    [ apply Permutation_map; symmetry; apply sort_values_perm |].
  apply drop_duplicates_from_NoDup.
Qed.

Lemma save_validation_table_In r df :
  In r (save_validation_table df) -> In r df.
Proof.
  unfold save_validation_table. rewrite sort_values_In.
  intros H. now apply drop_duplicates_from_In in H.
Qed.

Lemma save_validation_table_keys df key :
  In key (map row_key df) <-> In key (map row_key (save_validation_table df)).
Proof.
  unfold save_validation_table. split.
  - intros H. eapply Permutation_in;
      [ apply Permutation_map; symmetry; apply sort_values_perm |].
    apply drop_duplicates_from_keys; auto.
  - rewrite in_map_iff. intros [r [<- Hin]].
    apply in_map. now apply (save_validation_table_In r df).
Qed.

Lemma save_validation_table_fixed df :
  NoDup (map row_key df) -> Sorted row_le df -> save_validation_table df = df.
Proof.
  intros Hnd Hs. unfold save_validation_table.
  rewrite drop_duplicates_fixed by auto. now apply sort_values_fixed.
Qed.

End TableFacts.

(** ** Reading the table file back *)

Section LoadFacts.

Variable Geometry : Type.

Local Abbreviation Row := (CatalogRecord Geometry).
Local Abbreviation Frame := (DataFrame Geometry).

Implicit Types (df : Frame) (r : Row) (rows : list (TableRow Geometry)).

Lemma digit_dates_all_integer rows :
  digit_dates rows ->
  forallb (fun row => Py.is_integer_literal (date_cell row)) rows = true.
Proof.
  intros H. apply forallb_forall. intros row Hin.
  unfold digit_dates in H. rewrite Forall_forall in H.
  now destruct (H row Hin).
Qed.

(** A date column of digit strings comes back as integers: every loaded
    row has the cells of its row of the file, with the number for the
    date. *)
Lemma read_csv_digit_dates rows r :
  digit_dates rows -> In r (read_csv rows) ->
  exists row,
    In row rows /\
    burst_id r = burst_id_cell row /\
    date r = Py.Int (Py.int (date_cell row)) /\
    cslc_url r = cslc_url_cell row /\
    geometry r = geometry_cell row.
Proof.
  intros Hd Hin. unfold read_csv in Hin.
  rewrite (digit_dates_all_integer rows Hd) in Hin.
  apply in_map_iff in Hin. destruct Hin as [row [<- Hrow]].
  exists row. simpl. auto.
Qed.

(** An integer date and the string the loop cuts out of a key are never
    the same value, whatever their digits: [drop_duplicates] tells the two
    rows apart, and [sort_values] puts the integer first. *)
Lemma integer_date_never_matches_written_date r (n : Z)
      (b d url : string) (g : Geometry) :
  date r = Py.Int n ->
  key_eqb (row_key r) (row_key (file_dict b d url g)) = false /\
  (burst_id r = b ->
   key_leb (row_key r) (row_key (file_dict b d url g)) = true /\
   key_leb (row_key (file_dict b d url g)) (row_key r) = false).
Proof.
  intros Hn. unfold key_eqb, key_leb, row_key. cbn [fst snd date burst_id
    file_dict]. rewrite Hn. cbn [Py.value_eqb Py.value_leb Py.value_compare].
  split; [apply andb_false_r|]. intros ->.
  unfold String.ltb. rewrite String.eqb_refl, string_compare_refl.
  split; reflexivity.
Qed.

End LoadFacts.

(** ** The key generator *)

Section GeneratorFacts.

Variable list_objects_v2 : ListRequest -> ListResponse.

Local Abbreviation keys_from := (get_matching_s3_keys_from list_objects_v2).
Local Abbreviation chain := (listing_chain list_objects_v2).
Local Abbreviation keys_of := (response_keys list_objects_v2).

Lemma page_keys_endswith (suffix : string) (objs : list S3Object) :
  Forall (fun key => Py.endswith key suffix = true) (page_keys suffix objs).
Proof.
  unfold page_keys. rewrite Forall_forall. intros key Hin.
  apply filter_In in Hin. tauto.
Qed.

Lemma response_keys_endswith (suffix : string) (kwargs : ListRequest) :
  Forall (fun key => Py.endswith key suffix = true) (keys_of suffix kwargs).
Proof.
  unfold response_keys. destruct (Contents (list_objects_v2 kwargs)).
  - apply page_keys_endswith.
  - constructor.
Qed.

Lemma keys_from_chain (suffix : string) (rest : list ListRequest) :
  forall (kwargs : ListRequest) (fuel : nat),
    chain kwargs rest -> List.length rest < fuel ->
    keys_from fuel kwargs suffix
    = Some (flat_map (keys_of suffix) (kwargs :: rest)) /\
    requests_from list_objects_v2 fuel kwargs = kwargs :: rest.
Proof.
  induction rest as [|next rest IH]; intros kwargs [|fuel] Hc Hlt;
    try (simpl in Hlt; lia); simpl in *; unfold response_keys.
  - destruct (Contents (list_objects_v2 kwargs)) as [objs|]; [|auto].
    destruct Hc as [Hc|Hc]; [discriminate|]. rewrite Hc, app_nil_r. auto.
  - destruct Hc as [Hcont [[tok [Htok ->]] Hrest]].
    destruct (Contents (list_objects_v2 kwargs)) as [objs|] eqn:Eobjs;
      [|congruence].
    rewrite Htok.
    destruct (IH (with_token kwargs tok) fuel Hrest ltac:(lia)) as [-> ->].
    simpl. unfold response_keys. auto.
Qed.

(** A listing that ended within some budget ends the same way within any
    larger one. *)
Lemma keys_from_more_fuel (suffix : string) (fuel : nat) :
  forall (kwargs : ListRequest) (keys : list string) (fuel' : nat),
    keys_from fuel kwargs suffix = Some keys -> fuel <= fuel' ->
    keys_from fuel' kwargs suffix = Some keys.
Proof.
  induction fuel as [|fuel IH]; intros kwargs keys [|fuel'] H Hle;
    simpl in *; try discriminate; try lia.
  destruct (Contents (list_objects_v2 kwargs)); auto.
  destruct (NextContinuationToken (list_objects_v2 kwargs)); auto.
  destruct (keys_from fuel (with_token kwargs s) suffix) eqn:E;
    try discriminate.
  rewrite (IH _ _ fuel' E) by lia. exact H.
Qed.

(** C8.  When the responses to a burst's listing form a finite sequence
    (each carrying the continuation token of the one before, the last one
    lacking its token or its contents), the generator ends within any budget
    larger than the number of continuation requests: it sends exactly this
    sequence of requests, yields the suffix-filtered keys of the pages in
    order, every yielded key ends with the suffix, and a first response
    without contents yields no key at all rather than an error. *)
Theorem get_matching_s3_keys_drains_finite_listing
        (fuel : nat) (bucket prefix suffix burst_id version_num : string)
        (rest : list ListRequest) :
  let kwargs := first_request bucket prefix burst_id in
  chain kwargs rest ->
  List.length rest < fuel ->
  exists keys,
    get_matching_s3_keys list_objects_v2 fuel
      bucket prefix suffix burst_id version_num = Some keys /\
    keys = flat_map (keys_of suffix) (kwargs :: rest) /\
    requests_from list_objects_v2 fuel kwargs = kwargs :: rest /\
    Forall (fun key => Py.endswith key suffix = true) keys /\
    (Contents (list_objects_v2 kwargs) = None -> keys = []).
Proof.
  intros kwargs Hc Hlt.
  destruct (keys_from_chain suffix rest kwargs fuel Hc Hlt) as [Hk Hr].
  eexists. split; [exact Hk|]. split; [reflexivity|]. split; [exact Hr|].
  split.
  - apply Forall_flat_map. rewrite Forall_forall. intros r _.
    apply response_keys_endswith.
  - intros Hnone. destruct rest as [|next rest].
    + simpl. unfold response_keys. now rewrite Hnone.
    + simpl in Hc. tauto.
Qed.

(** C9.  The keys [get_matching_s3_keys] yields do not depend on its
    [version_num] argument: two calls that differ in nothing else yield the
    same sequence of keys.  The argument is accepted and never read. *)
Theorem get_matching_s3_keys_ignores_version_num
        (fuel : nat) (bucket prefix suffix burst_id : string)
        (version_num version_num' : string) :
  get_matching_s3_keys list_objects_v2 fuel
    bucket prefix suffix burst_id version_num
  = get_matching_s3_keys list_objects_v2 fuel
      bucket prefix suffix burst_id version_num'.
Proof. reflexivity. Qed.

End GeneratorFacts.

(** ** The loops *)

Section LoopFacts.

Variable Geometry : Type.
Variable list_objects_v2 : ListRequest -> ListResponse.
Variable read_bounding_polygon : string -> FetchError + Geometry.

Local Abbreviation Row := (CatalogRecord Geometry).
Local Abbreviation Frame := (DataFrame Geometry).
Local Abbreviation State := (Kernel Geometry).
Local Abbreviation step := (process_key read_bounding_polygon).
Local Abbreviation keys_from := (get_matching_s3_keys_from list_objects_v2).
Local Abbreviation for_key_in :=
  (for_key_in_get_matching_s3_keys list_objects_v2).
Local Abbreviation query :=
  (query_and_build list_objects_v2 read_bounding_polygon).
Local Abbreviation build :=
  (buildCatalog list_objects_v2 read_bounding_polygon).

Implicit Types (df : Frame) (r : Row) (k : State) (b key url : string).

(** *** [for_each] *)

Lemma for_each_app {X : Type} (l l' : list X) (body : X -> M Geometry unit) k :
  for_each (l ++ l') body k
  = bind (for_each l body) (fun _ => for_each l' body) k.
Proof.
  revert k. induction l as [|x l IH]; intros k; simpl.
  - reflexivity.
  - unfold bind. destruct (body x k) as [k' [u| e |]]; auto.
Qed.

Lemma for_each_map {X Y : Type} (f : X -> Y) (l : list X)
      (body : Y -> M Geometry unit) k :
  for_each (map f l) body k = for_each l (fun x => body (f x)) k.
Proof.
  revert k. induction l as [|x l IH]; intros k; simpl; auto.
  unfold bind. destruct (body (f x) k) as [k' [u| e |]]; auto.
Qed.

(** *** The generator-driven loop against the list of yielded keys *)

Lemma for_key_in_as_for_each (suffix : string)
      (body : string -> M Geometry unit) (fuel : nat) :
  forall (kwargs : ListRequest) (keys : list string) k
         (calls : list ListRequest),
    keys_from fuel kwargs suffix = Some keys ->
    exists calls',
      for_key_in fuel kwargs suffix body k calls
      = (fst (for_each keys body k), calls', snd (for_each keys body k)).
Proof.
  induction fuel as [|fuel IH]; intros kwargs keys k calls Hk; simpl in *;
    [discriminate|].
  destruct (Contents (list_objects_v2 kwargs)) as [objs|].
  - destruct (NextContinuationToken (list_objects_v2 kwargs)) as [tok|].
    + destruct (keys_from fuel (with_token kwargs tok) suffix) as [more|] eqn:E;
        [|discriminate].
      simpl in Hk. injection Hk as <-.
      rewrite for_each_app. unfold bind.
      destruct (for_each (page_keys suffix objs) body k) as [k' [[]| e |]];
        simpl; eauto.
    + injection Hk as <-.
      destruct (for_each (page_keys suffix objs) body k) as [k' [[]| e |]];
        simpl; eauto.
  - injection Hk as <-. simpl. eauto.
Qed.

Lemma for_key_in_returned (suffix : string) (body : string -> M Geometry unit)
      (fuel : nat) :
  forall (kwargs : ListRequest) k (calls : list ListRequest) k' calls' u,
    for_key_in fuel kwargs suffix body k calls = (k', calls', Returned u) ->
    exists keys, keys_from fuel kwargs suffix = Some keys.
Proof.
  induction fuel as [|fuel IH]; intros kwargs k calls k' calls' u H;
    simpl in *; [discriminate|].
  destruct (Contents (list_objects_v2 kwargs)) as [objs|]; [|eauto].
  destruct (NextContinuationToken (list_objects_v2 kwargs)) as [tok|]; [|eauto].
  destruct (for_each (page_keys suffix objs) body k) as [k1 [[]| e |]];
    try discriminate.
  apply IH in H. destruct H as [more ->]. simpl. eauto.
Qed.

Lemma for_each_pair b (keys : list string) k :
  for_each (map (pair b) keys) (process_listed read_bounding_polygon) k
  = for_each keys (step b) k.
Proof. now rewrite for_each_map. Qed.

Lemma query_as_for_each (fuel : nat) (df_val : list (string * string)) :
  forall (jobs : list (string * string)) k (calls : list ListRequest),
    listed_keys list_objects_v2 fuel df_val = Some jobs ->
    exists calls',
      query fuel df_val k calls
      = (fst (for_each jobs (process_listed read_bounding_polygon) k), calls',
         snd (for_each jobs (process_listed read_bounding_polygon) k)).
Proof.
  induction df_val as [|[b cr_network] rest IH]; intros jobs k calls Hj;
    simpl in *.
  - injection Hj as <-. simpl. eauto.
  - unfold get_matching_s3_keys in Hj.
    destruct (keys_from fuel _ suffix) as [keys|] eqn:Ekeys; [|discriminate].
    destruct (listed_keys list_objects_v2 fuel rest) as [more|] eqn:Emore;
      [|discriminate].
    injection Hj as <-.
    destruct (for_key_in_as_for_each suffix (step b) fuel _ keys k calls Ekeys)
      as [calls1 ->].
    rewrite for_each_app. unfold bind. rewrite for_each_pair.
    destruct (for_each keys (step b) k) as [k1 [[]| e |]]; simpl; eauto.
Qed.

Lemma query_returned (fuel : nat) (df_val : list (string * string)) :
  forall k (calls : list ListRequest) k' calls' u,
    query fuel df_val k calls = (k', calls', Returned u) ->
    exists jobs, listed_keys list_objects_v2 fuel df_val = Some jobs.
Proof.
  induction df_val as [|[b cr_network] rest IH]; intros k calls k' calls' u H;
    simpl in *; [eauto|].
  destruct (for_key_in fuel _ suffix (step b) k calls)
    as [[k1 calls1] [[]| e |]] eqn:E; try discriminate.
  apply for_key_in_returned in E. destruct E as [keys Ekeys].
  apply IH in H. destruct H as [more ->].
  unfold get_matching_s3_keys. rewrite Ekeys. eauto.
Qed.

(** *** One key *)

Lemma url_not_in_false url df :
  url_not_in url df = false <-> In url (map cslc_url df).
Proof.
  unfold url_not_in. rewrite negb_false_iff, existsb_exists. split.
  - intros [x [Hin Heq]]. apply String.eqb_eq in Heq. now subst.
  - intros Hin. exists url. split; auto. apply String.eqb_refl.
Qed.

Lemma url_not_in_true url df :
  url_not_in url df = true <-> ~ In url (map cslc_url df).
Proof.
  rewrite <- url_not_in_false. destruct (url_not_in url df); split; congruence.
Qed.

Lemma first_true_Some (mask : list bool) :
  forall i, Py.first_true mask = Some i ->
            nth_error mask i = Some true /\
            forall j, j < i -> nth_error mask j = Some false.
Proof.
  induction mask as [|[|] mask IH]; simpl; intros i H; try discriminate.
  - injection H as <-. split; auto. intros j Hj. lia.
  - destruct (Py.first_true mask) as [i'|]; [|discriminate].
    injection H as <-. destruct (IH i' eq_refl) as [H1 H2].
    split; auto. intros [|j] Hj; simpl; auto. apply H2. lia.
Qed.

Lemma first_true_None (mask : list bool) :
  Py.first_true mask = None -> forall x, In x mask -> x = false.
Proof.
  induction mask as [|[|] mask IH]; simpl; intros H x Hin;
    try discriminate; try tauto.
  destruct (Py.first_true mask); [discriminate|].
  destruct Hin as [<-|Hin]; auto.
Qed.

Lemma first_true_app (m m' : list bool) :
  Py.first_true (m ++ m')
  = match Py.first_true m with
    | Some i => Some i
    | None => option_map (Nat.add (List.length m)) (Py.first_true m')
    end.
Proof.
  induction m as [|[|] m IH]; simpl; auto.
  - now destruct (Py.first_true m').
  - rewrite IH. destruct (Py.first_true m); simpl; auto.
    now destruct (Py.first_true m').
Qed.

Lemma idx_geo_Label df b i :
  idx_geo df b = Py.Label i ->
  exists r, nth_error df i = Some r /\ burst_id r = b.
Proof.
  unfold idx_geo, Py.next_iter_or_False, geom_check.
  destruct (Py.first_true _) as [i'|] eqn:E; [|discriminate].
  intros H. injection H as <-. apply first_true_Some in E.
  destruct E as [E _]. rewrite nth_error_map in E.
  destruct (nth_error df i') as [r|]; [|discriminate].
  exists r. split; auto. simpl in E. injection E as E.
  now apply String.eqb_eq.
Qed.

Lemma idx_geo_PyFalse df b :
  idx_geo df b = Py.PyFalse <-> forall r, In r df -> burst_id r <> b.
Proof.
  unfold idx_geo, Py.next_iter_or_False, geom_check. split.
  - destruct (Py.first_true _) eqn:E; [discriminate|]. intros _ r Hin Heq.
    assert (String.eqb (burst_id r) b = false) as H.
    { apply (first_true_None _ E). apply in_map_iff. exists r. auto. }
    apply String.eqb_neq in H. contradiction.
  - intros H. destruct (Py.first_true _) as [i|] eqn:E; auto.
    apply first_true_Some in E. destruct E as [E _].
    rewrite nth_error_map in E.
    destruct (nth_error df i) as [r|] eqn:Er; [|discriminate].
    simpl in E. injection E as E. apply String.eqb_eq in E.
    apply nth_error_In in Er. exfalso. now apply (H r).
Qed.

(** What the loop body does to the session, case by case: the key is
    skipped, its date cannot be read off, its geometry is taken over from a
    row of the table, or the granule is read remotely, with or without
    success. *)
Lemma process_key_cases b key k :
  let df := validation_bursts_df k in
  let url := (s3_path ++ "/" ++ key)%string in
  (In url (map cslc_url df) /\ step b key k = (k, Returned tt)) \/
  (~ In url (map cslc_url df) /\ date_of_key key = None /\
   step b key k = (k, Raised IndexError)) \/
  (exists d i r,
      ~ In url (map cslc_url df) /\ date_of_key key = Some d /\
      idx_geo df b = Py.Label (S i) /\ nth_error df (S i) = Some r /\
      burst_id r = b /\
      step b key k
      = ({| validation_bursts_df := df ++ [file_dict b d url (geometry r)];
            opened := opened k |}, Returned tt)) \/
  (exists d g,
      ~ In url (map cslc_url df) /\ date_of_key key = Some d /\
      Py.ne_False (idx_geo df b) = false /\
      read_bounding_polygon url = inr g /\
      step b key k
      = ({| validation_bursts_df := df ++ [file_dict b d url g];
            opened := opened k ++ [url] |}, Returned tt)) \/
  (exists d e,
      ~ In url (map cslc_url df) /\ date_of_key key = Some d /\
      Py.ne_False (idx_geo df b) = false /\
      read_bounding_polygon url = inl e /\
      step b key k
      = ({| validation_bursts_df := df; opened := opened k ++ [url] |},
         Raised (FetchFailed e))).
Proof.
  destruct k as [df o]. simpl. unfold process_key. simpl.
  destruct (url_not_in _ df) eqn:Eurl.
  2:{ left. apply url_not_in_false in Eurl. auto. }
  apply url_not_in_true in Eurl. right.
  destruct (date_of_key key) as [d|] eqn:Ed.
  2:{ left. auto. }
  right. unfold bind, geometry_for.
  destruct (Py.ne_False (idx_geo df b)) eqn:Ene.
  - left. destruct (idx_geo df b) as [[|i]|] eqn:Ei; try discriminate.
    destruct (idx_geo_Label _ _ _ Ei) as [r [Hr Hb]].
    exists d, i, r. unfold loc_geometry. rewrite Hr. simpl. auto 10.
  - right. unfold fetch_geometry. simpl.
    destruct (read_bounding_polygon _) as [e|g] eqn:Er.
    + right. exists d, e. auto 10.
    + left. exists d, g. auto 10.
Qed.


(** Where the reuse of a geometry misses: when the first row of the burst
    is the first row of the table, its label is [0], the test
    [idx_geo != False] fails, and the granule of every further key of the
    burst is read remotely. *)
Lemma label_zero_reads_again r df b key (d : string) (o : list string) :
  burst_id r = b ->
  ~ In (s3_path ++ "/" ++ key)%string (map cslc_url (r :: df)) ->
  date_of_key key = Some d ->
  opened (fst (step b key {| validation_bursts_df := r :: df; opened := o |}))
  = o ++ [(s3_path ++ "/" ++ key)%string].
Proof.
  intros Hb Hnew Hd.
  assert (idx_geo (r :: df) b = Py.Label 0) as Hidx.
  { unfold idx_geo, Py.next_iter_or_False, geom_check. simpl.
    now rewrite (proj2 (String.eqb_eq _ _) Hb). }
  destruct (process_key_cases b key
              {| validation_bursts_df := r :: df; opened := o |})
    as [[Hin _]|[[_ [Hnone _]]|[[d' [i [r' [_ [_ [Hi _]]]]]]
       |[[d' [g [_ [_ [_ [_ ->]]]]]]|[d' [e [_ [_ [_ [_ ->]]]]]]]]]];
    try reflexivity.
  - contradiction.
  - congruence.
  - cbn [validation_bursts_df] in Hi. congruence.
Qed.

(** *** Carrying a property of the session through the loops *)

Section Carry.

Variable I : State -> Prop.
Variable F : PyException -> State -> Prop.

Hypothesis step_carries :
  forall b key k, I k ->
    carried I F (fst (step b key k)) (snd (step b key k)).

Lemma for_each_carries b (keys : list string) :
  forall k, I k ->
    carried I F (fst (for_each keys (step b) k))
                (snd (for_each keys (step b) k)).
Proof.
  induction keys as [|key keys IH]; intros k Hk; simpl; auto.
  unfold bind. pose proof (step_carries b key k Hk) as Hs.
  destruct (step b key k) as [k' [[]| e |]]; simpl in *; auto.
Qed.

Lemma for_key_in_carries b (fuel : nat) :
  forall (kwargs : ListRequest) k (calls : list ListRequest), I k ->
    carried I F (fst (fst (for_key_in fuel kwargs suffix (step b) k calls)))
                (snd (for_key_in fuel kwargs suffix (step b) k calls)).
Proof.
  induction fuel as [|fuel IH]; intros kwargs k calls Hk; simpl; auto.
  destruct (Contents (list_objects_v2 kwargs)) as [objs|]; simpl; auto.
  pose proof (for_each_carries b (page_keys suffix objs) k Hk) as Hs.
  destruct (for_each (page_keys suffix objs) (step b) k) as [k' [[]| e |]];
    simpl in *; auto.
  destruct (NextContinuationToken (list_objects_v2 kwargs)); simpl; auto.
Qed.

Lemma query_carries (fuel : nat) (df_val : list (string * string)) :
  forall k (calls : list ListRequest), I k ->
    carried I F (fst (fst (query fuel df_val k calls)))
                (snd (query fuel df_val k calls)).
Proof.
  induction df_val as [|[b cr_network] rest IH]; intros k calls Hk; simpl; auto.
  pose proof (for_key_in_carries b fuel
                (first_request bucket (prefix ++ "/" ++ cr_network) b)
                k calls Hk) as Hs.
  destruct (for_key_in fuel _ suffix (step b) k calls)
    as [[k' calls'] [[]| e |]]; simpl in *; auto.
Qed.

End Carry.

(** *** Remote reads that fail *)

Lemma geometry_sourced_opened (existing : Frame) df (o o' : list string) :
  geometry_sourced read_bounding_polygon existing
    {| validation_bursts_df := df; opened := o |} ->
  geometry_sourced read_bounding_polygon existing
    {| validation_bursts_df := df; opened := o ++ o' |}.
Proof.
  intros H r Hin. destruct (H r Hin) as [H1|[H2|[url [Hu Hr]]]]; auto.
  right. right. exists url. simpl in *. rewrite in_app_iff. auto.
Qed.

Lemma step_carries_reads (existing : Frame) b key k :
  let I := fun k => reads_succeeded read_bounding_polygon (opened k) /\
                    geometry_sourced read_bounding_polygon existing k in
  let F := fun e k =>
             match e with
             | FetchFailed fe =>
                 exists o url,
                   opened k = o ++ [url] /\
                   read_bounding_polygon url = inl fe /\
                   reads_succeeded read_bounding_polygon o /\
                   ~ In url (map cslc_url (validation_bursts_df k)) /\
                   geometry_sourced read_bounding_polygon existing k
             | _ => I k
             end in
  I k -> carried I F (fst (step b key k)) (snd (step b key k)).
Proof.
  intros I F [Hreads Hsrc].
  destruct (process_key_cases b key k)
    as [[_ ->]|[[_ [_ ->]]|[[d [i [r [_ [_ [_ [Hr [Hb ->]]]]]]]]
       |[[d [g [_ [_ [_ [Hg ->]]]]]]|[d [e [Hnew [_ [_ [He ->]]]]]]]]]];
    simpl; unfold I; simpl.
  - split; auto.
  - split; auto.
  - split; auto. intros x Hin. simpl in Hin. apply in_app_iff in Hin.
    destruct Hin as [Hin|[<-|[]]]; [now apply Hsrc|].
    simpl. apply nth_error_In in Hr.
    destruct (Hsrc r Hr) as [H1|[[r0 [H0 [Hb0 Hg0]]]|H3]].
    + right. left. exists r. auto.
    + right. left. exists r0. repeat split; auto. congruence.
    + right. right. exact H3.
  - split.
    + intros u Hu. apply in_app_iff in Hu. destruct Hu as [Hu|[<-|[]]]; eauto.
    + intros x Hin. simpl in Hin. apply in_app_iff in Hin.
      destruct Hin as [Hin|[<-|[]]].
      * destruct k as [df o].
        apply (geometry_sourced_opened existing df o _ Hsrc x Hin).
      * right. right. simpl. eexists. rewrite in_app_iff. simpl. eauto.
  - exists (opened k), (s3_path ++ "/" ++ key)%string.
    repeat split; auto.
    destruct k as [df o]. intros x Hin.
    apply (geometry_sourced_opened existing df o _ Hsrc x Hin).
Qed.

(** C6.  If a remote read made during a run fails, the run ends by raising
    that failure: the failed read is the last one made, no row with the URL
    of the granule is in the working table, every row there was loaded or
    has a geometry that was loaded or decoded by a successful read, and no
    table is returned to be written. *)
Theorem failed_geometry_read_aborts_run
        (fuel : nat) (existing : Frame) (df_val : list (string * string))
        (url : string) (e : FetchError) :
  read_bounding_polygon url = inl e ->
  In url (opened (fst (fst (build fuel existing df_val)))) ->
  exists k calls,
    build fuel existing df_val = (k, calls, Raised (FetchFailed e)) /\
    (exists o, opened k = o ++ [url] /\
               reads_succeeded read_bounding_polygon o) /\
    ~ In url (map cslc_url (validation_bursts_df k)) /\
    geometry_sourced read_bounding_polygon existing k /\
    table_of (build fuel existing df_val) = None.
Proof.
  intros Hfail Hin. unfold buildCatalog in *.
  pose proof (query_carries _ _ (step_carries_reads existing) fuel df_val
                (start existing) []) as Hq.
  destruct (query fuel df_val (start existing) [])
    as [[k calls] [[]| ex |]]; simpl in *.
  - exfalso. destruct Hq as [Hreads _].
    { split; [intros u []|]. intros r Hr. now left. }
    destruct (Hreads url Hin) as [g Hg]. congruence.
  - assert (Hstart : reads_succeeded read_bounding_polygon [] /\
                     geometry_sourced read_bounding_polygon existing
                                      (start existing)).
    { split; [intros u []|]. intros r Hr. now left. }
    specialize (Hq Hstart).
    destruct ex as [| | |fe].
    1-3: exfalso; destruct Hq as [Hreads _];
         destruct (Hreads url Hin) as [g Hg]; congruence.
    destruct Hq as [o [u [Ho [Hu [Hreads [Hnew Hsrc]]]]]].
    rewrite Ho in Hin. apply in_app_iff in Hin.
    destruct Hin as [Hin|[<-|[]]].
    + destruct (Hreads url Hin) as [g Hg]. congruence.
    + assert (fe = e) as -> by congruence.
      exists k, calls. repeat split; eauto.
  - exfalso. destruct Hq as [Hreads _].
    { split; [intros u []|]. intros r Hr. now left. }
    destruct (Hreads url Hin) as [g Hg]. congruence.
Qed.

(** Without the burst file the notebook stops before the loops: in the
    cell that checks for the burst file, or already in the cell before it
    when the table file has no [geometry] column.  Either way no listing
    request has been sent, no granule has been opened, and the files are as
    they were. *)
Lemma missing_burst_file_stops_the_run
      (fuel : nat) (d : Disk Geometry) :
  validation_bursts d = None ->
  let run := notebook list_objects_v2 read_bounding_polygon fuel d in
  (match validation_csv d with
   | Some PlaceholderColumns => outcome run = Raised KeyError
   | _ => outcome run = Raised BurstRecordNotFound
   end) /\
  listed run = [] /\
  opened (kernel run) = [] /\
  disk run = d.
Proof.
  intros Hnone. unfold notebook, access_or_initiate. rewrite Hnone.
  destruct (validation_csv d) as [[|rows]|]; simpl; auto.
Qed.

(** *** The saved table *)

(** The frame the save cell leaves in memory: no two of its rows share
    their [(burst_id, date)] pair of values, where an integer date and a
    string date count as different; and two rows of the working table with
    the same date but different burst ids are both represented in it, by
    two different rows that carry their pairs. *)
Lemma returned_frame_unique_on_values
        (fuel : nat) (existing : Frame) (df_val : list (string * string))
        k (calls : list ListRequest) :
  query fuel df_val (start existing) [] = (k, calls, Returned tt) ->
  let table := save_validation_table (validation_bursts_df k) in
  table_of (build fuel existing df_val) = Some table /\
  NoDup (map row_key table) /\
  forall r1 r2,
    In r1 (validation_bursts_df k) -> In r2 (validation_bursts_df k) ->
    burst_id r1 <> burst_id r2 -> date r1 = date r2 ->
    exists r1' r2',
      In r1' table /\ In r2' table /\
      row_key r1' = row_key r1 /\ row_key r2' = row_key r2 /\ r1' <> r2'.
Proof.
  intros Hq table. unfold buildCatalog. rewrite Hq. simpl.
  split; [reflexivity|]. split; [apply save_validation_table_NoDup|].
  intros r1 r2 H1 H2 Hb Hd.
  assert (forall r, In r (validation_bursts_df k) ->
                    exists r', In r' table /\ row_key r' = row_key r) as Hkeep.
  { intros r Hr.
    assert (In (row_key r) (map row_key table)) as Hin
        by (apply (proj1 (save_validation_table_keys
                            Geometry (validation_bursts_df k) (row_key r)));
            apply in_map; exact Hr).
    apply in_map_iff in Hin. destruct Hin as [r' [Hk Hr']]. eauto. }
  destruct (Hkeep r1 H1) as [r1' [Hin1 Hk1]].
  destruct (Hkeep r2 H2) as [r2' [Hin2 Hk2]].
  exists r1', r2'. repeat split; auto.
  intros ->. apply Hb. unfold row_key in *. congruence.
Qed.

(** The frame the save cell leaves in memory is in the order of
    [sort_values] on [(burst_id, date)], in which integer dates come before
    string dates: every row is at most every row after it, and sorting the
    frame again gives it back. *)
Lemma returned_frame_sorted_on_values
        (fuel : nat) (existing : Frame) (df_val : list (string * string))
        (table : Frame) :
  table_of (build fuel existing df_val) = Some table ->
  StronglySorted row_le table /\ sort_values table = table.
Proof.
  unfold buildCatalog.
  destruct (query fuel df_val (start existing) [])
    as [[k calls] [[]| e |]]; simpl; try discriminate.
  intros H. injection H as <-. unfold save_validation_table.
  pose proof (sort_values_sorted _
                (drop_duplicates (validation_bursts_df k))) as Hs.
  split.
  - apply Sorted_StronglySorted; auto. apply row_le_trans.
  - now apply sort_values_fixed.
Qed.

(** A listed key whose URL is not in the working table, but whose burst
    is that of a row [r0] already there with the key's date as a string (a
    row the loop wrote, or one loaded from a file whose dates are not all
    integer literals), is appended as a new row (when the loop body
    returns); whatever is appended later, the frame after the save keeps
    the first such row and not the new one. *)
Lemma same_pair_new_url_keeps_first_row
      b key (d : string) (loaded appended : Frame) (o : list string)
      r0 k' :
  let url := (s3_path ++ "/" ++ key)%string in
  find (fun r => key_eqb (row_key r) (b, Py.Str d)) loaded = Some r0 ->
  date_of_key key = Some d ->
  ~ In url (map cslc_url (loaded ++ appended)) ->
  step b key {| validation_bursts_df := loaded ++ appended; opened := o |}
  = (k', Returned tt) ->
  exists new,
    validation_bursts_df k' = loaded ++ appended ++ [new] /\
    row_key new = (b, Py.Str d) /\ cslc_url new = url /\
    forall later,
      let table := save_validation_table (validation_bursts_df k' ++ later) in
      In r0 table /\ ~ In new table /\
      forall r, In r table -> row_key r = (b, Py.Str d) -> r = r0.
Proof.
  intros url Hfind Hd Hnew Hstep.
  assert (exists g, validation_bursts_df k'
                    = (loaded ++ appended) ++ [file_dict b d url g]) as [g Hk'].
  { destruct (process_key_cases b key
                {| validation_bursts_df := loaded ++ appended; opened := o |})
      as [[Hin _]|[[_ [Hnone _]]|[[d' [i [r [_ [Hd' [_ [_ [_ E]]]]]]]]
         |[[d' [g [_ [Hd' [_ [_ E]]]]]]|[d' [e [_ [_ [_ [_ E]]]]]]]]]];
      simpl in *.
    - contradiction.
    - congruence.
    - rewrite E in Hstep. injection Hstep as <-. simpl.
      assert (d' = d) as -> by congruence. eauto.
    - rewrite E in Hstep. injection Hstep as <-. simpl.
      assert (d' = d) as -> by congruence. eauto.
    - rewrite E in Hstep. discriminate. }
  exists (file_dict b d url g). rewrite Hk', <- app_assoc.
  split; [reflexivity|]. split; [reflexivity|]. split; [reflexivity|].
  intros later table.
  assert (find (fun r => key_eqb (row_key r) (b, Py.Str d))
               (loaded ++ (appended ++ [file_dict b d url g]) ++ later)
          = Some r0) as Hfind'.
  { clear - Hfind. induction loaded as [|x l IH]; simpl in *; [discriminate|].
    destruct (key_eqb (row_key x) (b, Py.Str d)); auto. }
  destruct (drop_duplicates_from_first Geometry [] _ _ _ Hfind'
              (fun H => H)) as [Hin Huniq].
  assert (forall r, In r table -> row_key r = (b, Py.Str d) -> r = r0)
    as Huniq'.
  { intros r Hr. apply Huniq. unfold table, save_validation_table in Hr.
    rewrite sort_values_In in Hr. rewrite <- app_assoc in Hr. exact Hr. }
  split; [|split]; auto.
  - unfold table, save_validation_table. rewrite sort_values_In.
    rewrite <- app_assoc. exact Hin.
  - intros Hnewin. apply Huniq' in Hnewin; [|reflexivity].
    apply Hnew. rewrite map_app, in_app_iff. left.
    apply find_some in Hfind. destruct Hfind as [Hr0 _].
    apply in_map_iff. exists r0. split; auto. now rewrite <- Hnewin.
Qed.

End LoopFacts.

(** ** Running the builder again *)

Section RerunFacts.

Variable Geometry : Type.
Variable list_objects_v2 : ListRequest -> ListResponse.
Variable read_bounding_polygon : string -> FetchError + Geometry.

Local Abbreviation Row := (CatalogRecord Geometry).
Local Abbreviation Frame := (DataFrame Geometry).
Local Abbreviation State := (Kernel Geometry).
Local Abbreviation step := (process_key read_bounding_polygon).
Local Abbreviation visit := (process_listed read_bounding_polygon).
Local Abbreviation query :=
  (query_and_build list_objects_v2 read_bounding_polygon).
Local Abbreviation build :=
  (buildCatalog list_objects_v2 read_bounding_polygon).

Implicit Types (df : Frame) (r : Row) (k : State) (b key url : string).

Lemma covered_more (pairs : list (string * Py.value))
      (jobs : list (string * string)) :
  forall urls urls' : list string,
    (forall u, In u urls -> In u urls') ->
    covered pairs urls jobs -> covered pairs urls' jobs.
Proof.
  induction jobs as [|[b key] rest IH]; simpl; intros urls urls' Hsub; auto.
  intros [Hjob Hrest]. split.
  - destruct Hjob; auto.
  - eapply IH; [|exact Hrest]. simpl. intros u [->|Hu]; auto.
Qed.

Lemma visit_pair b key k : visit (b, key) k = step b key k.
Proof. reflexivity. Qed.

(** The loops only ever append to the working table. *)
Lemma step_extends b key k :
  exists extra,
    validation_bursts_df (fst (step b key k))
    = validation_bursts_df k ++ extra.
Proof.
  destruct (process_key_cases _ read_bounding_polygon b key k)
    as [[_ ->]|[[_ [_ ->]]|[[d [i [r [_ [_ [_ [_ [_ ->]]]]]]]]
       |[[d [g [_ [_ [_ [_ ->]]]]]]|[d [e [_ [_ [_ [_ ->]]]]]]]]]]; simpl;
    eauto using app_nil_r.
  all: exists []; now rewrite app_nil_r.
Qed.

Lemma for_each_extends (jobs : list (string * string)) :
  forall k, exists extra,
      validation_bursts_df (fst (for_each jobs visit k))
      = validation_bursts_df k ++ extra.
Proof.
  induction jobs as [|[b key] rest IH]; intros k; simpl.
  - exists []. now rewrite app_nil_r.
  - unfold bind. rewrite visit_pair.
    destruct (step_extends b key k) as [extra Hx].
    destruct (step b key k) as [k' [[]| e |]]; simpl in *; eauto.
    destruct (IH k') as [extra' Hx']. rewrite Hx', Hx, <- app_assoc. eauto.
Qed.

(** After a run that returned, the jobs are covered by the pairs of its
    working table and the URLs it started from. *)
Lemma finished_run_covered (jobs : list (string * string)) :
  forall k k' (urls : list string),
    for_each jobs visit k = (k', Returned tt) ->
    (forall u, In u (map cslc_url (validation_bursts_df k)) -> In u urls) ->
    covered (map row_key (validation_bursts_df k')) urls jobs.
Proof.
  induction jobs as [|[b key] rest IH]; intros k k' urls Hrun Hsub;
    simpl in *; auto.
  unfold bind in Hrun. rewrite visit_pair in Hrun.
  pose proof (for_each_extends rest) as Hext.
  destruct (process_key_cases _ read_bounding_polygon b key k)
    as [[Hin E]|[[_ [_ E]]|[[d [i [r [_ [Hd [_ [_ [_ E]]]]]]]]
       |[[d [g [_ [Hd [_ [_ E]]]]]]|[d [e [_ [_ [_ [_ E]]]]]]]]]];
    rewrite E in Hrun; try discriminate.
  - split; [left; auto|]. apply (IH k); auto.
    simpl. intros u Hu. right. auto.
  - match type of Hrun with for_each rest _ ?k1 = _ =>
      specialize (Hext k1); rewrite Hrun in Hext; simpl in Hext;
      destruct Hext as [extra Hx] end.
    split.
    + right. exists d. split; auto. rewrite Hx, !map_app, !in_app_iff.
      left. right. now left.
    + eapply IH; [exact Hrun|]. simpl. intros u. rewrite map_app, in_app_iff.
      simpl. intros [Hu|[<-|[]]]; auto.
  - match type of Hrun with for_each rest _ ?k1 = _ =>
      specialize (Hext k1); rewrite Hrun in Hext; simpl in Hext;
      destruct Hext as [extra Hx] end.
    split.
    + right. exists d. split; auto. rewrite Hx, !map_app, !in_app_iff.
      left. right. now left.
    + eapply IH; [exact Hrun|]. simpl. intros u. rewrite map_app, in_app_iff.
      simpl. intros [Hu|[<-|[]]]; auto.
Qed.

(** Over covered jobs a run only appends rows on pairs that are already
    there, unless a remote read fails. *)
Lemma covered_run_absorbed (pairs : list (string * Py.value)) (table : Frame)
      (jobs : list (string * string)) :
  forall k (extra : Frame),
    validation_bursts_df k = table ++ extra ->
    (forall p, In p (map row_key extra) -> In p pairs) ->
    covered pairs (map cslc_url (validation_bursts_df k)) jobs ->
    (snd (for_each jobs visit k) = Returned tt /\
     exists extra',
       validation_bursts_df (fst (for_each jobs visit k)) = table ++ extra' /\
       forall p, In p (map row_key extra') -> In p pairs) \/
    (exists e o u,
        snd (for_each jobs visit k) = Raised (FetchFailed e) /\
        opened (fst (for_each jobs visit k)) = o ++ [u] /\
        read_bounding_polygon u = inl e).
Proof.
  induction jobs as [|[b key] rest IH]; intros k extra Hk Hextra Hcov;
    simpl in *.
  - left. eauto.
  - destruct Hcov as [Hjob Hrest].
    unfold bind. rewrite visit_pair.
    destruct (process_key_cases _ read_bounding_polygon b key k)
      as [[Hin E]|[[Hnew [Hnone E]]|[[d [i [r [Hnew [Hd [_ [_ [_ E]]]]]]]]
         |[[d [g [Hnew [Hd [_ [_ E]]]]]]|[d [e [_ [_ [_ [He E]]]]]]]]]];
      rewrite E; simpl.
    + apply (IH k extra); auto.
      eapply covered_more; [|exact Hrest]. simpl. intros u [<-|Hu]; auto.
    + exfalso. destruct Hjob as [Hin|[d [Hd _]]]; [contradiction|congruence].
    + destruct Hjob as [Hin|[d' [Hd' Hpair]]]; [contradiction|].
      assert (d' = d) as -> by congruence.
      apply (IH _ (extra ++ [file_dict b d (s3_path ++ "/" ++ key)
                                       (geometry r)])); simpl.
      * now rewrite Hk, app_assoc.
      * intros p. rewrite map_app, in_app_iff. simpl.
        intros [Hp|[<-|[]]]; auto.
      * eapply covered_more; [|exact Hrest]. simpl. intros u.
        rewrite map_app, in_app_iff. simpl. tauto.
    + destruct Hjob as [Hin|[d' [Hd' Hpair]]]; [contradiction|].
      assert (d' = d) as -> by congruence.
      apply (IH _ (extra ++ [file_dict b d (s3_path ++ "/" ++ key) g])); simpl.
      * now rewrite Hk, app_assoc.
      * intros p. rewrite map_app, in_app_iff. simpl.
        intros [Hp|[<-|[]]]; auto.
      * eapply covered_more; [|exact Hrest]. simpl. intros u.
        rewrite map_app, in_app_iff. simpl. tauto.
    + right. exists e, (opened k), (s3_path ++ "/" ++ key)%string. auto.
Qed.

(** A table without duplicate pairs is kept whole by the save. *)
Lemma loaded_rows_saved (existing extra : Frame) r :
  NoDup (map row_key existing) -> In r existing ->
  In r (save_validation_table (existing ++ extra)).
Proof.
  intros Hnd Hin. unfold save_validation_table, drop_duplicates.
  rewrite sort_values_In, drop_duplicates_from_app.
  rewrite drop_duplicates_from_fixed by auto.
  apply in_app_iff. now left.
Qed.

(** Running the query and save cells a second time in the same session,
    on the frame the save cell left in [validation_bursts_df] (nothing is
    read back from the file).  Take a frame without duplicate pairs and a
    pass on it that returned.  A second pass on the returned frame, against
    the same store, returns that very frame again, provided none of the
    remote reads it makes fails.  In any session, a listed key whose URL is
    already in the [cslc_url] column is skipped: the loop body leaves the
    table and the record of remote reads as they were. *)
Lemma second_pass_returns_same_frame
        (fuel : nat) (existing : Frame) (df_val : list (string * string))
        k1 (calls1 : list ListRequest) (table : Frame) :
  NoDup (map row_key existing) ->
  build fuel existing df_val = (k1, calls1, Returned table) ->
  reads_succeeded read_bounding_polygon
    (opened (fst (fst (build fuel table df_val)))) ->
  table_of (build fuel table df_val) = Some table /\
  forall b key k,
    In (s3_path ++ "/" ++ key)%string (map cslc_url (validation_bursts_df k)) ->
    step b key k = (k, Returned tt).
Proof.
  intros Hnd Hrun1 Hreads. split.
  2:{ intros b key k Hin.
      destruct (process_key_cases _ read_bounding_polygon b key k)
        as [[_ E]|[[Hnew _]|[[d [i [r [Hnew _]]]]
           |[[d [g [Hnew _]]]|[d [e [Hnew _]]]]]]]; auto; contradiction. }
  unfold buildCatalog in Hrun1.
  destruct (query fuel df_val (start existing) [])
    as [[kq callsq] [[]| e |]] eqn:Hq; try discriminate.
  injection Hrun1 as _ _ Htable.
  destruct (query_returned _ _ _ _ _ _ _ _ _ _ Hq) as [jobs Hjobs].
  destruct (query_as_for_each _ list_objects_v2 read_bounding_polygon
              fuel df_val jobs (start existing) [] Hjobs) as [c1 Hq1].
  rewrite Hq in Hq1.
  assert (for_each jobs visit (start existing) = (kq, Returned tt)) as Hfe.
  { destruct (for_each jobs visit (start existing)) as [k' res'].
    simpl in Hq1. congruence. }
  destruct (for_each_extends jobs (start existing)) as [app1 Happ1].
  rewrite Hfe in Happ1. simpl in Happ1.
  assert (covered (map row_key (validation_bursts_df kq))
                  (map cslc_url table) jobs) as Hcov.
  { eapply finished_run_covered; [exact Hfe|]. simpl. intros u Hu.
    apply in_map_iff in Hu. destruct Hu as [r [<- Hr]]. apply in_map.
    rewrite <- Htable, Happ1. now apply loaded_rows_saved. }
  assert (NoDup (map row_key table)) as Hnd2
      by (rewrite <- Htable; apply save_validation_table_NoDup).
  assert (Sorted row_le table) as Hsorted
      by (rewrite <- Htable; apply sort_values_sorted).
  destruct (query_as_for_each _ list_objects_v2 read_bounding_polygon
              fuel df_val jobs (start table) [] Hjobs) as [c2 Hq2].
  unfold buildCatalog in *. rewrite Hq2 in *.
  destruct (covered_run_absorbed _ table jobs (start table) []
              (eq_sym (app_nil_r _)) (fun p (H : In p []) => match H with end)
              Hcov)
    as [[Hres [extra' [Hdf Hsub]]]|[e [o [u [Hres [Ho Hu]]]]]].
  - destruct (for_each jobs visit (start table)) as [k2 res2].
    simpl in *. subst res2. simpl. f_equal. rewrite Hdf.
    unfold save_validation_table.
    rewrite drop_duplicates_absorbs; auto.
    + now apply sort_values_fixed.
    + intros p Hp. apply Hsub in Hp. rewrite <- Htable.
      now apply (proj1 (save_validation_table_keys Geometry _ _)).
  - exfalso. destruct (for_each jobs visit (start table)) as [k2 res2].
    simpl in *. subst res2. simpl in Hreads.
    destruct (Hreads u) as [g Hg]; [|congruence].
    rewrite Ho, in_app_iff. right. now left.
Qed.

End RerunFacts.

(** ** The order in which the bursts are processed *)

Section OrderFacts.

Variable Geometry : Type.
Variable list_objects_v2 : ListRequest -> ListResponse.
Variable read_bounding_polygon : string -> FetchError + Geometry.

Local Abbreviation Row := (CatalogRecord Geometry).
Local Abbreviation Frame := (DataFrame Geometry).
Local Abbreviation State := (Kernel Geometry).
Local Abbreviation step := (process_key read_bounding_polygon).
Local Abbreviation visit := (process_listed read_bounding_polygon).
Local Abbreviation choose := (geometry_for read_bounding_polygon).
Local Abbreviation read := read_bounding_polygon.
Local Abbreviation own := (own_rows read_bounding_polygon).
Local Abbreviation query :=
  (query_and_build list_objects_v2 read_bounding_polygon).
Local Abbreviation build :=
  (buildCatalog list_objects_v2 read_bounding_polygon).

Implicit Types (df E X R : Frame) (r : Row) (k : State) (b key url : string).

Lemma url_of_key_inj key key' :
  (s3_path ++ "/" ++ key)%string = (s3_path ++ "/" ++ key')%string ->
  key = key'.
Proof.
  generalize s3_path. intros s. induction s as [|c s IH]; simpl; intros H.
  - now inversion H.
  - inversion H. auto.
Qed.

Lemma idx_geo_app df df' b :
  idx_geo (df ++ df') b
  = match idx_geo df b with
    | Py.Label i => Py.Label i
    | Py.PyFalse =>
        match idx_geo df' b with
        | Py.Label j => Py.Label (List.length df + j)
        | Py.PyFalse => Py.PyFalse
        end
    end.
Proof.
  unfold idx_geo, Py.next_iter_or_False, geom_check.
  rewrite map_app, first_true_app, length_map.
  destruct (Py.first_true (map _ df)); auto.
  destruct (Py.first_true (map _ df')); auto.
Qed.

Lemma idx_geo_foreign b (keys : list string) X :
  foreign_rows b keys X -> idx_geo X b = Py.PyFalse.
Proof.
  intros H. apply idx_geo_PyFalse. intros r Hr. now apply H.
Qed.

Lemma idx_geo_own E b (keys : list string) r R :
  own E b keys (r :: R) -> idx_geo (r :: R) b = Py.Label 0.
Proof.
  intros H. destruct (H r (or_introl eq_refl)) as [Hb _].
  unfold idx_geo, Py.next_iter_or_False, geom_check. simpl.
  now rewrite (proj2 (String.eqb_eq _ _) Hb).
Qed.

Lemma choose_keeps_table df b url k :
  validation_bursts_df (fst (choose df b url k)) = validation_bursts_df k.
Proof.
  unfold geometry_for. destruct (Py.ne_False (idx_geo df b)).
  - unfold loc_geometry. destruct (idx_geo df b) as [i|]; simpl; auto.
    destruct (nth_error df i); auto.
  - unfold fetch_geometry. destruct (read url); auto.
Qed.

Lemma choose_fetch df b url k :
  Py.ne_False (idx_geo df b) = false ->
  snd (choose df b url k)
  = match read url with
    | inl e => Raised (FetchFailed e)
    | inr g => Returned g
    end.
Proof.
  intros H. unfold geometry_for, fetch_geometry. rewrite H.
  now destruct (read url).
Qed.

Lemma choose_loc df b url k i r :
  idx_geo df b = Py.Label (S i) -> nth_error df (S i) = Some r ->
  snd (choose df b url k) = Returned (geometry r).
Proof.
  intros Hi Hr. unfold geometry_for, loc_geometry. rewrite Hi.
  simpl Py.ne_False.
  cbv iota. now rewrite Hr.
Qed.

Lemma choose_never_times_out df b url k : snd (choose df b url k) <> Timeout.
Proof.
  unfold geometry_for, loc_geometry, fetch_geometry.
  destruct (Py.ne_False (idx_geo df b)).
  - destruct (idx_geo df b) as [i|]; [destruct (nth_error df i)|]; discriminate.
  - destruct (read url); discriminate.
Qed.

(** The geometry chosen for a key of a burst does not depend on the rows
    other bursts have written in between. *)
Lemma choose_framed E X R b (keys : list string) key k1 k2 :
  let url := (s3_path ++ "/" ++ key)%string in
  foreign_rows b keys X -> own E b keys R -> In key keys ->
  (E = [] -> forall key1 key2, In key1 keys -> In key2 keys ->
             read (s3_path ++ "/" ++ key1)%string
             = read (s3_path ++ "/" ++ key2)%string) ->
  snd (choose (E ++ R) b url k1) = snd (choose (E ++ X ++ R) b url k2) /\
  forall g, snd (choose (E ++ R) b url k1) = Returned g ->
            E = [] -> forall key', In key' keys ->
                                   read (s3_path ++ "/" ++ key')%string = inr g.
Proof.
  intros url HX HR Hkey Hconst.
  pose proof (idx_geo_foreign _ _ _ HX) as EX.
  destruct (idx_geo E b) as [[|i]|] eqn:EE.
  - (* the first row of the loaded table is of this burst *)
    assert (Py.ne_False (idx_geo (E ++ R) b) = false) as H1
        by (rewrite idx_geo_app, EE; reflexivity).
    assert (Py.ne_False (idx_geo (E ++ X ++ R) b) = false) as H2
        by (rewrite idx_geo_app, EE; reflexivity).
    rewrite !choose_fetch by assumption. split; auto.
    intros g _ HE. subst E. discriminate.
  - (* a later loaded row is *)
    destruct (idx_geo_Label _ _ _ _ EE) as [r [Hr _]].
    assert (S i < List.length E) as Hlt
        by (apply nth_error_Some; congruence).
    rewrite (choose_loc (E ++ R) b url k1 i r);
      [|rewrite idx_geo_app, EE; reflexivity
       |rewrite nth_error_app1; auto].
    rewrite (choose_loc (E ++ X ++ R) b url k2 i r);
      [|rewrite idx_geo_app, EE; reflexivity
       |rewrite nth_error_app1; auto].
    split; auto. intros g _ HE. subst E. simpl in Hlt. lia.
  - (* no loaded row is *)
    destruct R as [|r0 R'].
    + assert (Py.ne_False (idx_geo (E ++ []) b) = false) as H1
          by (rewrite idx_geo_app, EE; reflexivity).
      assert (Py.ne_False (idx_geo (E ++ X ++ []) b) = false) as H2
          by (rewrite !idx_geo_app, EE, EX; reflexivity).
      rewrite !choose_fetch by assumption. split; auto.
      intros g Hg HE key' Hkey'. rewrite (Hconst HE key' key) by auto.
      fold url. destruct (read url); congruence.
    + pose proof (idx_geo_own _ _ _ _ _ HR) as ER.
      destruct (HR r0 (or_introl eq_refl)) as [_ [_ Hgeo]].
      assert (idx_geo (E ++ r0 :: R') b = Py.Label (List.length E + 0)) as I1
          by (rewrite idx_geo_app, EE, ER; reflexivity).
      assert (idx_geo (E ++ X ++ r0 :: R') b
              = Py.Label (List.length E + (List.length X + 0))) as I2
          by (rewrite !idx_geo_app, EE, EX, ER; reflexivity).
      assert (nth_error (E ++ r0 :: R') (List.length E + 0) = Some r0) as N1
          by (rewrite nth_error_app2 by lia;
              replace (List.length E + 0 - List.length E) with 0 by lia;
              reflexivity).
      assert (nth_error (E ++ X ++ r0 :: R')
                        (List.length E + (List.length X + 0)) = Some r0) as N2.
      { rewrite nth_error_app2 by lia.
        replace (List.length E + (List.length X + 0) - List.length E)
          with (List.length X + 0) by lia.
        rewrite nth_error_app2 by lia.
        replace (List.length X + 0 - List.length X) with 0 by lia.
        reflexivity. }
      assert (forall df n k,
                 idx_geo df b = Py.Label n -> nth_error df n = Some r0 ->
                 (n = 0 -> read url = inr (geometry r0)) ->
                 snd (choose df b url k) = Returned (geometry r0)) as Hboth.
      { intros df [|n] k Hi Hn Hz.
        - rewrite choose_fetch by (rewrite Hi; reflexivity).
          now rewrite Hz.
        - now apply (choose_loc df b url k n r0). }
      rewrite (Hboth _ _ k1 I1 N1), (Hboth _ _ k2 I2 N2).
      * split; auto. intros g Hg HE. injection Hg as <-. auto.
      * intros Hz. apply Hgeo; auto.
        destruct E; [reflexivity|simpl in Hz; lia].
      * intros Hz. apply Hgeo; auto.
        destruct E; [reflexivity|simpl in Hz; lia].
Qed.

Lemma url_not_in_framed E X R b (keys : list string) key :
  foreign_rows b keys X -> In key keys ->
  url_not_in (s3_path ++ "/" ++ key)%string (E ++ X ++ R)
  = url_not_in (s3_path ++ "/" ++ key)%string (E ++ R).
Proof.
  intros HX Hkey.
  destruct (url_not_in _ (E ++ R)) eqn:E1.
  - apply url_not_in_true. apply url_not_in_true in E1.
    rewrite !map_app, !in_app_iff in *. intros [H|[H|H]]; auto.
    apply in_map_iff in H. destruct H as [r [Hu Hr]].
    destruct (HX r Hr) as [_ Hne]. now apply (Hne key).
  - apply url_not_in_false. apply url_not_in_false in E1.
    rewrite !map_app, !in_app_iff in *. tauto.
Qed.

(** One key, with and without the rows of other bursts in between. *)
Lemma step_framed E X R b (keys : list string) key (o1 o2 : list string) :
  foreign_rows b keys X -> own E b keys R -> In key keys ->
  (E = [] -> forall key1 key2, In key1 keys -> In key2 keys ->
             read (s3_path ++ "/" ++ key1)%string
             = read (s3_path ++ "/" ++ key2)%string) ->
  let x1 := step b key {| validation_bursts_df := E ++ R; opened := o1 |} in
  let x2 := step b key {| validation_bursts_df := E ++ X ++ R;
                          opened := o2 |} in
  (exists R',
      snd x1 = Returned tt /\ snd x2 = Returned tt /\
      validation_bursts_df (fst x1) = E ++ R' /\
      validation_bursts_df (fst x2) = E ++ X ++ R' /\
      own E b keys R') \/
  (exists e1 e2, snd x1 = Raised e1 /\ snd x2 = Raised e2).
Proof.
  intros HX HR Hkey Hconst. unfold process_key. cbv zeta.
  cbn [validation_bursts_df].
  rewrite (url_not_in_framed E X R b keys key HX Hkey).
  destruct (url_not_in _ (E ++ R)).
  2:{ left. exists R. simpl. auto. }
  destruct (date_of_key key) as [d|].
  2:{ right. simpl. eauto. }
  unfold bind.
  set (k1 := {| validation_bursts_df := E ++ R; opened := o1 |}).
  set (k2 := {| validation_bursts_df := E ++ X ++ R; opened := o2 |}).
  destruct (choose_framed E X R b keys key k1 k2 HX HR Hkey Hconst)
    as [Hsame Hgeo].
  pose proof (choose_keeps_table (E ++ R) b (s3_path ++ "/" ++ key) k1) as T1.
  pose proof (choose_keeps_table (E ++ X ++ R) b (s3_path ++ "/" ++ key) k2)
    as T2.
  pose proof (choose_never_times_out (E ++ R) b (s3_path ++ "/" ++ key) k1)
    as N1.
  destruct (choose (E ++ R) b _ k1) as [k1' res1].
  destruct (choose (E ++ X ++ R) b _ k2) as [k2' res2].
  simpl in *. subst res2.
  destruct res1 as [g| e |]; [| right; simpl; eauto | congruence].
  left. exists (R ++ [file_dict b d (s3_path ++ "/" ++ key) g]). simpl.
  rewrite T1, T2, <- !app_assoc.
  do 4 (split; [reflexivity|]).
  intros row Hrow. apply in_app_iff in Hrow.
  destruct Hrow as [Hrow|[<-|[]]]; auto.
  simpl. repeat split; eauto.
Qed.

(** All keys of a burst, with and without the rows of other bursts. *)
Lemma partition_framed E X b (keys : list string) :
  foreign_rows b keys X ->
  (E = [] -> forall key1 key2, In key1 keys -> In key2 keys ->
             read (s3_path ++ "/" ++ key1)%string
             = read (s3_path ++ "/" ++ key2)%string) ->
  forall (todo : list string), incl todo keys ->
  forall R (o1 o2 : list string), own E b keys R ->
    let x1 := for_each todo (step b)
                {| validation_bursts_df := E ++ R; opened := o1 |} in
    let x2 := for_each todo (step b)
                {| validation_bursts_df := E ++ X ++ R; opened := o2 |} in
    (exists R',
        snd x1 = Returned tt /\ snd x2 = Returned tt /\
        validation_bursts_df (fst x1) = E ++ R' /\
        validation_bursts_df (fst x2) = E ++ X ++ R' /\
        own E b keys R') \/
    (exists e1 e2, snd x1 = Raised e1 /\ snd x2 = Raised e2).
Proof.
  intros HX Hconst todo.
  induction todo as [|key todo IH]; intros Hincl R o1 o2 HR; simpl.
  - left. exists R. auto.
  - unfold bind.
    destruct (step_framed E X R b keys key o1 o2 HX HR
                (Hincl key (or_introl eq_refl)) Hconst)
      as [[R' [H1 [H2 [D1 [D2 HR']]]]]|[e1 [e2 [H1 H2]]]].
    + destruct (step b key _) as [[df1 o1'] res1].
      destruct (step b key _) as [[df2 o2'] res2].
      simpl in *. subst.
      apply IH; auto. intros x Hx. apply Hincl. now right.
    + destruct (step b key _) as [k1' res1].
      destruct (step b key _) as [k2' res2].
      simpl in *. subst. right. simpl. eauto.
Qed.

Lemma skipn_own_length {A : Type} (l l' : list A) :
  skipn (List.length l) (l ++ l') = l'.
Proof. induction l; simpl; auto. Qed.

(** What [contribution] stands for in any run. *)
Lemma contribution_spec (fuel : nat) E (p : string * string)
      (keys : list string) :
  listing_of list_objects_v2 fuel p = Some keys ->
  (E = [] -> forall key1 key2, In key1 keys -> In key2 keys ->
             read (s3_path ++ "/" ++ key1)%string
             = read (s3_path ++ "/" ++ key2)%string) ->
  match contribution list_objects_v2 read_bounding_polygon fuel E p with
  | Some R =>
      own E (fst p) keys R /\
      forall X (o : list string),
        foreign_rows (fst p) keys X ->
        snd (for_each keys (step (fst p))
               {| validation_bursts_df := E ++ X; opened := o |})
        = Returned tt /\
        validation_bursts_df
          (fst (for_each keys (step (fst p))
                  {| validation_bursts_df := E ++ X; opened := o |}))
        = E ++ X ++ R
  | None =>
      forall X (o : list string),
        foreign_rows (fst p) keys X ->
        exists e,
          snd (for_each keys (step (fst p))
                 {| validation_bursts_df := E ++ X; opened := o |})
          = Raised e
  end.
Proof.
  intros Hkeys Hconst. unfold contribution. rewrite Hkeys.
  assert (own E (fst p) keys []) as Hnil by (intros r []).
  assert (forall X (o : list string),
             foreign_rows (fst p) keys X ->
             let x1 := for_each keys (step (fst p)) (start E) in
             let x2 := for_each keys (step (fst p))
                         {| validation_bursts_df := E ++ X; opened := o |} in
             (exists R',
                 snd x1 = Returned tt /\ snd x2 = Returned tt /\
                 validation_bursts_df (fst x1) = E ++ R' /\
                 validation_bursts_df (fst x2) = E ++ X ++ R' /\
                 own E (fst p) keys R') \/
             (exists e1 e2, snd x1 = Raised e1 /\ snd x2 = Raised e2))
    as Hframe.
  { intros X o HX.
    pose proof (partition_framed E X (fst p) keys HX Hconst keys
                  (incl_refl _) [] [] o Hnil) as H.
    rewrite !app_nil_r in H. exact H. }
  destruct (for_each keys (step (fst p)) (start E)) as [k0 [[]| e0 |]] eqn:E0;
    simpl in *.
  - destruct (Hframe [] [] ltac:(intros r [])) as
        [[R0 [_ [_ [D0 [_ HR0]]]]]|[e1 [e2 [H1 _]]]]; [|discriminate].
    rewrite D0, skipn_own_length. split; auto.
    intros X o HX.
    destruct (Hframe X o HX) as [[R' [_ [H2 [D1 [D2 _]]]]]|[e1 [e2 [H1 _]]]];
      [|discriminate].
    rewrite D0 in D1. apply app_inv_head in D1. subst R'. auto.
  - intros X o HX.
    destruct (Hframe X o HX) as [[R' [H1 _]]|[e1 [e2 [_ H2]]]];
      [discriminate|eauto].
  - exfalso.
    destruct (Hframe [] [] ltac:(intros r [])) as
        [[R0 [H1 _]]|[e1 [e2 [H1 _]]]]; discriminate.
Qed.

Lemma listed_keys_cons (fuel : nat) (p : string * string)
      (rest : list (string * string)) :
  listed_keys list_objects_v2 fuel (p :: rest)
  = match listing_of list_objects_v2 fuel p,
          listed_keys list_objects_v2 fuel rest with
    | Some keys, Some more => Some (map (pair (fst p)) keys ++ more)
    | _, _ => None
    end.
Proof. destruct p as [b cr_network]. reflexivity. Qed.

Lemma listed_keys_Some (fuel : nat) (parts : list (string * string)) :
  (exists jobs, listed_keys list_objects_v2 fuel parts = Some jobs) <->
  (forall p, In p parts -> listing_of list_objects_v2 fuel p <> None).
Proof.
  induction parts as [|p rest IH].
  - split; [intros _ p []|]. intros _. simpl. eauto.
  - rewrite listed_keys_cons. split.
    + intros [jobs H] q [<-|Hq].
      * destruct (listing_of list_objects_v2 fuel p); congruence.
      * apply (proj1 IH); auto.
        destruct (listing_of list_objects_v2 fuel p); [|discriminate].
        destruct (listed_keys list_objects_v2 fuel rest); [eauto|discriminate].
    + intros H.
      destruct (listing_of list_objects_v2 fuel p) eqn:Ep.
      * destruct (proj2 IH) as [more ->]; eauto.
        intros q Hq. apply H. now right.
      * exfalso. apply (H p); auto. now left.
Qed.

(** A run over bursts with distinct ids and disjoint listings appends, after
    the loaded table, the contributions of the bursts one after the
    other; it raises if one of them is missing. *)
Lemma run_as_contributions (fuel : nat) E :
  forall (parts jobs : list (string * string)),
    listed_keys list_objects_v2 fuel parts = Some jobs ->
    NoDup (map fst parts) ->
    (forall p q keys keys' key,
        In p parts -> In q parts ->
        listing_of list_objects_v2 fuel p = Some keys ->
        listing_of list_objects_v2 fuel q = Some keys' ->
        In key keys -> In key keys' -> p = q) ->
    (E = [] ->
     forall p keys key1 key2,
       In p parts -> listing_of list_objects_v2 fuel p = Some keys ->
       In key1 keys -> In key2 keys ->
       read (s3_path ++ "/" ++ key1)%string
       = read (s3_path ++ "/" ++ key2)%string) ->
    forall X (o : list string),
      (forall p keys, In p parts ->
                      listing_of list_objects_v2 fuel p = Some keys ->
                      foreign_rows (fst p) keys X) ->
      match all_some (map (contribution list_objects_v2 read_bounding_polygon
                             fuel E) parts) with
      | Some Rs =>
          snd (for_each jobs visit
                 {| validation_bursts_df := E ++ X; opened := o |})
          = Returned tt /\
          validation_bursts_df
            (fst (for_each jobs visit
                    {| validation_bursts_df := E ++ X; opened := o |}))
          = E ++ X ++ concat Rs
      | None =>
          exists e,
            snd (for_each jobs visit
                   {| validation_bursts_df := E ++ X; opened := o |})
            = Raised e
      end.
Proof.
  induction parts as [|p rest IH];
    intros jobs Hjobs Hnd Hdisj Hconst X o Hforeign.
  - simpl in *. injection Hjobs as <-. simpl. now rewrite app_nil_r.
  - rewrite listed_keys_cons in Hjobs.
    destruct (listing_of list_objects_v2 fuel p) as [keys|] eqn:Ekeys;
      [|discriminate].
    destruct (listed_keys list_objects_v2 fuel rest) as [more|] eqn:Emore;
      [|discriminate].
    injection Hjobs as <-.
    simpl in Hnd. inversion Hnd as [|? ? Hp Hnd']; subst.
    pose proof (contribution_spec fuel E p keys Ekeys
                  (fun HE key1 key2 => Hconst HE p keys key1 key2
                                              (or_introl eq_refl) Ekeys))
      as Hc.
    simpl map. simpl all_some.
    assert (forall k, for_each (map (pair (fst p)) keys ++ more) visit k
                      = bind (for_each keys (step (fst p)))
                             (fun _ => for_each more visit) k) as Hsplit.
    { intros k. rewrite for_each_app. unfold bind.
      now rewrite for_each_pair. }
    rewrite Hsplit. unfold bind.
    destruct (contribution list_objects_v2 read_bounding_polygon fuel E p)
      as [R|].
    + destruct Hc as [HR Hrun].
      destruct (Hrun X o (Hforeign p keys (or_introl eq_refl) Ekeys))
        as [Hres Hdf].
      destruct (for_each keys (step (fst p)) _) as [[df1 o1] res1].
      simpl in Hres, Hdf. subst res1 df1.
      assert (match
                 all_some (map (contribution list_objects_v2
                                  read_bounding_polygon fuel E) rest)
               with
               | Some Rs =>
                   snd (for_each more visit
                          {| validation_bursts_df := E ++ (X ++ R);
                             opened := o1 |}) = Returned tt /\
                   validation_bursts_df
                     (fst (for_each more visit
                             {| validation_bursts_df := E ++ (X ++ R);
                                opened := o1 |}))
                   = E ++ (X ++ R) ++ concat Rs
               | None =>
                   exists e,
                     snd (for_each more visit
                            {| validation_bursts_df := E ++ (X ++ R);
                               opened := o1 |}) = Raised e
               end) as Hrest.
      { apply IH; auto.
        - intros q q' ks ks' key Hq Hq'. apply Hdisj; now right.
        - intros HE q ks key1 key2 Hq. apply (Hconst HE q). now right.
        - intros q ks Hq Eks r Hr. apply in_app_iff in Hr.
          destruct Hr as [Hr|Hr].
          + apply (Hforeign q ks); auto. now right.
          + destruct (HR r Hr) as [Hb [[key [Hkey Hurl]] _]]. split.
            * rewrite Hb. intros Heq. apply Hp. rewrite Heq.
              now apply in_map.
            * intros key' Hkey' Heq. rewrite Hurl in Heq.
              apply url_of_key_inj in Heq. subst key'.
              assert (p = q) as ->
                  by (apply (Hdisj p q keys ks key); auto;
                      [now left | now right]).
              apply Hp. now apply in_map. }
      destruct (all_some _) as [Rs|]; simpl.
      * destruct Hrest as [Hres Hdf]. split; auto.
        rewrite Hdf, <- !app_assoc. reflexivity.
      * exact Hrest.
    + destruct (Hc X o (Hforeign p keys (or_introl eq_refl) Ekeys))
        as [e He].
      destruct (for_each keys (step (fst p)) _) as [k1 res1].
      simpl in He. subst res1. simpl. eauto.
Qed.

Lemma contribution_burst (fuel : nat) E (p : string * string) R :
  (E = [] ->
   forall keys key1 key2,
     listing_of list_objects_v2 fuel p = Some keys ->
     In key1 keys -> In key2 keys ->
     read (s3_path ++ "/" ++ key1)%string
     = read (s3_path ++ "/" ++ key2)%string) ->
  contribution list_objects_v2 read_bounding_polygon fuel E p = Some R ->
  forall r, In r R -> burst_id r = fst p.
Proof.
  intros Hconst HR r Hr.
  destruct (listing_of list_objects_v2 fuel p) as [keys|] eqn:Ekeys.
  - pose proof (contribution_spec fuel E p keys Ekeys
                  (fun HE key1 key2 => Hconst HE keys key1 key2 eq_refl))
      as Hc.
    rewrite HR in Hc. destruct Hc as [Hown _]. now apply Hown.
  - unfold contribution in HR. rewrite Ekeys in HR. discriminate.
Qed.

(** Permuting blocks of rows that belong to different bursts permutes what
    [drop_duplicates] keeps. *)
Lemma contributions_permuted (c : string * string -> option Frame)
      (parts parts' : list (string * string)) :
  Permutation parts parts' ->
  NoDup (map fst parts) ->
  (forall p R r, In p parts -> c p = Some R -> In r R ->
                 burst_id r = fst p) ->
  match all_some (map c parts), all_some (map c parts') with
  | Some Rs, Some Rs' =>
      forall seen, Permutation (drop_duplicates_from seen (concat Rs))
                               (drop_duplicates_from seen (concat Rs'))
  | None, None => True
  | _, _ => False
  end.
Proof.
  induction 1 as [|x l l' Hperm IH|x y l|l l' l'' H1 IH1 H2 IH2];
    intros Hnd Hb; simpl.
  - auto.
  - simpl in Hnd. inversion Hnd as [|? ? Hx Hnd']; subst.
    specialize (IH Hnd' (fun p R r Hp => Hb p R r (or_intror Hp))).
    destruct (c x) as [R|]; auto.
    destruct (all_some (map c l)), (all_some (map c l')); simpl; auto.
    intros seen. rewrite !drop_duplicates_from_app.
    apply Permutation_app_head. apply IH.
  - simpl in Hnd. inversion Hnd as [|? ? Hy Hnd']; subst.
    inversion Hnd' as [|? ? Hx Hnd'']; subst.
    pose proof (Hb y) as Hby. pose proof (Hb x) as Hbx.
    destruct (c y) as [Ry|], (c x) as [Rx|]; simpl; auto;
      destruct (all_some (map c l)) as [Rs|]; simpl; auto.
    intros seen. rewrite !drop_duplicates_from_app.
    assert (fst x <> fst y) as Hne
        by (intros Heq; apply Hy; left; auto).
    rewrite (drop_duplicates_from_ext_on Geometry
               (map row_key Ry ++ seen) seen Rx).
    2:{ intros key Hkey. rewrite in_app_iff. split; auto.
        intros [Hin|Hin]; auto. exfalso.
        apply in_map_iff in Hkey. destruct Hkey as [rx [<- Hrx]].
        apply in_map_iff in Hin. destruct Hin as [ry [Heq Hry]].
        apply Hne.
        rewrite <- (Hbx Rx rx (or_intror (or_introl eq_refl)) eq_refl Hrx).
        rewrite <- (Hby Ry ry (or_introl eq_refl) eq_refl Hry).
        unfold row_key in Heq. congruence. }
    rewrite (drop_duplicates_from_ext_on Geometry
               (map row_key Rx ++ seen) seen Ry).
    2:{ intros key Hkey. rewrite in_app_iff. split; auto.
        intros [Hin|Hin]; auto. exfalso.
        apply in_map_iff in Hkey. destruct Hkey as [ry [<- Hry]].
        apply in_map_iff in Hin. destruct Hin as [rx [Heq Hrx]].
        apply Hne.
        rewrite <- (Hbx Rx rx (or_intror (or_introl eq_refl)) eq_refl Hrx).
        rewrite <- (Hby Ry ry (or_introl eq_refl) eq_refl Hry).
        unfold row_key in Heq. congruence. }
    rewrite (drop_duplicates_from_ext Geometry
               (map row_key Rx ++ map row_key Ry ++ seen)
               (map row_key Ry ++ map row_key Rx ++ seen)).
    2:{ intros key. rewrite !in_app_iff. tauto. }
    apply Permutation_app_swap_app.
  - assert (NoDup (map fst l')) as Hnd'
        by (eapply Permutation_NoDup; [apply Permutation_map; exact H1|auto]).
    specialize (IH1 Hnd Hb).
    specialize (IH2 Hnd'
                  (fun p R r Hp =>
                     Hb p R r (Permutation_in _ (Permutation_sym H1) Hp))).
    destruct (all_some (map c l)), (all_some (map c l')),
      (all_some (map c l'')); auto; try contradiction.
    intros seen. etransitivity; [apply IH1|apply IH2].
Qed.

Lemma table_of_build (fuel : nat) E (parts jobs : list (string * string)) :
  listed_keys list_objects_v2 fuel parts = Some jobs ->
  table_of (build fuel E parts)
  = match snd (for_each jobs visit (start E)) with
    | Returned _ =>
        Some (save_validation_table
                (validation_bursts_df (fst (for_each jobs visit (start E)))))
    | _ => None
    end.
Proof.
  intros Hjobs. unfold buildCatalog.
  destruct (query_as_for_each _ list_objects_v2 read_bounding_polygon
              fuel parts jobs (start E) [] Hjobs) as [calls ->].
  destruct (for_each jobs visit (start E)) as [k [[]| e |]]; reflexivity.
Qed.

Lemma table_of_build_unlisted (fuel : nat) E (parts : list (string * string)) :
  listed_keys list_objects_v2 fuel parts = None ->
  table_of (build fuel E parts) = None.
Proof.
  intros Hnone. unfold buildCatalog.
  destruct (query fuel parts (start E) []) as [[k calls] [[]| e |]] eqn:Hq;
    auto.
  apply query_returned in Hq. destruct Hq as [jobs Hjobs]. congruence.
Qed.

(** C5, as amended.  Take rows of the burst file with pairwise different
    burst ids whose listings share no key and, when the loaded table is
    empty, a reader that gives one and the same result for all granules
    listed for a burst.  Then processing the rows in any two orders returns
    the same table: both runs return one, with the same rows in the same
    order, or neither does. *)
Theorem order_of_distinct_bursts_is_irrelevant
        (fuel : nat) (existing : Frame)
        (parts parts' : list (string * string)) :
  Permutation parts parts' ->
  NoDup (map fst parts) ->
  (forall p q keys keys' key,
      In p parts -> In q parts ->
      listing_of list_objects_v2 fuel p = Some keys ->
      listing_of list_objects_v2 fuel q = Some keys' ->
      In key keys -> In key keys' -> p = q) ->
  (existing = [] ->
   forall p keys key1 key2,
     In p parts -> listing_of list_objects_v2 fuel p = Some keys ->
     In key1 keys -> In key2 keys ->
     read (s3_path ++ "/" ++ key1)%string
     = read (s3_path ++ "/" ++ key2)%string) ->
  table_of (build fuel existing parts)
  = table_of (build fuel existing parts').
Proof.
  intros Hperm Hnd Hdisj Hconst.
  assert (Hin : forall p, In p parts' -> In p parts)
    by (intros p; apply Permutation_in; now symmetry).
  assert (Hnd' : NoDup (map fst parts'))
    by (eapply Permutation_NoDup; [apply Permutation_map; exact Hperm|auto]).
  destruct (listed_keys list_objects_v2 fuel parts) as [jobs|] eqn:Hjobs.
  - assert (exists jobs', listed_keys list_objects_v2 fuel parts' = Some jobs')
      as [jobs' Hjobs'].
    { apply listed_keys_Some. intros p Hp.
      apply (proj1 (listed_keys_Some fuel parts)); eauto. }
    rewrite (table_of_build fuel existing parts jobs Hjobs).
    rewrite (table_of_build fuel existing parts' jobs' Hjobs').
    pose proof (run_as_contributions fuel existing parts jobs Hjobs Hnd
                  Hdisj Hconst [] []
                  (fun p keys _ _ r (H : In r []) => match H with end)) as R1.
    pose proof (run_as_contributions fuel existing parts' jobs' Hjobs' Hnd'
                  (fun p q keys keys' key Hp Hq =>
                     Hdisj p q keys keys' key (Hin p Hp) (Hin q Hq))
                  (fun HE p keys key1 key2 Hp =>
                     Hconst HE p keys key1 key2 (Hin p Hp))
                  [] []
                  (fun p keys _ _ r (H : In r []) => match H with end)) as R2.
    pose proof (contributions_permuted
                  (contribution list_objects_v2 read_bounding_polygon
                     fuel existing)
                  parts parts' Hperm Hnd
                  (fun p R r Hp HR Hr =>
                     contribution_burst fuel existing p R
                       (fun HE keys key1 key2 =>
                          Hconst HE p keys key1 key2 Hp)
                       HR r Hr)) as HP.
    rewrite !app_nil_r in R1, R2. cbn [app] in R1, R2.
    fold (start existing) in R1, R2.
    destruct (all_some (map _ parts)) as [Rs|],
             (all_some (map _ parts')) as [Rs'|]; try contradiction.
    + destruct R1 as [-> ->], R2 as [-> ->]. f_equal.
      unfold save_validation_table, drop_duplicates.
      rewrite !drop_duplicates_from_app.
      apply sort_values_of_perm.
      * apply Permutation_app_head. apply HP.
      * rewrite <- drop_duplicates_from_app.
        apply drop_duplicates_from_NoDup.
    + destruct R1 as [e1 ->], R2 as [e2 ->]. reflexivity.
  - rewrite (table_of_build_unlisted fuel existing parts Hjobs).
    destruct (listed_keys list_objects_v2 fuel parts') as [jobs'|] eqn:Hjobs'.
    + exfalso.
      assert (exists jobs, listed_keys list_objects_v2 fuel parts = Some jobs)
        as [jobs Hj].
      { apply listed_keys_Some. intros p Hp.
        apply (proj1 (listed_keys_Some fuel parts')); eauto.
        eapply Permutation_in; eauto. }
      congruence.
    + now rewrite (table_of_build_unlisted fuel existing parts' Hjobs').
Qed.

End OrderFacts.

(** * Further properties of the code *)

(** ** Splitting strings *)

Lemma split_not_nil (c : ascii) (s : string) : Py.split c s <> [].
Proof.
  induction s as [|x s IH]; simpl; [discriminate|].
  destruct (Ascii.eqb x c); [discriminate|].
  destruct (Py.split c s); discriminate.
Qed.

Lemma split_free (c : ascii) (s : string) :
  Py.contains c s = false -> Py.split c s = [s].
Proof.
  induction s as [|x s IH]; simpl; auto.
  destruct (Ascii.eqb x c); simpl; [discriminate|].
  intros H. now rewrite (IH H).
Qed.

Lemma split_app_sep (c : ascii) (a b : string) :
  Py.split c (a ++ String c b)%string = Py.split c a ++ Py.split c b.
Proof.
  induction a as [|x a IH]; simpl.
  - now rewrite Ascii.eqb_refl.
  - destruct (Ascii.eqb x c); [now rewrite IH|].
    rewrite IH. pose proof (split_not_nil c a) as Hne.
    destruct (Py.split c a); [congruence|reflexivity].
Qed.

Lemma split_two (c : ascii) (s : string) :
  Py.contains c s = true -> 2 <= List.length (Py.split c s).
Proof.
  induction s as [|x s IH]; simpl; [discriminate|].
  destruct (Ascii.eqb x c); simpl.
  - intros _. pose proof (split_not_nil c s).
    destruct (Py.split c s); [congruence|simpl; lia].
  - intros H. specialize (IH H).
    destruct (Py.split c s); simpl in *; lia.
Qed.

Lemma contains_app (c : ascii) (a b : string) :
  Py.contains c (a ++ b)%string = Py.contains c a || Py.contains c b.
Proof.
  induction a as [|x a IH]; simpl; auto.
  now rewrite IH, orb_assoc.
Qed.

(** X4.  The date of a key is its second-to-last segment, whatever comes
    before: for a key [dir/d/f] in which neither [d] nor [f] contains a
    slash, it is [d]. *)
Theorem date_of_key_layout (dir d f : string) :
  Py.contains "/" d = false -> Py.contains "/" f = false ->
  date_of_key (dir ++ "/" ++ d ++ "/" ++ f)%string = Some d.
Proof.
  intros Hd Hf. unfold date_of_key, Py.neg_index.
  change (dir ++ "/" ++ d ++ "/" ++ f)%string
    with (dir ++ String "/" (d ++ String "/" f))%string.
  rewrite !split_app_sep, (split_free _ _ Hd), (split_free _ _ Hf).
  rewrite !rev_app_distr. reflexivity.
Qed.

Lemma date_of_key_None (key : string) :
  date_of_key key = None <-> Py.contains "/" key = false.
Proof.
  unfold date_of_key, Py.neg_index.
  change (2 - 1) with 1. split.
  - intros H. destruct (Py.contains "/" key) eqn:E; auto.
    apply split_two in E. apply nth_error_None in H.
    rewrite length_rev in H. lia.
  - intros H. now rewrite (split_free _ _ H).
Qed.

(** ** One page of a listing *)

Section SortedFacts.

Variable A : Type.
Variable key : A -> Z.

Local Abbreviation key_le := (fun a b : A => (key a <= key b)%Z).

Lemma insert_by_perm (x : A) (l : list A) :
  Permutation (Py.insert_by key x l) (x :: l).
Proof.
  induction l as [|y l IH]; simpl; auto.
  destruct (key x <=? key y)%Z; auto.
  rewrite IH. apply perm_swap.
Qed.

Lemma sorted_perm (l : list A) : Permutation (Py.sorted key l) l.
Proof.
  induction l as [|x l IH]; simpl; auto.
  rewrite insert_by_perm. now constructor.
Qed.

Lemma insert_by_sorted (x : A) (l : list A) :
  Sorted key_le l -> Sorted key_le (Py.insert_by key x l).
Proof.
  induction l as [|y l IH]; simpl; intros Hs.
  - repeat constructor.
  - destruct (key x <=? key y)%Z eqn:E.
    + constructor; auto. constructor. lia.
    + inversion Hs as [|? ? Hs' Hhd]; subst. constructor; auto.
      destruct l as [|z l]; simpl.
      * constructor. lia.
      * destruct (key x <=? key z)%Z; constructor; try lia.
        now inversion Hhd.
Qed.

Lemma sorted_sorted (l : list A) : Sorted key_le (Py.sorted key l).
Proof.
  induction l as [|x l IH]; simpl; [constructor|].
  now apply insert_by_sorted.
Qed.

(** Stability: the elements with one and the same key stay in order. *)
Lemma insert_by_stable (t : Z) (x : A) (l : list A) :
  filter (fun a => (key a =? t)%Z) (Py.insert_by key x l)
  = filter (fun a => (key a =? t)%Z) (x :: l).
Proof.
  induction l as [|y l IH]; simpl; auto.
  destruct (key x <=? key y)%Z eqn:E; simpl; auto.
  rewrite IH. simpl.
  destruct (key x =? t)%Z eqn:Ex, (key y =? t)%Z eqn:Ey; auto. lia.
Qed.

Lemma sorted_stable (t : Z) (l : list A) :
  filter (fun a => (key a =? t)%Z) (Py.sorted key l)
  = filter (fun a => (key a =? t)%Z) l.
Proof.
  induction l as [|x l IH]; simpl; auto.
  rewrite insert_by_stable. simpl. now rewrite IH.
Qed.

Lemma strongly_sorted_filter (R : A -> A -> Prop) (f : A -> bool)
      (l : list A) :
  StronglySorted R l -> StronglySorted R (filter f l).
Proof.
  induction 1 as [|x l Hs IH Hx]; simpl; [constructor|].
  destruct (f x); auto. constructor; auto.
  rewrite Forall_forall in *. intros y Hy. apply filter_In in Hy.
  now apply Hx.
Qed.

End SortedFacts.

Lemma filter_of_map {A B : Type} (f : B -> bool) (g : A -> B) (l : list A) :
  filter f (map g l) = map g (filter (fun a => f (g a)) l).
Proof.
  induction l as [|x l IH]; simpl; auto.
  destruct (f (g x)); simpl; now rewrite IH.
Qed.

Lemma filter_filter_swap {A : Type} (f g : A -> bool) (l : list A) :
  filter f (filter g l) = filter g (filter f l).
Proof.
  induction l as [|x l IH]; simpl; auto.
  destruct (f x) eqn:Ef, (g x) eqn:Eg; simpl; rewrite ?Ef, ?Eg, IH; auto.
Qed.

(** X1.  The keys of one page are yielded in ascending order of
    [LastModified]: they are the keys of the page's objects that end with
    the suffix, none lost and none added, ordered by time, and objects with
    the same time keep the order of the response. *)
Theorem page_keys_in_modification_order
        (suffix : string) (valid_results : list S3Object) :
  let wanted := fun obj => Py.endswith (Key obj) suffix in
  let ordered := filter wanted (Py.sorted LastModified valid_results) in
  page_keys suffix valid_results = map Key ordered /\
  Permutation ordered (filter wanted valid_results) /\
  StronglySorted (fun a b => (LastModified a <= LastModified b)%Z) ordered /\
  forall t,
    filter (fun obj => (LastModified obj =? t)%Z) ordered
    = filter (fun obj => (LastModified obj =? t)%Z)
             (filter wanted valid_results).
Proof.
  intros wanted ordered. unfold ordered, page_keys.
  split; [rewrite filter_of_map; reflexivity|]. split; [|split].
  - clear ordered.
    assert (forall l l' : list S3Object,
               Permutation l l' ->
               Permutation (filter wanted l) (filter wanted l')) as Hf.
    { induction 1; simpl; auto.
      - destruct (wanted x); auto.
      - destruct (wanted x), (wanted y); auto. apply perm_swap.
      - etransitivity; eauto. }
    apply Hf, sorted_perm.
  - apply strongly_sorted_filter. apply Sorted_StronglySorted.
    + intros a b c. lia.
    + apply sorted_sorted.
  - intros t. rewrite filter_filter_swap, sorted_stable.
    apply filter_filter_swap.
Qed.

(** ** The whole listing *)

Section ListingFacts.

Variable list_objects_v2 : ListRequest -> ListResponse.

Local Abbreviation keys_from := (get_matching_s3_keys_from list_objects_v2).
Local Abbreviation chain := (listing_chain list_objects_v2).
Local Abbreviation keys_of := (response_keys list_objects_v2).

(** X2.  Over a finite listing the generator yields exactly the keys that
    some response of the listing holds and that end with the suffix:
    nothing else, and none of them is left out. *)
Theorem yielded_keys_are_the_listed_ones
        (fuel : nat) (bucket prefix suffix burst_id version_num : string)
        (rest : list ListRequest) (keys : list string) :
  let kwargs := first_request bucket prefix burst_id in
  chain kwargs rest ->
  get_matching_s3_keys list_objects_v2 fuel
    bucket prefix suffix burst_id version_num = Some keys ->
  forall key,
    In key keys <->
    exists request valid_results obj,
      In request (kwargs :: rest) /\
      Contents (list_objects_v2 request) = Some valid_results /\
      In obj valid_results /\ Key obj = key /\
      Py.endswith key suffix = true.
Proof.
  intros kwargs Hc Hkeys key.
  assert (keys = flat_map (keys_of suffix) (kwargs :: rest)) as ->.
  { unfold get_matching_s3_keys in Hkeys. fold kwargs in Hkeys.
    destruct (keys_from_chain list_objects_v2 suffix rest kwargs
                (S (List.length rest)) Hc ltac:(lia)) as [Hk _].
    destruct (Nat.le_gt_cases fuel (List.length rest)) as [Hle|Hgt].
    - apply (keys_from_more_fuel list_objects_v2 suffix fuel kwargs keys
               (S (List.length rest))) in Hkeys; [|lia]. congruence.
    - destruct (keys_from_chain list_objects_v2 suffix rest kwargs
                  fuel Hc Hgt) as [Hk' _]. congruence. }
  rewrite in_flat_map. unfold response_keys, page_keys. split.
  - intros [request [Hreq Hin]].
    destruct (Contents (list_objects_v2 request)) as [objs|] eqn:Eobjs;
      [|contradiction].
    apply filter_In in Hin. destruct Hin as [Hin Hsuf].
    apply in_map_iff in Hin. destruct Hin as [obj [Hkey Hobj]].
    exists request, objs, obj. repeat split; auto.
    eapply Permutation_in; [apply sorted_perm|exact Hobj].
  - intros [request [objs [obj [Hreq [Eobjs [Hobj [Hkey Hsuf]]]]]]].
    exists request. split; auto. rewrite Eobjs.
    apply filter_In. split; auto. apply in_map_iff. exists obj. split; auto.
    eapply Permutation_in; [symmetry; apply sorted_perm|exact Hobj].
Qed.

Lemma endless_listing_keys
        (fuel : nat) (bucket prefix suffix burst_id version_num : string) :
  (forall kwargs, Contents (list_objects_v2 kwargs) <> None /\
                  NextContinuationToken (list_objects_v2 kwargs) <> None) ->
  get_matching_s3_keys list_objects_v2 fuel
    bucket prefix suffix burst_id version_num = None.
Proof.
  intros Hmore. unfold get_matching_s3_keys.
  generalize (first_request bucket prefix burst_id).
  induction fuel as [|fuel IH]; intros kwargs; simpl; auto.
  destruct (Hmore kwargs) as [Hc Ht].
  destruct (Contents (list_objects_v2 kwargs)); [|congruence].
  destruct (NextContinuationToken (list_objects_v2 kwargs)); [|congruence].
  now rewrite IH.
Qed.

End ListingFacts.

(** ** Invariants of a session *)

Section SessionFacts.

Variable Geometry : Type.
Variable list_objects_v2 : ListRequest -> ListResponse.
Variable read_bounding_polygon : string -> FetchError + Geometry.

Local Abbreviation Row := (CatalogRecord Geometry).
Local Abbreviation Frame := (DataFrame Geometry).
Local Abbreviation State := (Kernel Geometry).
Local Abbreviation step := (process_key read_bounding_polygon).
Local Abbreviation read := read_bounding_polygon.
Local Abbreviation for_key_in :=
  (for_key_in_get_matching_s3_keys list_objects_v2).
Local Abbreviation query :=
  (query_and_build list_objects_v2 read_bounding_polygon).
Local Abbreviation build :=
  (buildCatalog list_objects_v2 read_bounding_polygon).

Implicit Types (df : Frame) (r : Row) (k : State) (b key url : string).

(** *** Carrying a property through the loops, for listed keys only *)

Section CarryListed.

Variable bursts : list string.
Variable I : State -> Prop.
Variable F : PyException -> State -> Prop.

Hypothesis step_carries :
  forall b key k,
    In b bursts -> Py.endswith key suffix = true -> I k ->
    carried I F (fst (step b key k)) (snd (step b key k)).

Lemma for_each_carries_listed b (keys : list string) :
  In b bursts ->
  Forall (fun key => Py.endswith key suffix = true) keys ->
  forall k, I k ->
    carried I F (fst (for_each keys (step b) k))
                (snd (for_each keys (step b) k)).
Proof.
  intros Hb. induction keys as [|key keys IH]; intros Hs k Hk; simpl; auto.
  inversion Hs as [|? ? Hkey Hs']; subst.
  unfold bind. pose proof (step_carries b key k Hb Hkey Hk) as H.
  destruct (step b key k) as [k' [[]| e |]]; simpl in *; auto.
Qed.

Lemma for_key_in_carries_listed b (fuel : nat) :
  In b bursts ->
  forall (kwargs : ListRequest) k (calls : list ListRequest), I k ->
    carried I F (fst (fst (for_key_in fuel kwargs suffix (step b) k calls)))
                (snd (for_key_in fuel kwargs suffix (step b) k calls)).
Proof.
  intros Hb.
  induction fuel as [|fuel IH]; intros kwargs k calls Hk; simpl; auto.
  destruct (Contents (list_objects_v2 kwargs)) as [objs|]; simpl; auto.
  pose proof (for_each_carries_listed b (page_keys suffix objs) Hb
                (page_keys_endswith suffix objs) k Hk) as H.
  destruct (for_each (page_keys suffix objs) (step b) k) as [k' [[]| e |]];
    simpl in *; auto.
  destruct (NextContinuationToken (list_objects_v2 kwargs)); simpl; auto.
Qed.

Lemma query_carries_listed (fuel : nat) (df_val : list (string * string)) :
  (forall p, In p df_val -> In (fst p) bursts) ->
  forall k (calls : list ListRequest), I k ->
    carried I F (fst (fst (query fuel df_val k calls)))
                (snd (query fuel df_val k calls)).
Proof.
  induction df_val as [|[b cr_network] rest IH]; intros Hin k calls Hk;
    simpl; auto.
  pose proof (for_key_in_carries_listed b fuel
                (Hin (b, cr_network) (or_introl eq_refl))
                (first_request bucket (prefix ++ "/" ++ cr_network) b)
                k calls Hk) as H.
  destruct (for_key_in fuel _ suffix (step b) k calls)
    as [[k' calls'] [[]| e |]]; simpl in *; auto.
Qed.

End CarryListed.

(** *** The working table and the log of remote reads *)

Lemma step_well_extended (existing : Frame) (bursts : list string) b key k :
  In b bursts -> Py.endswith key suffix = true ->
  well_extended existing bursts k ->
  carried (well_extended existing bursts)
          (fun e k' => match e with
                       | FetchFailed _ =>
                           well_extended_but_last existing bursts k'
                       | _ => well_extended existing bursts k'
                       end)
          (fst (step b key k)) (snd (step b key k)).
Proof.
  intros Hb Hsuf Hk.
  assert (forall d g (o' : list string),
             ~ In (s3_path ++ "/" ++ key)%string
               (map cslc_url (validation_bursts_df k)) ->
             date_of_key key = Some d ->
             (o' = opened k \/
              o' = opened k ++ [(s3_path ++ "/" ++ key)%string]) ->
             well_extended existing bursts
               {| validation_bursts_df :=
                    validation_bursts_df k
                    ++ [file_dict b d (s3_path ++ "/" ++ key) g];
                  opened := o' |}) as Happend.
  { intros d g o' Hnew Hd Ho'.
    destruct Hk as [extra [Hdf [Hrows [Hnd [Hfresh [Hndo Hopen]]]]]].
    rewrite Hdf, map_app, in_app_iff in Hnew.
    exists (extra ++ [file_dict b d (s3_path ++ "/" ++ key) g]).
    cbn [validation_bursts_df opened].
    split; [now rewrite Hdf, app_assoc|].
    split; [|split; [|split; [|split]]].
    - intros x Hx. apply in_app_iff in Hx.
      destruct Hx as [Hx|[<-|[]]]; auto.
      split; [exact Hb|]. split; [reflexivity|]. exists key.
      cbn [cslc_url date file_dict]. rewrite Hd. auto.
    - rewrite map_app. simpl.
      apply Permutation_NoDup with (l := (s3_path ++ "/" ++ key)%string
                                          :: map cslc_url extra).
      + apply Permutation_cons_append.
      + constructor; [tauto|exact Hnd].
    - intros u Hu. rewrite map_app, in_app_iff in Hu. simpl in Hu.
      destruct Hu as [Hu|[<-|[]]]; auto.
    - destruct Ho' as [->| ->]; auto.
      apply Permutation_NoDup with (l := (s3_path ++ "/" ++ key)%string
                                          :: opened k).
      + apply Permutation_cons_append.
      + constructor; [|exact Hndo]. intros Hin. apply Hopen in Hin. tauto.
    - intros u Hu. rewrite map_app, in_app_iff. simpl.
      destruct Ho' as [->| ->]; auto.
      apply in_app_iff in Hu. destruct Hu as [Hu|[<-|[]]]; auto. }
  destruct (process_key_cases _ read_bounding_polygon b key k)
    as [[_ ->]|[[_ [_ ->]]|[[d [i [r [Hnew [Hd [_ [_ [_ ->]]]]]]]]
       |[[d [g [Hnew [Hd [_ [_ ->]]]]]]|[d [e [Hnew [_ [_ [_ ->]]]]]]]]]];
    cbn [fst snd carried].
  - exact Hk.
  - exact Hk.
  - apply Happend; auto.
  - apply Happend; auto.
  - exists (opened k), (s3_path ++ "/" ++ key)%string.
    destruct k as [df o]. cbn [validation_bursts_df opened] in *.
    split; [reflexivity|]. split; [exact Hnew|exact Hk].
Qed.

Lemma start_well_extended (existing : Frame) (bursts : list string) :
  well_extended existing bursts (start existing).
Proof.
  exists []. simpl. rewrite app_nil_r.
  split; [reflexivity|]. split; [intros r []|]. split; [constructor|].
  split; [intros u []|]. split; [constructor|intros u []].
Qed.

(** What holds of the session after the loops, however they ended. *)
Lemma query_well_extended (fuel : nat) (existing : Frame)
      (df_val : list (string * string)) :
  let x := query fuel df_val (start existing) [] in
  match snd x with
  | Raised (FetchFailed _) =>
      well_extended_but_last existing (map fst df_val) (fst (fst x))
  | _ => well_extended existing (map fst df_val) (fst (fst x))
  end.
Proof.
  intros x.
  pose proof (query_carries_listed (map fst df_val) _ _
                (step_well_extended existing (map fst df_val))
                fuel df_val
                (fun p Hp => in_map fst df_val p Hp)
                (start existing) []
                (start_well_extended existing (map fst df_val))) as H.
  fold x in H. unfold carried in H.
  destruct (snd x) as [[]| [| | |e] |]; exact H.
Qed.

Lemma well_extended_of_last (existing : Frame) (bursts : list string) k :
  well_extended_but_last existing bursts k ->
  exists extra,
    validation_bursts_df k = existing ++ extra /\
    (forall r, In r extra -> written_row bursts r) /\
    NoDup (map cslc_url extra) /\
    (forall u, In u (map cslc_url extra) ->
               ~ In u (map cslc_url existing)) /\
    NoDup (opened k) /\
    (forall u, In u (opened k) -> ~ In u (map cslc_url existing)).
Proof.
  intros [o [u [Ho [Hnew
    [extra [Hdf [Hrows [Hnd [Hfresh [Hndo Hopen]]]]]]]]]].
  cbn [validation_bursts_df opened] in *.
  exists extra. rewrite Hdf, map_app, in_app_iff in Hnew.
  do 4 (split; [assumption|]). rewrite Ho. split.
  - apply Permutation_NoDup with (l := u :: o).
    + apply Permutation_cons_append.
    + constructor; [|exact Hndo]. intros Hin. apply Hopen in Hin. tauto.
  - intros v Hv. apply in_app_iff in Hv.
    destruct Hv as [Hv|[<-|[]]]; [|tauto]. apply Hfresh. now apply Hopen.
Qed.

Lemma query_extended (fuel : nat) (existing : Frame)
      (df_val : list (string * string)) :
  let k := fst (fst (query fuel df_val (start existing) [])) in
  exists extra,
    validation_bursts_df k = existing ++ extra /\
    (forall r, In r extra -> written_row (map fst df_val) r) /\
    NoDup (map cslc_url extra) /\
    (forall u, In u (map cslc_url extra) ->
               ~ In u (map cslc_url existing)) /\
    NoDup (opened k) /\
    (forall u, In u (opened k) -> ~ In u (map cslc_url existing)).
Proof.
  intros k. pose proof (query_well_extended fuel existing df_val) as H.
  simpl in H. fold k in H.
  assert (well_extended existing (map fst df_val) k ->
          exists extra,
            validation_bursts_df k = existing ++ extra /\
            (forall r, In r extra -> written_row (map fst df_val) r) /\
            NoDup (map cslc_url extra) /\
            (forall u, In u (map cslc_url extra) ->
                       ~ In u (map cslc_url existing)) /\
            NoDup (opened k) /\
            (forall u, In u (opened k) -> ~ In u (map cslc_url existing)))
    as Hw.
  { intros [extra [Hdf [Hrows [Hnd [Hfresh [Hndo Hopen]]]]]].
    exists extra. do 5 (split; [assumption|]).
    intros u Hu. apply Hfresh. now apply Hopen. }
  destruct (snd (query fuel df_val (start existing) []))
    as [[]| [| | |e] |]; auto.
  now apply well_extended_of_last.
Qed.

(** The loops only ever append to the working table: however they
    end (returning, raising or out of budget), the table then starts with
    the loaded rows, unchanged and in their order. *)
Lemma working_table_only_grows
        (fuel : nat) (existing : Frame) (df_val : list (string * string)) :
  exists extra,
    validation_bursts_df (fst (fst (query fuel df_val (start existing) [])))
    = existing ++ extra.
Proof.
  destruct (query_extended fuel existing df_val) as [extra [Hdf _]]. eauto.
Qed.

(** X5.  No URL is recorded twice: if the URLs of the loaded table are
    pairwise different, so are those of the working table after the loops,
    however they end. *)
Theorem urls_stay_distinct
        (fuel : nat) (existing : Frame) (df_val : list (string * string)) :
  NoDup (map cslc_url existing) ->
  NoDup (map cslc_url
           (validation_bursts_df
              (fst (fst (query fuel df_val (start existing) []))))).
Proof.
  intros Hnd.
  destruct (query_extended fuel existing df_val)
    as [extra [Hdf [_ [Hnd' [Hfresh _]]]]].
  rewrite Hdf, map_app.
  apply NoDup_app; auto. intros u Hu Hu'. now apply (Hfresh u).
Qed.

(** X6.  No granule is opened twice in a session, and none that the loaded
    table already records; when the loops return, every granule that was
    opened has its row in the working table. *)
Theorem no_granule_is_opened_twice
        (fuel : nat) (existing : Frame) (df_val : list (string * string)) :
  let x := query fuel df_val (start existing) [] in
  NoDup (opened (fst (fst x))) /\
  (forall url, In url (opened (fst (fst x))) ->
               ~ In url (map cslc_url existing)) /\
  (snd x = Returned tt ->
   forall url, In url (opened (fst (fst x))) ->
               In url (map cslc_url (validation_bursts_df (fst (fst x))))).
Proof.
  intros x.
  destruct (query_extended fuel existing df_val)
    as [extra [_ [_ [_ [_ [Hndo Hfresh]]]]]].
  split; [exact Hndo|]. split; [exact Hfresh|].
  intros Hret url Hu.
  pose proof (query_well_extended fuel existing df_val) as H.
  simpl in H. fold x in H. rewrite Hret in H.
  destruct H as [extra' [Hdf [_ [_ [_ [_ Hopen]]]]]].
  rewrite Hdf, map_app, in_app_iff. right. now apply Hopen.
Qed.

(** *** Reusing a loaded geometry *)

Lemma first_true_find {A : Type} (f : A -> bool) (l : list A) :
  forall i, Py.first_true (map f l) = Some i -> find f l = nth_error l i.
Proof.
  induction l as [|x l IH]; simpl; intros i H; [discriminate|].
  destruct (f x).
  - now injection H as <-.
  - destruct (Py.first_true (map f l)) as [i'|]; [|discriminate].
    injection H as <-. now apply IH.
Qed.

Lemma idx_geo_later r0 (rest : Frame) b :
  burst_id r0 <> b -> (exists r, In r rest /\ burst_id r = b) ->
  exists i r1,
    idx_geo (r0 :: rest) b = Py.Label (S i) /\
    nth_error (r0 :: rest) (S i) = Some r1 /\
    find (fun x => String.eqb (burst_id x) b) (r0 :: rest) = Some r1.
Proof.
  intros Hne [r [Hr Hb]].
  destruct (idx_geo rest b) as [i|] eqn:Ei.
  2:{ exfalso. apply (proj1 (idx_geo_PyFalse _ rest b) Ei r Hr Hb). }
  destruct (idx_geo_Label _ _ _ _ Ei) as [r1 [Hr1 _]].
  unfold idx_geo, Py.next_iter_or_False, geom_check in *.
  destruct (Py.first_true (map _ rest)) as [i'|] eqn:Ef; [|discriminate].
  injection Ei as ->.
  exists i, r1. simpl.
  rewrite (proj2 (String.eqb_neq _ _) Hne), Ef. simpl.
  repeat split; auto.
  now rewrite (first_true_find _ rest i Ef).
Qed.

(** X8.  The reuse of a geometry works for every burst but that of the
    first row: when the first row of the table is of another burst and some
    later row is of burst [b], the loop body opens no granule for a key of
    [b], and a new key gets a row with the geometry of the first row of
    [b]. *)
Theorem known_burst_is_not_read_again
        r0 (rest : Frame) b key (o : list string) :
  let url := (s3_path ++ "/" ++ key)%string in
  let k := {| validation_bursts_df := r0 :: rest; opened := o |} in
  burst_id r0 <> b ->
  (exists r, In r rest /\ burst_id r = b) ->
  opened (fst (step b key k)) = o /\
  forall d,
    ~ In url (map cslc_url (r0 :: rest)) -> date_of_key key = Some d ->
    exists r1,
      find (fun x => String.eqb (burst_id x) b) (r0 :: rest) = Some r1 /\
      step b key k
      = ({| validation_bursts_df :=
              (r0 :: rest) ++ [file_dict b d url (geometry r1)];
            opened := o |}, Returned tt).
Proof.
  intros url k Hne Hsome.
  destruct (idx_geo_later r0 rest b Hne Hsome) as [i [r1 [Hi [Hn Hf]]]].
  destruct (process_key_cases _ read_bounding_polygon b key k)
    as [[Hin E]|[[Hnew [Hd E]]|[[d' [i' [r' [Hnew [Hd [Hi' [Hn' [_ E]]]]]]]]
       |[[d' [g [_ [_ [Hz _]]]]]|[d' [e [_ [_ [Hz _]]]]]]]]];
    cbn [validation_bursts_df opened k] in *;
    try (rewrite Hi in Hz; discriminate).
  - rewrite E. split; auto. intros d Hnew. contradiction.
  - rewrite E. split; auto. intros d _ Hd'. congruence.
  - rewrite E. split; auto. intros d _ Hd'.
    assert (i' = i) as -> by congruence.
    assert (r' = r1) as -> by congruence.
    assert (d' = d) as -> by congruence.
    exists r1. auto.
Qed.

Lemma step_reused_only (existing : Frame) (bursts : list string) :
  (forall b', In b' bursts ->
              exists i r1,
                idx_geo existing b' = Py.Label (S i) /\
                nth_error existing (S i) = Some r1 /\
                find (fun x => String.eqb (burst_id x) b') existing
                = Some r1) ->
  forall b key k,
    In b bursts -> Py.endswith key suffix = true ->
    reused_only existing k ->
    carried (reused_only existing)
            (fun e k' => reused_only existing k' /\ e = IndexError)
            (fst (step b key k)) (snd (step b key k)).
Proof.
  intros Hknown b key k Hb _ [Ho [extra [Hdf Hgeo]]].
  destruct (Hknown b Hb) as [i [r1 [Hi [Hn Hf]]]].
  assert (idx_geo (validation_bursts_df k) b = Py.Label (S i)) as Hi'
      by (rewrite Hdf, idx_geo_app, Hi; reflexivity).
  assert (nth_error (validation_bursts_df k) (S i) = Some r1) as Hn'.
  { rewrite Hdf, nth_error_app1; auto.
    apply nth_error_Some. congruence. }
  destruct (process_key_cases _ read_bounding_polygon b key k)
    as [[_ ->]|[[_ [_ ->]]|[[d [j [r [_ [_ [Hj [Hr [_ ->]]]]]]]]
       |[[d [g [_ [_ [Hz _]]]]]|[d [e [_ [_ [Hz _]]]]]]]]];
    cbn [fst snd carried];
    try (rewrite Hi' in Hz; discriminate).
  - split; eauto.
  - split; [split; eauto|reflexivity].
  - assert (j = i) as -> by congruence.
    assert (r = r1) as -> by congruence.
    split; [exact Ho|].
    exists (extra ++ [file_dict b d (s3_path ++ "/" ++ key) (geometry r1)]).
    cbn [validation_bursts_df]. split; [now rewrite Hdf, app_assoc|].
    intros x Hx. apply in_app_iff in Hx.
    destruct Hx as [Hx|[<-|[]]]; auto.
    exists r1. auto.
Qed.

(** X9.  A session on bursts that all have a loaded row, none of them the
    burst of the table's first row, opens no granule at all and so cannot
    stop on a failed read: every row it writes carries the geometry of the
    first loaded row of its burst. *)
Theorem known_bursts_need_no_read
        (fuel : nat) r0 (rest : Frame) (df_val : list (string * string)) :
  (forall p, In p df_val ->
             burst_id r0 <> fst p /\
             exists r, In r rest /\ burst_id r = fst p) ->
  let x := query fuel df_val (start (r0 :: rest)) [] in
  reused_only (r0 :: rest) (fst (fst x)) /\
  forall e, snd x <> Raised (FetchFailed e).
Proof.
  intros Hknown x.
  assert (forall b', In b' (map fst df_val) ->
                     exists i r1,
                       idx_geo (r0 :: rest) b' = Py.Label (S i) /\
                       nth_error (r0 :: rest) (S i) = Some r1 /\
                       find (fun x => String.eqb (burst_id x) b')
                            (r0 :: rest) = Some r1) as Hidx.
  { intros b' Hb'. apply in_map_iff in Hb'. destruct Hb' as [p [<- Hp]].
    destruct (Hknown p Hp) as [Hne Hsome]. now apply idx_geo_later. }
  pose proof (query_carries_listed (map fst df_val) _ _
                (step_reused_only (r0 :: rest) (map fst df_val) Hidx)
                fuel df_val
                (fun p Hp => in_map fst df_val p Hp)
                (start (r0 :: rest)) []) as H.
  fold x in H. unfold carried in H.
  assert (reused_only (r0 :: rest) (start (r0 :: rest))) as Hstart.
  { split; [reflexivity|]. exists []. simpl. rewrite app_nil_r.
    split; auto. intros r []. }
  specialize (H Hstart).
  destruct (snd x) as [[]| e |].
  - split; [exact H|discriminate].
  - destruct H as [H ->]. split; [exact H|discriminate].
  - split; [exact H|discriminate].
Qed.

(** *** The listing requests *)

Lemma string_app_assoc (a b c : string) :
  ((a ++ b) ++ c)%string = (a ++ (b ++ c))%string.
Proof. induction a as [|x a IH]; simpl; congruence. Qed.

Lemma for_key_in_calls (suffix : string) (body : string -> M Geometry unit)
      (fuel : nat) :
  forall (kwargs : ListRequest) k (calls : list ListRequest),
  exists new,
    snd (fst (for_key_in fuel kwargs suffix body k calls)) = calls ++ new /\
    forall req, In req new ->
      Bucket req = Bucket kwargs /\ Prefix req = Prefix kwargs /\
      (req = kwargs \/
       exists req', In req' new /\
                    ContinuationToken req <> None /\
                    NextContinuationToken (list_objects_v2 req')
                    = ContinuationToken req).
Proof.
  induction fuel as [|fuel IH]; intros kwargs k calls; simpl.
  - exists []. rewrite app_nil_r. split; auto. intros req [].
  - assert (forall req, In req [kwargs] ->
              Bucket req = Bucket kwargs /\ Prefix req = Prefix kwargs /\
              (req = kwargs \/
               exists req', In req' [kwargs] /\
                            ContinuationToken req <> None /\
                            NextContinuationToken (list_objects_v2 req')
                            = ContinuationToken req)) as Hone
        by (intros req [<-|[]]; auto).
    destruct (Contents (list_objects_v2 kwargs)) as [objs|];
      [|exists [kwargs]; simpl; auto].
    destruct (for_each (page_keys suffix objs) body k) as [k' [[]| e |]];
      try (exists [kwargs]; simpl; auto; fail).
    destruct (NextContinuationToken (list_objects_v2 kwargs)) as [tok|] eqn:Et;
      [|exists [kwargs]; simpl; auto].
    destruct (IH (with_token kwargs tok) k' (calls ++ [kwargs]))
      as [new [Hnew Hall]].
    exists (kwargs :: new). rewrite Hnew, <- app_assoc. split; auto.
    intros req [<-|Hreq]; [auto|].
    destruct (Hall req Hreq) as [HB [HP Htok]].
    split; [exact HB|]. split; [exact HP|]. right.
    destruct Htok as [->|[req' [Hin' [Hne Heq]]]].
    + exists kwargs. simpl. rewrite Et. repeat split; auto. discriminate.
    + exists req'. simpl. auto.
Qed.

(** X10.  Every listing request of a run goes to the configured bucket,
    under the prefix of a row of the burst file, and carries either no
    continuation token or one that the response to an earlier request of
    the run returned. *)
Theorem requests_stay_under_the_prefix
        (fuel : nat) (existing : Frame) (df_val : list (string * string))
        (req : ListRequest) :
  let log := snd (fst (build fuel existing df_val)) in
  In req log ->
  Bucket req = bucket /\
  (exists p, In p df_val /\
             Prefix req
             = (prefix ++ "/" ++ snd p ++ "/" ++ fst p ++ "/20")%string) /\
  (ContinuationToken req = None \/
   exists req', In req' log /\
                NextContinuationToken (list_objects_v2 req')
                = ContinuationToken req).
Proof.
  assert (forall (df_val : list (string * string)) k
                 (calls : list ListRequest),
             exists new,
               snd (fst (query fuel df_val k calls)) = calls ++ new /\
               forall req, In req new ->
                 Bucket req = bucket /\
                 (exists p, In p df_val /\
                            Prefix req
                            = (prefix ++ "/" ++ snd p ++ "/" ++ fst p
                                      ++ "/20")%string) /\
                 (ContinuationToken req = None \/
                  exists req', In req' new /\
                               NextContinuationToken (list_objects_v2 req')
                               = ContinuationToken req)) as Hq.
  { clear df_val req.
    induction df_val as [|[b cr_network] rest IH]; intros k calls; simpl.
    - exists []. rewrite app_nil_r. split; auto. intros req [].
    - destruct (for_key_in_calls suffix (step b) fuel
                  (first_request bucket (prefix ++ "/" ++ cr_network) b)
                  k calls) as [new1 [Hnew1 Hall1]].
      assert (forall req, In req new1 ->
                Bucket req = bucket /\
                (exists p, In p ((b, cr_network) :: rest) /\
                           Prefix req
                           = (prefix ++ "/" ++ snd p ++ "/" ++ fst p
                                     ++ "/20")%string) /\
                (ContinuationToken req = None \/
                 exists req', In req' new1 /\
                              NextContinuationToken (list_objects_v2 req')
                              = ContinuationToken req)) as Hall1'.
      { intros req Hreq. destruct (Hall1 req Hreq) as [HB [HP Htok]].
        split; [exact HB|]. split.
        - exists (b, cr_network). split; [now left|].
          rewrite HP. unfold first_request. cbn [Prefix fst snd].
          rewrite string_app_assoc. reflexivity.
        - destruct Htok as [->|[req' [Hin' [_ Heq]]]]; [now left|].
          right. eauto. }
      destruct (for_key_in fuel _ suffix (step b) k calls)
        as [[k1 calls1] [[]| e |]]; simpl in *;
        try (exists new1; split; auto; fail).
      destruct (IH k1 calls1) as [new2 [Hnew2 Hall2]].
      exists (new1 ++ new2). rewrite Hnew2, Hnew1, <- app_assoc.
      split; auto. intros req Hreq. apply in_app_iff in Hreq.
      destruct Hreq as [Hreq|Hreq].
      + destruct (Hall1' req Hreq) as [HB [HP Htok]].
        split; [exact HB|]. split; [exact HP|].
        destruct Htok as [Hn|[req' [Hin' Heq]]]; [now left|].
        right. exists req'. rewrite in_app_iff. auto.
      + destruct (Hall2 req Hreq) as [HB [[p [Hp HP]] Htok]].
        split; [exact HB|]. split; [exists p; split; [now right|exact HP]|].
        destruct Htok as [Hn|[req' [Hin' Heq]]]; [now left|].
        right. exists req'. rewrite in_app_iff. auto. }
  intros log Hin. unfold log, buildCatalog in Hin.
  destruct (Hq df_val (start existing) []) as [new [Hnew Hall]].
  assert (snd (fst (build fuel existing df_val))
          = snd (fst (query fuel df_val (start existing) []))) as Hlog.
  { unfold buildCatalog.
    destruct (query fuel df_val (start existing) [])
      as [[k calls] [[]| e |]]; reflexivity. }
  unfold log in *. unfold buildCatalog in Hin. fold build in Hlog.
  assert (In req new) as Hreq.
  { destruct (query fuel df_val (start existing) [])
      as [[k calls] [[]| e |]]; simpl in *; subst calls; exact Hin. }
  rewrite Hlog, Hnew. simpl. now apply Hall.
Qed.

(** *** Where the rows come from *)

Lemma page_keys_In (suffix : string) (objs : list S3Object) (key : string) :
  In key (page_keys suffix objs) ->
  exists obj, In obj objs /\ Key obj = key /\ Py.endswith key suffix = true.
Proof.
  unfold page_keys. intros Hin.
  apply filter_In in Hin. destruct Hin as [Hin Hsuf].
  apply in_map_iff in Hin. destruct Hin as [obj [Hkey Hobj]].
  exists obj. repeat split; auto.
  eapply Permutation_in; [apply sorted_perm|exact Hobj].
Qed.

Lemma step_rows b key k :
  exists new,
    validation_bursts_df (fst (step b key k)) = validation_bursts_df k ++ new /\
    forall r, In r new ->
      burst_id r = b /\ cslc_static_url r = None /\
      cslc_url r = (s3_path ++ "/" ++ key)%string /\
      exists d, date_of_key key = Some d /\ date r = Py.Str d.
Proof.
  destruct (process_key_cases _ read_bounding_polygon b key k)
    as [[_ ->]|[[_ [_ ->]]|[[d [i [r' [_ [Hd [_ [_ [_ ->]]]]]]]]
       |[[d [g [_ [Hd [_ [_ ->]]]]]]|[d [e [_ [_ [_ [_ ->]]]]]]]]]];
    cbn [fst validation_bursts_df].
  1, 2, 5: exists []; rewrite app_nil_r; split; [reflexivity|intros r []].
  all: eexists; split; [reflexivity|]; intros r [<-|[]];
    cbn [burst_id cslc_static_url cslc_url date file_dict]; eauto 6.
Qed.

Lemma for_each_rows b (keys : list string) :
  forall k,
  exists new,
    validation_bursts_df (fst (for_each keys (step b) k))
    = validation_bursts_df k ++ new /\
    forall r, In r new ->
      burst_id r = b /\ cslc_static_url r = None /\
      exists key d,
        In key keys /\ cslc_url r = (s3_path ++ "/" ++ key)%string /\
        date_of_key key = Some d /\ date r = Py.Str d.
Proof.
  induction keys as [|key keys IH]; intros k; simpl.
  - exists []. rewrite app_nil_r. split; [reflexivity|intros r []].
  - unfold bind. destruct (step_rows b key k) as [new1 [Hdf1 Hrows1]].
    assert (forall r, In r new1 ->
              burst_id r = b /\ cslc_static_url r = None /\
              exists key' d,
                In key' (key :: keys) /\
                cslc_url r = (s3_path ++ "/" ++ key')%string /\
                date_of_key key' = Some d /\ date r = Py.Str d) as Hrows1'.
    { intros r Hr. destruct (Hrows1 r Hr) as [Hb [Hs [Hu [d [Hd Hdate]]]]].
      split; [exact Hb|]. split; [exact Hs|]. exists key, d. simpl. auto. }
    destruct (step b key k) as [k1 [[]| e |]]; cbn [fst] in *;
      try (exists new1; split; [exact Hdf1|exact Hrows1']).
    destruct (IH k1) as [new2 [Hdf2 Hrows2]].
    exists (new1 ++ new2). split; [now rewrite Hdf2, Hdf1, app_assoc|].
    intros r Hr. apply in_app_iff in Hr. destruct Hr as [Hr|Hr]; auto.
    destruct (Hrows2 r Hr) as [Hb [Hs [key' [d [Hin [Hu [Hd Hdate]]]]]]].
    split; [exact Hb|]. split; [exact Hs|]. exists key', d. simpl. auto.
Qed.

Lemma for_key_in_rows b (fuel : nat) :
  forall (kwargs : ListRequest) k (calls : list ListRequest),
  exists new sent,
    validation_bursts_df
      (fst (fst (for_key_in fuel kwargs suffix (step b) k calls)))
    = validation_bursts_df k ++ new /\
    snd (fst (for_key_in fuel kwargs suffix (step b) k calls))
    = calls ++ sent /\
    forall r, In r new ->
      burst_id r = b /\ cslc_static_url r = None /\
      exists request valid_results obj d,
        In request sent /\ Prefix request = Prefix kwargs /\
        Contents (list_objects_v2 request) = Some valid_results /\
        In obj valid_results /\
        Py.endswith (Key obj) suffix = true /\
        cslc_url r = (s3_path ++ "/" ++ Key obj)%string /\
        date_of_key (Key obj) = Some d /\ date r = Py.Str d.
Proof.
  induction fuel as [|fuel IH]; intros kwargs k calls; simpl.
  - exists [], []. rewrite !app_nil_r.
    split; [reflexivity|]. split; [reflexivity|]. intros r [].
  - destruct (Contents (list_objects_v2 kwargs)) as [objs|] eqn:Eobjs.
    2:{ exists [], [kwargs]. rewrite app_nil_r. cbn [fst snd].
        split; [reflexivity|]. split; [reflexivity|]. intros r []. }
    destruct (for_each_rows b (page_keys suffix objs) k)
      as [new1 [Hdf1 Hrows1]].
    assert (forall r, In r new1 ->
              burst_id r = b /\ cslc_static_url r = None /\
              exists request valid_results obj d,
                In request [kwargs] /\ Prefix request = Prefix kwargs /\
                Contents (list_objects_v2 request) = Some valid_results /\
                In obj valid_results /\
                Py.endswith (Key obj) suffix = true /\
                cslc_url r = (s3_path ++ "/" ++ Key obj)%string /\
                date_of_key (Key obj) = Some d /\ date r = Py.Str d)
      as Hrows1'.
    { intros r Hr.
      destruct (Hrows1 r Hr) as [Hb [Hs [key [d [Hin [Hu [Hd Hdate]]]]]]].
      destruct (page_keys_In _ _ _ Hin) as [obj [Hobj [<- Hsuf]]].
      split; [exact Hb|]. split; [exact Hs|].
      exists kwargs, objs, obj, d. simpl. auto 10. }
    destruct (for_each (page_keys suffix objs) (step b) k)
      as [k1 [[]| e |]]; cbn [fst snd] in *;
      try (exists new1, [kwargs]; split; [exact Hdf1|];
           split; [reflexivity|exact Hrows1']).
    destruct (NextContinuationToken (list_objects_v2 kwargs)) as [tok|];
      cbn [fst snd];
      [|exists new1, [kwargs]; split; [exact Hdf1|];
        split; [reflexivity|exact Hrows1']].
    destruct (IH (with_token kwargs tok) k1 (calls ++ [kwargs]))
      as [new2 [sent2 [Hdf2 [Hsent2 Hrows2]]]].
    exists (new1 ++ new2), (kwargs :: sent2).
    split; [now rewrite Hdf2, Hdf1, app_assoc|].
    split; [now rewrite Hsent2, <- app_assoc|].
    intros r Hr. apply in_app_iff in Hr. destruct Hr as [Hr|Hr].
    + destruct (Hrows1' r Hr)
        as [Hb [Hs [request [vr [obj [d [Hreq H]]]]]]].
      split; [exact Hb|]. split; [exact Hs|].
      exists request, vr, obj, d. split; [|exact H].
      destruct Hreq as [<-|[]]. now left.
    + destruct (Hrows2 r Hr)
        as [Hb [Hs [request [vr [obj [d [Hreq [Hp H]]]]]]]].
      split; [exact Hb|]. split; [exact Hs|].
      exists request, vr, obj, d. split; [now right|]. split; [|exact H].
      rewrite Hp. reflexivity.
Qed.

Lemma query_rows (fuel : nat) (df_val : list (string * string)) :
  forall k (calls : list ListRequest),
  exists new sent,
    validation_bursts_df (fst (fst (query fuel df_val k calls)))
    = validation_bursts_df k ++ new /\
    snd (fst (query fuel df_val k calls)) = calls ++ sent /\
    forall r, In r new ->
      cslc_static_url r = None /\
      exists p request valid_results obj d,
        In p df_val /\ burst_id r = fst p /\
        In request sent /\
        Prefix request
        = (prefix ++ "/" ++ snd p ++ "/" ++ fst p ++ "/20")%string /\
        Contents (list_objects_v2 request) = Some valid_results /\
        In obj valid_results /\
        Py.endswith (Key obj) suffix = true /\
        cslc_url r = (s3_path ++ "/" ++ Key obj)%string /\
        date_of_key (Key obj) = Some d /\ date r = Py.Str d.
Proof.
  induction df_val as [|[b cr_network] rest IH]; intros k calls; simpl.
  - exists [], []. rewrite !app_nil_r.
    split; [reflexivity|]. split; [reflexivity|]. intros r [].
  - destruct (for_key_in_rows b fuel
                (first_request bucket (prefix ++ "/" ++ cr_network) b)
                k calls) as [new1 [sent1 [Hdf1 [Hsent1 Hrows1]]]].
    assert (forall r, In r new1 ->
              cslc_static_url r = None /\
              exists p request valid_results obj d,
                In p ((b, cr_network) :: rest) /\ burst_id r = fst p /\
                In request sent1 /\
                Prefix request
                = (prefix ++ "/" ++ snd p ++ "/" ++ fst p ++ "/20")%string /\
                Contents (list_objects_v2 request) = Some valid_results /\
                In obj valid_results /\
                Py.endswith (Key obj) suffix = true /\
                cslc_url r = (s3_path ++ "/" ++ Key obj)%string /\
                date_of_key (Key obj) = Some d /\ date r = Py.Str d)
      as Hrows1'.
    { intros r Hr.
      destruct (Hrows1 r Hr)
        as [Hb [Hs [request [vr [obj [d [Hreq [Hp H]]]]]]]].
      split; [exact Hs|].
      exists (b, cr_network), request, vr, obj, d.
      split; [now left|]. split; [exact Hb|]. split; [exact Hreq|].
      split; [|exact H].
      rewrite Hp. unfold first_request. cbn [Prefix fst snd].
      rewrite string_app_assoc. reflexivity. }
    destruct (for_key_in fuel _ suffix (step b) k calls)
      as [[k1 calls1] [[]| e |]]; cbn [fst snd] in *;
      try (exists new1, sent1; split; [exact Hdf1|];
           split; [exact Hsent1|exact Hrows1']).
    destruct (IH k1 calls1) as [new2 [sent2 [Hdf2 [Hsent2 Hrows2]]]].
    exists (new1 ++ new2), (sent1 ++ sent2).
    split; [now rewrite Hdf2, Hdf1, app_assoc|].
    split; [now rewrite Hsent2, Hsent1, app_assoc|].
    intros r Hr. apply in_app_iff in Hr. destruct Hr as [Hr|Hr].
    + destruct (Hrows1' r Hr)
        as [Hs [p [request [vr [obj [d [Hp [Hb [Hreq H]]]]]]]]].
      split; [exact Hs|]. exists p, request, vr, obj, d.
      split; [exact Hp|]. split; [exact Hb|]. split; [|exact H].
      apply in_app_iff. now left.
    + destruct (Hrows2 r Hr)
        as [Hs [p [request [vr [obj [d [Hp [Hb [Hreq H]]]]]]]]].
      split; [exact Hs|]. exists p, request, vr, obj, d.
      split; [now right|]. split; [exact Hb|]. split; [|exact H].
      apply in_app_iff. now right.
Qed.

(** X7.  Every row after the loaded ones was written by the loop body from
    the listing of a row of the burst file: it carries that row's burst
    id, and its URL and its date come from one and the same key, which ends
    with [.h5] and is the key of an object in the response to a request that
    the run sent under that row's prefix; the date is the string cut out of
    the key, and there is no static-layer URL. *)
Theorem appended_rows_come_from_the_listing
        (fuel : nat) (existing : Frame) (df_val : list (string * string)) :
  let x := query fuel df_val (start existing) [] in
  exists extra,
    validation_bursts_df (fst (fst x)) = existing ++ extra /\
    forall r, In r extra ->
      cslc_static_url r = None /\
      exists p request valid_results obj d,
        In p df_val /\ burst_id r = fst p /\
        In request (snd (fst x)) /\
        Prefix request
        = (prefix ++ "/" ++ snd p ++ "/" ++ fst p ++ "/20")%string /\
        Contents (list_objects_v2 request) = Some valid_results /\
        In obj valid_results /\
        Py.endswith (Key obj) ".h5" = true /\
        cslc_url r = (s3_path ++ "/" ++ Key obj)%string /\
        date_of_key (Key obj) = Some d /\ date r = Py.Str d.
Proof.
  intros x.
  destruct (query_rows fuel df_val (start existing) [])
    as [new [sent [Hdf [Hsent Hrows]]]].
  fold x in Hdf, Hsent. exists new. split; [exact Hdf|].
  rewrite Hsent. exact Hrows.
Qed.

(** *** The notebook as a whole *)

(** X11.  A notebook run on a table file whose dates are digit strings,
    and which holds no [(burst_id, date)] pair twice once it is read: the
    dates come back as integers; if the run returns, the file it writes
    holds the rows of the frame that the save cell left, every loaded row
    among them, and the burst file is left alone; a run that ends in any
    other way leaves both files as they were. *)
Theorem returned_notebook_keeps_loaded_rows
        (fuel : nat) (d : Disk Geometry) :
  let rows := match validation_csv d with
              | Some (Table rows) => rows
              | _ => []
              end in
  let loaded := read_csv rows in
  let run := notebook list_objects_v2 read_bounding_polygon fuel d in
  digit_dates rows ->
  NoDup (map row_key loaded) ->
  match outcome run with
  | Returned _ =>
      exists table,
        validation_bursts_df (kernel run) = table /\
        (forall r, In r loaded -> In r table /\ exists n, date r = Py.Int n) /\
        validation_bursts (disk run) = validation_bursts d /\
        match validation_csv (disk run) with
        | Some (Table written) => written = map to_csv_row table
        | Some PlaceholderColumns => table = [] /\ validation_csv d = None
        | None => False
        end
  | _ => disk run = d
  end.
Proof.
  intros rows loaded run. subst run loaded rows.
  unfold notebook, access_or_initiate.
  destruct (validation_csv d) as [[|rows]|] eqn:Ecsv; intros Hdigits Hnd;
    cbn [outcome disk]; [reflexivity| |].
  - destruct (validation_bursts d) as [df_val|]; [|reflexivity].
    unfold buildCatalog.
    destruct (query_extended fuel (read_csv rows) df_val)
      as [extra [Hdf _]].
    destruct (query fuel df_val (start (read_csv rows)) [])
      as [[k calls] [[]| e |]]; cbn [fst snd validation_bursts_df] in *;
      try reflexivity.
    cbn [outcome disk kernel validation_bursts_df validation_csv
         validation_bursts].
    eexists. split; [reflexivity|]. split; [|split; [reflexivity|]].
    + intros r Hr. split.
      * rewrite Hdf. now apply loaded_rows_saved.
      * destruct (read_csv_digit_dates Geometry rows r Hdigits Hr)
          as [row [_ [_ [Hdate _]]]]. eauto.
    + unfold to_csv.
      destruct (save_validation_table (validation_bursts_df k));
        reflexivity.
  - destruct (validation_bursts d) as [df_val|]; [|reflexivity].
    unfold buildCatalog.
    destruct (query fuel df_val (start []) [])
      as [[k calls] [[]| e |]]; try reflexivity.
    cbn [outcome disk kernel validation_bursts_df validation_csv
         validation_bursts].
    eexists. split; [reflexivity|]. split; [intros r []|].
    split; [reflexivity|]. unfold to_csv.
    destruct (save_validation_table (validation_bursts_df k));
      [split; reflexivity|reflexivity].
Qed.

(** X3.  Nothing guards against a listing that never ends: on a store
    whose every response carries contents and a continuation token the
    generator finishes within no budget of requests, and a run over a
    burst file that is not empty returns no table. *)
Theorem endless_listing_hangs_the_run
        (fuel : nat) (existing : Frame) (df_val : list (string * string))
        (bucket' prefix' suffix' burst_id' version_num' : string) :
  (forall kwargs, Contents (list_objects_v2 kwargs) <> None /\
                  NextContinuationToken (list_objects_v2 kwargs) <> None) ->
  get_matching_s3_keys list_objects_v2 fuel
    bucket' prefix' suffix' burst_id' version_num' = None /\
  (df_val <> [] -> table_of (build fuel existing df_val) = None).
Proof.
  intros Hmore. split; [now apply endless_listing_keys|].
  intros Hne. destruct df_val as [|[b cr_network] rest]; [congruence|].
  unfold buildCatalog. cbn [query_and_build].
  destruct (for_key_in fuel _ suffix (step b) (start existing) [])
    as [[k calls] [[]| e |]] eqn:E; simpl; auto.
  apply for_key_in_returned in E. destruct E as [keys Hkeys].
  pose proof (endless_listing_keys list_objects_v2 fuel bucket
                (prefix ++ "/" ++ cr_network) suffix b version_num Hmore)
    as Hnone.
  unfold get_matching_s3_keys in Hnone. congruence.
Qed.

End SessionFacts.

(** ** Saving, once more *)

Section SaveFacts.

Variable Geometry : Type.

Local Abbreviation Frame := (DataFrame Geometry).

Implicit Types (df : Frame).

(** X12.  Saving is idempotent: removing duplicates from a saved table and
    sorting it again gives the saved table back. *)
Theorem save_validation_table_idempotent df :
  save_validation_table (save_validation_table df) = save_validation_table df.
Proof.
  apply save_validation_table_fixed.
  - apply save_validation_table_NoDup.
  - apply sort_values_sorted.
Qed.

(** X13.  Saving loses rows exactly when two rows of the working table
    share their [(burst_id, date)] pair: the saved table is a rearrangement
    of the working table if and only if the pairs are pairwise different. *)
Theorem save_keeps_all_rows_iff_pairs_distinct df :
  Permutation (save_validation_table df) df <-> NoDup (map row_key df).
Proof.
  split.
  - intros Hp. eapply Permutation_NoDup.
    + apply Permutation_map. exact Hp.
    + apply save_validation_table_NoDup.
  - intros Hnd. unfold save_validation_table.
    rewrite drop_duplicates_fixed by exact Hnd. apply sort_values_perm.
Qed.

(** X14.  With pairwise different pairs the saved table does not depend on
    the order of the rows of the working table. *)
Theorem save_ignores_row_order df df' :
  Permutation df df' -> NoDup (map row_key df) ->
  save_validation_table df = save_validation_table df'.
Proof.
  intros Hp Hnd.
  assert (NoDup (map row_key df')) as Hnd'
      by (eapply Permutation_NoDup; [apply Permutation_map; exact Hp|auto]).
  unfold save_validation_table.
  rewrite !drop_duplicates_fixed by assumption.
  now apply sort_values_of_perm.
Qed.

End SaveFacts.

(** ** The granule-list notebook *)

Lemma string_app_nil_r (a : string) : (a ++ "")%string = a.
Proof. induction a as [|x a IH]; simpl; congruence. Qed.

Lemma split_first_free (c : ascii) (a s : string) :
  Py.contains c a = false ->
  exists h rest,
    Py.split c s = h :: rest /\
    Py.split c (a ++ s)%string = (a ++ h)%string :: rest.
Proof.
  intros Ha. induction a as [|x a IH]; simpl in *.
  - pose proof (split_not_nil c s).
    destruct (Py.split c s) as [|h rest]; [congruence|]. eauto.
  - destruct (Ascii.eqb x c); [discriminate|]. simpl in Ha.
    destruct (IH Ha) as [h [rest [Hs Has]]]. rewrite Has. eauto.
Qed.

Lemma split_stem (c : ascii) (a tail : string) :
  Py.contains c a = false ->
  tail = EmptyString \/ (exists t, tail = String c t) ->
  exists more, Py.split c (a ++ tail)%string = a :: more.
Proof.
  intros Ha [->|[t ->]].
  - exists []. rewrite string_app_nil_r. now apply split_free.
  - exists (Py.split c t). now rewrite split_app_sep, split_free.
Qed.

Lemma split_tokens_free (x c : ascii) (s : string) :
  Py.contains x s = false ->
  forall tok, In tok (Py.split c s) -> Py.contains x tok = false.
Proof.
  induction s as [|y s IH]; simpl.
  - intros _ tok [<-|[]]. reflexivity.
  - intros H. apply orb_false_iff in H. destruct H as [Hy Hs].
    destruct (Ascii.eqb y c).
    + intros tok [<-|Hin]; auto.
    + pose proof (split_not_nil c s).
      destruct (Py.split c s) as [|h t]; [congruence|].
      intros tok [<-|Hin].
      * simpl. rewrite Hy. simpl. apply IH; auto. now left.
      * apply IH; auto. now right.
Qed.

Lemma substring_own_length (a b : string) :
  substring 0 (String.length a) (a ++ b)%string = a.
Proof.
  induction a as [|x a IH]; simpl.
  - now destruct b.
  - now rewrite IH.
Qed.

Lemma concat_empty_cons (x : string) (xs : list string) :
  String.concat "" (x :: xs) = (x ++ String.concat "" xs)%string.
Proof.
  destruct xs as [|y ys]; simpl; auto. now rewrite string_app_nil_r.
Qed.

Section GranuleFacts.

Import GranuleIds.

Variable kernel_globals : string -> option PyObject.
Variable int : string -> option Z.

Local Abbreviation enter := (enter_parameters kernel_globals int).

Lemma site_name_of_parts (c : ascii) (orbit site tail : string) :
  Ascii.eqb c "_" = false -> Ascii.eqb c "." = false ->
  Py.contains "_" orbit = false -> Py.contains "." orbit = false ->
  Py.contains "_" site = false -> Py.contains "." site = false ->
  (tail = EmptyString \/
   exists t, tail = String "_" t \/ tail = String "." t) ->
  site_name (String c (orbit ++ "_" ++ site ++ tail)) = Some site.
Proof.
  intros Hc1 Hc2 Ho1 Ho2 Hs1 Hs2 Htail.
  set (front := String c (orbit ++ "_" ++ site)).
  assert (Py.contains "." front = false) as Hfront.
  { unfold front. simpl. rewrite Hc2. simpl.
    rewrite contains_app, Ho2. simpl. exact Hs2. }
  assert (forall rest, String c (orbit ++ "_" ++ site ++ rest)
                       = (front ++ rest)%string) as Hsplit.
  { intros rest. unfold front. simpl. f_equal.
    rewrite string_app_assoc. reflexivity. }
  assert (forall rest,
             rest = EmptyString \/ (exists t, rest = String "_" t) ->
             nth_error (Py.split "_" (front ++ rest)) 1 = Some site) as Hsite.
  { intros rest Hrest. rewrite <- Hsplit.
    change (String c (orbit ++ "_" ++ site ++ rest))
      with (String c orbit ++ String "_" (site ++ rest))%string.
    rewrite split_app_sep, (split_free "_" (String c orbit)).
    2:{ simpl. now rewrite Hc1. }
    destruct (split_stem "_" site rest Hs1 Hrest) as [more ->].
    reflexivity. }
  unfold site_name. rewrite Hsplit.
  destruct Htail as [->|[t [->| ->]]].
  - rewrite string_app_nil_r, (split_free _ _ Hfront).
    rewrite <- (string_app_nil_r front). apply Hsite. now left.
  - destruct (split_first_free "." (front ++ "_") t) as [h [rest [_ Hs]]].
    { rewrite contains_app, Hfront. reflexivity. }
    replace (front ++ String "_" t)%string
      with ((front ++ "_") ++ t)%string
      by (rewrite string_app_assoc; reflexivity).
    rewrite Hs. rewrite string_app_assoc. apply Hsite. right.
    exists h. reflexivity.
  - rewrite split_app_sep, (split_free _ _ Hfront). cbn [app].
    rewrite <- (string_app_nil_r front). apply Hsite. now left.
Qed.

(** X15.  On a file name of the form direction letter, three-character
    orbit, underscore, site, and then nothing or anything that starts with
    an underscore or a dot, the cell looks the site up among the globals,
    reads the orbit off characters 1 to 3, and takes the direction from the
    first letter: ascending for [A], descending for every other letter.  An
    unbound site is a [KeyError], an orbit that is no integer a
    [ValueError]. *)
Theorem parameters_of_a_well_formed_name
        (save_dir startDate endDate : string) (c : ascii)
        (orbit site tail : string) :
  let save_fn := String c (orbit ++ "_" ++ site ++ tail) in
  Ascii.eqb c "_" = false -> Ascii.eqb c "." = false ->
  String.length orbit = 3 ->
  Py.contains "_" orbit = false -> Py.contains "." orbit = false ->
  Py.contains "_" site = false -> Py.contains "." site = false ->
  (tail = EmptyString \/
   exists t, tail = String "_" t \/ tail = String "." t) ->
  enter save_dir save_fn startDate endDate
  = match vars kernel_globals save_dir save_fn site with
    | None => inl KeyError
    | Some found =>
        match int orbit with
        | None => inl ValueError
        | Some n =>
            inr {| aoi := found;
                   startDate := startDate;
                   endDate := endDate;
                   relativeOrbit := n;
                   flightDirection :=
                     if Ascii.eqb c "A" then ASCENDING else DESCENDING |}
        end
    end.
Proof.
  intros save_fn Hc1 Hc2 Hlen Ho1 Ho2 Hs1 Hs2 Htail.
  unfold enter_parameters.
  unfold save_fn at 1.
  rewrite (site_name_of_parts c orbit site tail Hc1 Hc2 Ho1 Ho2 Hs1 Hs2 Htail).
  fold save_fn.
  destruct (vars kernel_globals save_dir save_fn site); auto.
  assert (substring 1 3 save_fn = orbit) as ->.
  { unfold save_fn. cbn [substring]. rewrite <- Hlen.
    apply substring_own_length. }
  destruct (int orbit); auto.
Qed.

(** X16.  A file name without an underscore stops the cell with an
    [IndexError] at the statement that looks the site up, whatever the
    globals are and whatever [int] would say. *)
Theorem name_without_underscore_raises
        (save_dir save_fn startDate endDate : string) :
  Py.contains "_" save_fn = false ->
  enter save_dir save_fn startDate endDate = inl IndexError.
Proof.
  intros H. unfold enter_parameters, site_name.
  pose proof (split_tokens_free "_" "." save_fn H) as Htok.
  destruct (Py.split "." save_fn) as [|stem more]; auto.
  rewrite (split_free "_" stem); auto. apply Htok. now left.
Qed.

End GranuleFacts.

(** X17.  The file written lists the scenes one per line, in the order of
    the search results, every line ended by a newline: split at the
    newlines, its text is the scene names followed by one empty string
    (when no scene name contains a newline). *)
Theorem written_file_has_one_line_per_scene
        (results : list GranuleIds.Product) :
  (forall f, In f results ->
             Py.contains "010" (GranuleIds.sceneName f) = false) ->
  Py.split "010" (GranuleIds.written (GranuleIds.granule_ids results))
  = map GranuleIds.sceneName results ++ [EmptyString].
Proof.
  unfold GranuleIds.written, GranuleIds.granule_ids.
  induction results as [|f results IH]; intros Hfree; auto.
  cbn [map]. rewrite concat_empty_cons, string_app_assoc.
  change (String "010" "" ++ ?x)%string with (String "010" x).
  cbn [String.append].
  rewrite split_app_sep, split_free by (apply Hfree; now left).
  rewrite IH by (intros g Hg; apply Hfree; now right). reflexivity.
Qed.

(** * The statements on concrete stores *)

Transparent s3_path.

Module Scenario.

Import Fixture.

(** C1.  Scenario A on the code: an empty table, the burst
    [t142_303931_iw3] of network Ecuador, two listed keys.  The run opens
    both granules remotely, one read for each key of the one burst, and the
    two rows it returns carry the two polygons read: the first row of the
    burst sits at label [0], which the test [idx_geo != False] takes for
    "no row found". *)
Theorem scenario_A_reads_both_granules :
  let run := buildCatalog store_A read_ok 5 [] [(b31, "Ecuador")] in
  opened (fst (fst run)) = [url_of key_31_1015; url_of key_31_1108] /\
  option_map (map geometry) (table_of run)
  = Some [("POLYGON of " ++ url_of key_31_1015)%string;
          ("POLYGON of " ++ url_of key_31_1108)%string] /\
  option_map (map burst_id) (table_of run) = Some [b31; b31].
Proof. vm_compute. repeat split. Qed.

(** C2.  A second run on what the first run saved.  The table file holds
    one acquisition of burst [t142_303931_iw3]; the store lists it, a second
    product in the same date folder, and one acquisition of burst
    [t142_303932_iw3].  The first run appends the two new granules with the
    date as a string next to the loaded integer and saves three rows.  The
    second run reads all three dates back as integers, skips every key,
    opens nothing, and saves two rows: the row of the second product is now
    a duplicate. *)
Theorem second_run_saves_another_table :
  let d := {| validation_csv :=
                Some (Table [file_row b31 "20141015" key_31_1015
                                      "POLYGON of 31"]);
              validation_bursts := Some [(b31, "Ecuador"); (b32, "Ecuador")] |} in
  let run1 := notebook store_reprocessed read_ok 5 d in
  let run2 := notebook store_reprocessed read_ok 5 (disk run1) in
  outcome run1 = Returned tt /\
  saved_rows (disk run1)
  = [(b31, "20141015", url_of key_31_1015);
     (b31, "20141015", url_of key_31_1015_v2);
     (b32, "20141015", url_of key_32_1015)] /\
  outcome run2 = Returned tt /\
  listed run2 = listed run1 /\
  opened (kernel run2) = [] /\
  saved_rows (disk run2)
  = [(b31, "20141015", url_of key_31_1015);
     (b32, "20141015", url_of key_32_1015)].
Proof. vm_compute. repeat split. Qed.

(** Another way a second run differs from the first.  Two products lie in
    one date folder of burst [t142_303931_iw3], and the second cannot be
    read.  The first run, from no table file, takes its geometry over from
    the row of the first product and drops the row as a duplicate; in the
    saved table the burst's row has label [0], so the second run reads the
    second product remotely and stops on the failure. *)
Lemma second_run_stops_on_a_failed_read :
  let read := read_failing [url_of key_31_1015_v2] in
  let d := {| validation_csv := None;
              validation_bursts := Some [(b32, "Ecuador"); (b31, "Ecuador")] |} in
  let run1 := notebook store_reprocessed read 5 d in
  let run2 := notebook store_reprocessed read 5 (disk run1) in
  outcome run1 = Returned tt /\
  saved_rows (disk run1)
  = [(b31, "20141015", url_of key_31_1015);
     (b32, "20141015", url_of key_32_1015)] /\
  outcome run2 = Raised (FetchFailed IOFailure).
Proof. vm_compute. repeat split. Qed.

(** C3.  A table file with one acquisition of burst [t142_303931_iw3],
    recorded under network Ecuador, and a burst file that lists the burst
    under network Oklahoma, where the store holds an acquisition of the
    same date.  The loaded date is the integer [20141015], the new one the
    string ["20141015"]; [drop_duplicates] keeps both rows, and the saved
    file holds two records on one burst and date. *)
Theorem saved_file_repeats_a_burst_and_date :
  let d := {| validation_csv :=
                Some (Table [file_row b31 "20141015" key_31_1015
                                      "POLYGON of 31"]);
              validation_bursts := Some [(b31, "Oklahoma")] |} in
  let run := notebook store_two_networks read_ok 5 d in
  outcome run = Returned tt /\
  saved_rows (disk run)
  = [(b31, "20141015", url_of key_31_1015);
     (b31, "20141015", url_of key_31_1015_ok)] /\
  ~ NoDup (map fst (saved_rows (disk run))).
Proof.
  vm_compute. split; [reflexivity|]. split; [reflexivity|].
  intros H. inversion H as [|? ? Hnotin _]; subst.
  apply Hnotin. left. reflexivity.
Qed.

(** C4.  A table file with the acquisition of [20141108] of burst
    [t142_303931_iw3], and a store that lists the acquisitions of
    [20141015] and [20141108].  The loaded date is an integer, the new one a
    string, and [sort_values] puts integers before strings: the saved file
    lists [20141108] before [20141015].  Sorting what is read back from
    that file is no identity: a second run, which appends nothing, saves
    the rows in the other order. *)
Theorem saved_file_lists_the_later_date_first :
  let d := {| validation_csv :=
                Some (Table [file_row b31 "20141108" key_31_1108
                                      "POLYGON of 31"]);
              validation_bursts := Some [(b31, "Ecuador")] |} in
  let run := notebook store_A read_ok 5 d in
  let again := notebook store_A read_ok 5 (disk run) in
  outcome run = Returned tt /\
  saved_rows (disk run)
  = [(b31, "20141108", url_of key_31_1108);
     (b31, "20141015", url_of key_31_1015)] /\
  outcome again = Returned tt /\
  saved_rows (disk again)
  = [(b31, "20141015", url_of key_31_1015);
     (b31, "20141108", url_of key_31_1108)].
Proof. vm_compute. repeat split. Qed.

(** C7.  A run over a burst file under whose prefixes nothing is listed,
    with no table file, saves the frame of placeholder columns: a header
    without [geometry].  With that table file in place and the burst file
    gone, the notebook stops in the cell that loads the table, on
    [df["geometry"]], and never gets to the cell that reports the missing
    burst file. *)
Theorem header_only_table_stops_the_load_cell :
  let d0 := {| validation_csv := None;
               validation_bursts := Some [(b32, "Oklahoma")] |} in
  let run0 := notebook store_A read_ok 5 d0 in
  let d := {| validation_csv := validation_csv (disk run0);
              validation_bursts := None |} in
  let run := notebook store_A read_ok 5 d in
  outcome run0 = Returned tt /\
  validation_csv (disk run0) = Some PlaceholderColumns /\
  outcome run = Raised KeyError /\
  listed run = [] /\
  opened (kernel run) = [] /\
  disk run = d.
Proof. vm_compute. repeat split. Qed.

(** C10.  A table file with one acquisition each of bursts
    [t142_303932_iw3] and [t142_303931_iw3], and a store that lists a second
    product in the date folder of the latter.  The new key is appended with
    the loaded geometry (no granule is opened) and with the date as a
    string, which [drop_duplicates] does not take for the loaded integer:
    the saved file holds the loaded row and the new one. *)
Theorem loaded_row_and_new_row_are_both_saved :
  let d := {| validation_csv :=
                Some (Table [file_row b32 "20141015" key_32_1015
                                      "POLYGON of 32";
                             file_row b31 "20141015" key_31_1015
                                      "POLYGON of 31"]);
              validation_bursts := Some [(b31, "Ecuador")] |} in
  let run := notebook store_reprocessed read_ok 5 d in
  outcome run = Returned tt /\
  opened (kernel run) = [] /\
  saved_rows (disk run)
  = [(b31, "20141015", url_of key_31_1015);
     (b31, "20141015", url_of key_31_1015_v2);
     (b32, "20141015", url_of key_32_1015)].
Proof. vm_compute. repeat split. Qed.

(** C5.  One burst listed under two networks, with an acquisition of the
    same date under each: the table keeps the row of the network that is
    processed first, so the two orders return different tables. *)
Lemma order_matters_for_a_burst_under_two_networks :
  let parts := [(b31, "Ecuador"); (b31, "Oklahoma")] in
  let parts' := [(b31, "Oklahoma"); (b31, "Ecuador")] in
  Permutation parts parts' /\
  table_of (buildCatalog store_two_networks read_ok 5 [] parts)
  <> table_of (buildCatalog store_two_networks read_ok 5 [] parts').
Proof.
  split.
  - apply perm_swap.
  - vm_compute. discriminate.
Qed.

Lemma order_of_distinct_bursts_is_irrelevant_witness :
  let parts := [(b31, "Ecuador"); (b32, "Ecuador")] in
  let parts' := [(b32, "Ecuador"); (b31, "Ecuador")] in
  let read := read_const "POLYGON ((-80 -1, -79 -1, -79 0, -80 -1))" in
  Permutation parts parts' /\
  NoDup (map fst parts) /\
  table_of (buildCatalog store_D read 5 [] parts)
  = table_of (buildCatalog store_D read 5 [] parts') /\
  option_map (map row_key) (table_of (buildCatalog store_D read 5 [] parts'))
  = Some [(b31, Py.Str "20141015"); (b32, Py.Str "20141015")].
Proof.
  intros parts parts' read.
  assert (Permutation parts parts') as Hperm by apply perm_swap.
  assert (NoDup (map fst parts)) as Hnd.
  { repeat constructor; simpl; intuition discriminate. }
  split; [exact Hperm|]. split; [exact Hnd|].
  split; [|vm_compute; reflexivity].
  apply (order_of_distinct_bursts_is_irrelevant string store_D read 5 []
           parts parts' Hperm Hnd).
  - intros p q keys keys' key [<-|[<-|[]]] [<-|[<-|[]]] Hk Hk' Hin Hin';
      try reflexivity; exfalso; vm_compute in Hk, Hk';
      injection Hk as <-; injection Hk' as <-;
      destruct Hin as [<-|[]]; destruct Hin' as [H|[]]; discriminate H.
  - intros _ p keys key1 key2 _ _ _ _. reflexivity.
Defined.

Lemma failed_geometry_read_aborts_run_witness :
  let read := read_failing [url_of key_31_1108] in
  let run := buildCatalog store_A read 5 [] [(b31, "Ecuador")] in
  read (url_of key_31_1108) = inl IOFailure /\
  In (url_of key_31_1108) (opened (fst (fst run))) /\
  snd run = Raised (FetchFailed IOFailure) /\
  table_of run = None.
Proof.
  intros read run.
  assert (read (url_of key_31_1108) = inl IOFailure) as Hfail
      by (vm_compute; reflexivity).
  assert (In (url_of key_31_1108) (opened (fst (fst run)))) as Hin
      by (vm_compute; right; left; reflexivity).
  destruct (failed_geometry_read_aborts_run string store_A read 5 []
              [(b31, "Ecuador")] _ _ Hfail Hin)
    as [k [calls [Hrun [_ [_ [_ Hnone]]]]]].
  split; [exact Hfail|]. split; [exact Hin|]. split; [|exact Hnone].
  unfold run. rewrite Hrun. reflexivity.
Defined.

Lemma get_matching_s3_keys_drains_finite_listing_witness :
  let pfx := (prefix ++ "/Ecuador")%string in
  let first := first_request bucket pfx b31 in
  let second := with_token first (token 1) in
  let third := with_token second (token 2) in
  listing_chain store_paged first [second; third] /\
  List.length [second; third] < 5 /\
  get_matching_s3_keys store_paged 5 bucket pfx suffix b31 version_num
  = Some [key_31_1015; key_31_1108] /\
  requests_from store_paged 5 first = [first; second; third].
Proof.
  intros pfx first second third.
  assert (listing_chain store_paged first [second; third]) as Hchain.
  { simpl. split; [vm_compute; discriminate|].
    split; [exists (token 1); split; vm_compute; reflexivity|].
    split; [vm_compute; discriminate|].
    split; [exists (token 2); split; vm_compute; reflexivity|].
    right. vm_compute. reflexivity. }
  assert (List.length [second; third] < 5) as Hlt by (simpl; lia).
  destruct (get_matching_s3_keys_drains_finite_listing store_paged 5
              bucket pfx suffix b31 version_num [second; third] Hchain Hlt)
    as [keys [Hkeys [Heq [Hreq _]]]].
  split; [exact Hchain|]. split; [exact Hlt|]. split; [|exact Hreq].
  rewrite Hkeys, Heq. vm_compute. reflexivity.
Defined.

End Scenario.

Module Checks.

Import Fixture Fixture2.

Lemma yielded_keys_are_the_listed_ones_witness :
  let pfx := (prefix ++ "/Ecuador")%string in
  let first := first_request bucket pfx b31 in
  let second := with_token first (token 1) in
  let third := with_token second (token 2) in
  listing_chain store_paged first [second; third] /\
  get_matching_s3_keys store_paged 5 bucket pfx suffix b31 version_num
  = Some [key_31_1015; key_31_1108] /\
  (In key_31_1108 [key_31_1015; key_31_1108] <->
   exists request valid_results obj,
     In request [first; second; third] /\
     Contents (store_paged request) = Some valid_results /\
     In obj valid_results /\ Key obj = key_31_1108 /\
     Py.endswith key_31_1108 suffix = true).
Proof.
  intros pfx first second third.
  assert (listing_chain store_paged first [second; third]) as Hchain.
  { simpl. split; [vm_compute; discriminate|].
    split; [exists (token 1); split; vm_compute; reflexivity|].
    split; [vm_compute; discriminate|].
    split; [exists (token 2); split; vm_compute; reflexivity|].
    right. vm_compute. reflexivity. }
  assert (get_matching_s3_keys store_paged 5 bucket pfx suffix b31 version_num
          = Some [key_31_1015; key_31_1108]) as Hkeys
      by (vm_compute; reflexivity).
  split; [exact Hchain|]. split; [exact Hkeys|].
  exact (yielded_keys_are_the_listed_ones store_paged 5 bucket pfx suffix
           b31 version_num [second; third] _ Hchain Hkeys key_31_1108).
Defined.

Lemma endless_listing_hangs_the_run_witness :
  (forall kwargs, Contents (store_endless kwargs) <> None /\
                  NextContinuationToken (store_endless kwargs) <> None) /\
  get_matching_s3_keys store_endless 1000
    bucket (prefix ++ "/Ecuador") suffix b31 version_num = None /\
  table_of (buildCatalog store_endless read_ok 1000 [] [(b31, "Ecuador")])
  = None.
Proof.
  assert (forall kwargs, Contents (store_endless kwargs) <> None /\
                         NextContinuationToken (store_endless kwargs) <> None)
    as Hmore by (intros kwargs; split; discriminate).
  destruct (endless_listing_hangs_the_run string store_endless read_ok 1000
              [] [(b31, "Ecuador")]
              bucket (prefix ++ "/Ecuador") suffix b31 version_num Hmore)
    as [Hkeys Htable].
  split; [exact Hmore|]. split; [exact Hkeys|].
  apply Htable. discriminate.
Defined.

Lemma date_of_key_layout_witness :
  Py.contains "/" "20141015" = false /\
  Py.contains "/" "t142_303931_iw3_20141015.h5" = false /\
  date_of_key ("CSLC/any/depth/of/folders" ++ "/" ++ "20141015" ++ "/"
               ++ "t142_303931_iw3_20141015.h5") = Some "20141015".
Proof.
  assert (Py.contains "/" "20141015" = false) as Hd by reflexivity.
  assert (Py.contains "/" "t142_303931_iw3_20141015.h5" = false) as Hf
      by reflexivity.
  split; [exact Hd|]. split; [exact Hf|].
  exact (date_of_key_layout "CSLC/any/depth/of/folders" _ _ Hd Hf).
Defined.

Lemma urls_stay_distinct_witness :
  let existing := [loaded_row b31 20141015 key_31_1015 "POLYGON of 31"] in
  let df_val := [(b31, "Ecuador"); (b32, "Ecuador")] in
  NoDup (map cslc_url existing) /\
  NoDup (map cslc_url
           (validation_bursts_df
              (fst (fst (query_and_build store_reprocessed read_ok 5 df_val
                           (start existing) []))))).
Proof.
  intros existing df_val.
  assert (NoDup (map cslc_url existing)) as Hnd
      by (repeat constructor; simpl; tauto).
  split; [exact Hnd|].
  exact (urls_stay_distinct string store_reprocessed read_ok 5 existing
           df_val Hnd).
Defined.

Lemma known_burst_is_not_read_again_witness :
  let r0 := loaded_row b32 20141015 key_32_1015 "POLYGON of 32" in
  let rest := [loaded_row b31 20141015 key_31_1015 "POLYGON of 31"] in
  let k := {| validation_bursts_df := r0 :: rest; opened := [] |} in
  burst_id r0 <> b31 /\
  (exists r, In r rest /\ burst_id r = b31) /\
  opened (fst (process_key (read_failing [url_of key_31_1108])
                 b31 key_31_1108 k)) = [] /\
  map geometry
      (validation_bursts_df
         (fst (process_key (read_failing [url_of key_31_1108])
                 b31 key_31_1108 k)))
  = ["POLYGON of 32"; "POLYGON of 31"; "POLYGON of 31"].
Proof.
  intros r0 rest k.
  assert (burst_id r0 <> b31) as Hne by (vm_compute; discriminate).
  assert (exists r, In r rest /\ burst_id r = b31) as Hsome
      by (eexists; split; [left; reflexivity|reflexivity]).
  destruct (known_burst_is_not_read_again string
              (read_failing [url_of key_31_1108])
              r0 rest b31 key_31_1108 [] Hne Hsome) as [Hopen _].
  split; [exact Hne|]. split; [exact Hsome|]. split; [exact Hopen|].
  vm_compute. reflexivity.
Defined.

Lemma known_bursts_need_no_read_witness :
  let r0 := loaded_row b32 20141015 key_32_1015 "POLYGON of 32" in
  let rest := [loaded_row b31 20140921 key_31_1015_v2 "POLYGON of 31"] in
  let df_val := [(b31, "Ecuador")] in
  let read := read_failing [url_of key_31_1015; url_of key_31_1108] in
  let x := query_and_build store_A read 5 df_val (start (r0 :: rest)) [] in
  (forall p, In p df_val ->
             burst_id r0 <> fst p /\
             exists r, In r rest /\ burst_id r = fst p) /\
  opened (fst (fst x)) = [] /\
  snd x = Returned tt /\
  List.length (validation_bursts_df (fst (fst x))) = 4.
Proof.
  intros r0 rest df_val read x.
  assert (forall p, In p df_val ->
                    burst_id r0 <> fst p /\
                    exists r, In r rest /\ burst_id r = fst p) as Hknown.
  { intros p [<-|[]]. split; [vm_compute; discriminate|].
    eexists. split; [left; reflexivity|reflexivity]. }
  destruct (known_bursts_need_no_read string store_A read 5 r0 rest df_val
              Hknown) as [[Hopen _] _].
  split; [exact Hknown|]. split; [exact Hopen|].
  split; vm_compute; reflexivity.
Defined.

Lemma requests_stay_under_the_prefix_witness :
  let req := with_token (first_request bucket (prefix ++ "/Ecuador") b31)
                        (token 1) in
  let log := snd (fst (buildCatalog store_paged read_ok 5 []
                         [(b31, "Ecuador")])) in
  In req log /\
  Bucket req = bucket /\
  Prefix req = (prefix ++ "/" ++ "Ecuador" ++ "/" ++ b31 ++ "/20")%string /\
  (exists req', In req' log /\
                NextContinuationToken (store_paged req')
                = ContinuationToken req).
Proof.
  intros req log.
  assert (In req log) as Hin by (vm_compute; right; left; reflexivity).
  destruct (requests_stay_under_the_prefix string store_paged read_ok 5 []
              [(b31, "Ecuador")] req Hin) as [HB [_ Htok]].
  split; [exact Hin|]. split; [exact HB|]. split; [reflexivity|].
  destruct Htok as [Hnone|Hsome]; [discriminate Hnone|exact Hsome].
Defined.

Lemma returned_notebook_keeps_loaded_rows_witness :
  let rows := [file_row b32 "20141015" key_32_1015 "POLYGON of 32"] in
  let d := {| validation_csv := Some (Table rows);
              validation_bursts := Some [(b31, "Ecuador")] |} in
  let run := notebook store_A read_ok 5 d in
  digit_dates rows /\
  NoDup (map row_key (read_csv rows)) /\
  outcome run = Returned tt /\
  saved_rows (disk run)
  = [(b31, "20141015", url_of key_31_1015);
     (b31, "20141108", url_of key_31_1108);
     (b32, "20141015", url_of key_32_1015)] /\
  (forall r, In r (read_csv rows) ->
             In r (validation_bursts_df (kernel run)) /\
             exists n, date r = Py.Int n).
Proof.
  intros rows d run.
  assert (digit_dates rows) as Hdigits.
  { constructor; [|constructor]. split; [reflexivity|]. simpl. lia. }
  assert (NoDup (map row_key (read_csv rows))) as Hnd
      by (repeat constructor; simpl; tauto).
  assert (outcome run = Returned tt) as Hret by (vm_compute; reflexivity).
  pose proof (returned_notebook_keeps_loaded_rows string store_A read_ok
                5 d Hdigits Hnd) as H.
  split; [exact Hdigits|]. split; [exact Hnd|]. split; [exact Hret|].
  split; [vm_compute; reflexivity|].
  fold run in H. rewrite Hret in H.
  destruct H as [table [Hk [Hkeep _]]]. rewrite Hk. exact Hkeep.
Defined.

Lemma save_ignores_row_order_witness :
  let r1 := loaded_row b31 20141108 key_31_1108 "POLYGON of 31" in
  let r2 := row b31 "20141015" key_31_1015 "POLYGON of 31" in
  let r3 := row b32 "20141015" key_32_1015 "POLYGON of 32" in
  Permutation [r1; r2; r3] [r3; r1; r2] /\
  NoDup (map row_key [r1; r2; r3]) /\
  save_validation_table [r1; r2; r3] = save_validation_table [r3; r1; r2] /\
  save_validation_table [r3; r1; r2] = [r1; r2; r3].
Proof.
  intros r1 r2 r3.
  assert (Permutation [r1; r2; r3] [r3; r1; r2]) as Hp
      by (apply Permutation_sym; apply (Permutation_cons_append [r1; r2] r3)).
  assert (NoDup (map row_key [r1; r2; r3])) as Hnd.
  { repeat constructor; simpl; intuition discriminate. }
  split; [exact Hp|]. split; [exact Hnd|].
  split; [|vm_compute; reflexivity].
  exact (save_ignores_row_order string _ _ Hp Hnd).
Defined.

Lemma parameters_of_a_well_formed_name_witness :
  let save_fn := "A137_SAF_additional.txt" in
  String.length "137" = 3 /\
  Py.contains "_" "SAF" = false /\ Py.contains "." "SAF" = false /\
  GranuleIds.enter_parameters no_globals int_of_digits
    "/u/trappist-r0/bato/work/calval-CSLC/data_request/RC2-RC8" save_fn
    "2023-07-01" "2023-08-01"
  = inr {| GranuleIds.aoi := GranuleIds.PyStr GranuleIds.SAF;
           GranuleIds.startDate := "2023-07-01";
           GranuleIds.endDate := "2023-08-01";
           GranuleIds.relativeOrbit := 137;
           GranuleIds.flightDirection := GranuleIds.ASCENDING |}.
Proof.
  intros save_fn.
  split; [reflexivity|]. split; [reflexivity|]. split; [reflexivity|].
  exact (parameters_of_a_well_formed_name no_globals int_of_digits
             "/u/trappist-r0/bato/work/calval-CSLC/data_request/RC2-RC8"
             "2023-07-01" "2023-08-01" "A" "137" "SAF" "_additional.txt"
             eq_refl eq_refl eq_refl eq_refl eq_refl eq_refl eq_refl
             (or_intror (ex_intro _ "additional.txt"
                                  (or_introl eq_refl)))).
Defined.

Lemma name_without_underscore_raises_witness :
  Py.contains "_" "A137.SAF.txt" = false /\
  GranuleIds.enter_parameters no_globals int_of_digits
    "/tmp" "A137.SAF.txt" "2023-07-01" "2023-08-01"
  = inl GranuleIds.IndexError.
Proof.
  split; [reflexivity|].
  exact (name_without_underscore_raises no_globals int_of_digits
           "/tmp" "A137.SAF.txt" "2023-07-01" "2023-08-01" eq_refl).
Defined.

Lemma written_file_has_one_line_per_scene_witness :
  let results :=
    [ {| GranuleIds.sceneName :=
           "S1A_IW_SLC__1SDV_20230729T140834_20230729T140901_049639_05F813_8AFA" |};
      {| GranuleIds.sceneName :=
           "S1A_IW_SLC__1SDV_20230717T140833_20230717T140900_049464_05F2A8_0203" |} ] in
  (forall f, In f results ->
             Py.contains "010" (GranuleIds.sceneName f) = false) /\
  Py.split "010" (GranuleIds.written (GranuleIds.granule_ids results))
  = map GranuleIds.sceneName results ++ [EmptyString].
Proof.
  intros results.
  assert (forall f, In f results ->
                    Py.contains "010" (GranuleIds.sceneName f) = false)
    as Hfree by (intros f [<-|[<-|[]]]; reflexivity).
  split; [exact Hfree|].
  exact (written_file_has_one_line_per_scene results Hfree).
Defined.

End Checks.
